(** * AutoGradePro grading engine: the graders of [GradingSimulator]

    A shallow embedding of [performance_test/grading_simulator.py]: the four
    grading methods of the class [GradingSimulator] ([grade_one_word],
    [grade_short_phrase], [grade_list], [grade_numerical]) with the helpers
    they call, and of the functions of [performance_test/test_grading_speed.py]
    and [performance_test/test_throughput.py] that build a submission and
    grade it, followed by the properties the design document states about
    the graders and by further properties of the code.

    Modelling conventions.
    - A Python [str] is a [string] whose characters are the code points
      U+0000 to U+00FF; the character classes ([str.isspace], [\s], [\d],
      [\w], [str.lower], printability) are those of CPython on that range.
      The bullet U+2022 of the list patterns lies outside it.
    - A Python [float] is an IEEE 754 binary64 value, [spec_float] of the
      standard library at precision 53 and maximal exponent 1024, with the
      library's correctly rounded operations.
    - A Python exception is a value of [exn]; a call that may raise returns
      an [outcome].
    - A Python [int] is a [Z], and [str] gives the digits of every [int].
      CPython (3.11) raises a [ValueError] instead for an [int] of more than
      4300 digits; a statement that needs [str] to return, for every value,
      asks that [str_succeeds].
    - A Python [set] of tokens is a [gset string]. Python does not specify
      the order in which [list(s)] enumerates a set, and CPython's changes
      with the hash seed of the process and with the order in which the
      items went in: the order is a [SetOrder], an argument of
      [grade_list_in]. [grade_list] is the grader at the order of [elements];
      only [matched_items] depends on the order.
    - The similarity oracle ([ollama.chat]) and the standard output are the
      only state: they live in a [World] that [grade_short_phrase] threads. *)

From Stdlib Require Import ZArith NArith String Ascii List Bool Lia.
From Stdlib Require Import Floats.SpecFloat DecimalString.
From stdpp Require Import gmap strings.

(** ** Python strings *)

Module PyStr.

Definition ord (c : ascii) : N := N_of_ascii c.

Definition in_range (lo hi : N) (c : ascii) : bool :=
  ((lo <=? ord c) && (ord c <=? hi))%N.

Definition is_char (n : N) (c : ascii) : bool := (ord c =? n)%N.

(** [str.isspace], also the class [\s] of [re] on [str] patterns. *)
Definition isspace (c : ascii) : bool :=
  in_range 9 13 c || in_range 28 32 c || is_char 133 c || is_char 160 c.

(** The class [\d]. *)
Definition isdigit (c : ascii) : bool := in_range 48 57 c.

(** The class [\w]: alphanumeric characters and the underscore. *)
Definition isword (c : ascii) : bool :=
  in_range 48 57 c || in_range 65 90 c || is_char 95 c || in_range 97 122 c
  || is_char 170 c || in_range 178 179 c || is_char 181 c
  || in_range 185 186 c || in_range 188 190 c || in_range 192 214 c
  || in_range 216 246 c || in_range 248 255 c.

(** [str.isprintable] on one character. *)
Definition isprintable (c : ascii) : bool :=
  in_range 32 126 c || in_range 161 172 c || in_range 174 255 c.

Definition lower_char (c : ascii) : ascii :=
  if in_range 65 90 c || in_range 192 214 c || in_range 216 222 c
  then ascii_of_N (ord c + 32)
  else c.

(** [s.lower()] *)
Fixpoint lower (s : string) : string :=
  match s with
  | EmptyString => EmptyString
  | String c r => String (lower_char c) (lower r)
  end.

Fixpoint lstrip (s : string) : string :=
  match s with
  | String c r => if isspace c then lstrip r else s
  | EmptyString => EmptyString
  end.

Fixpoint rstrip (s : string) : string :=
  match s with
  | EmptyString => EmptyString
  | String c r =>
      match rstrip r with
      | EmptyString => if isspace c then EmptyString else String c EmptyString
      | r' => String c r'
      end
  end.

(** [s.strip()] *)
Definition strip (s : string) : string := rstrip (lstrip s).

(** [s.replace(c, '')] for a one-character [c]. *)
Fixpoint remove_char (c : ascii) (s : string) : string :=
  match s with
  | EmptyString => EmptyString
  | String d r =>
      if Ascii.eqb c d then remove_char c r else String d (remove_char c r)
  end.

(** [s.split(sep)] for a one-character separator. *)
Fixpoint split_char (sep : ascii) (s : string) : list string :=
  match s with
  | EmptyString => [EmptyString]
  | String c r =>
      if Ascii.eqb c sep then EmptyString :: split_char sep r
      else match split_char sep r with
           | h :: t => String c h :: t
           | [] => [String c EmptyString]
           end
  end.

(** [needle in hay] *)
Fixpoint contains (needle hay : string) : bool :=
  String.prefix needle hay
  || match hay with
     | EmptyString => false
     | String _ r => contains needle r
     end.

(** [not s]: the empty string is the only falsy one. *)
Definition is_empty (s : string) : bool :=
  match s with EmptyString => true | _ => false end.

(** [str(n)] for an [int]. *)
Definition of_Z (z : Z) : string := NilZero.string_of_int (Z.to_int z).
Definition of_nat (n : nat) : string := of_Z (Z.of_nat n).

Definition newline : ascii := ascii_of_N 10.
Definition tab : ascii := ascii_of_N 9.
Definition cr : ascii := ascii_of_N 13.
Definition dquote : ascii := ascii_of_N 34.
Definition squote : ascii := ascii_of_N 39.
Definition backslash : ascii := ascii_of_N 92.

Definition hex_digit (n : N) : ascii :=
  if (n <? 10)%N then ascii_of_N (48 + n) else ascii_of_N (87 + n).

(** One character of [repr(s)] inside the quotes [q]. *)
Definition repr_char (q c : ascii) : string :=
  if Ascii.eqb c q || Ascii.eqb c backslash then String backslash (String c EmptyString)
  else if Ascii.eqb c tab then String backslash (String "t" EmptyString)
  else if Ascii.eqb c newline then String backslash (String "n" EmptyString)
  else if Ascii.eqb c cr then String backslash (String "r" EmptyString)
  else if isprintable c then String c EmptyString
  else String backslash
         (String "x" (String (hex_digit (ord c / 16))
                        (String (hex_digit (ord c mod 16)) EmptyString))).

Fixpoint has_char (c : ascii) (s : string) : bool :=
  match s with
  | EmptyString => false
  | String d r => Ascii.eqb c d || has_char c r
  end.

Fixpoint repr_body (q : ascii) (s : string) : string :=
  match s with
  | EmptyString => EmptyString
  | String c r => append (repr_char q c) (repr_body q r)
  end.

(** [repr(s)]: single quotes unless [s] holds one and no double quote. *)
Definition repr (s : string) : string :=
  let q := if has_char squote s && negb (has_char dquote s) then dquote else squote in
  String q (append (repr_body q s) (String q EmptyString)).

End PyStr.

(** ** Regular expressions: the fragment of [re] the graders use

    A backtracking matcher with Python's priorities: alternatives are tried
    left to right, repetitions are greedy and give characters back one at a
    time. Repetition is only needed over single character classes. A cursor
    into the subject is the position [pos], the character before it [prev]
    ([None] at the start of the subject) and the text still to read. *)

Module Re.
Import PyStr.

Inductive regex : Type :=
| Eps
| Chr (cls : ascii -> bool)      (* one character of a class *)
| Star (cls : ascii -> bool)     (* cls*  *)
| Plus (cls : ascii -> bool)     (* cls+  *)
| Seq (r1 r2 : regex)
| Alt (r1 r2 : regex)            (* r1|r2 *)
| Opt (r : regex)                (* (?:r)? *)
| Group (r : regex)              (* (r), the only capturing group of a pattern *)
| WordB                          (* \b *)
| Bol.                           (* ^ without MULTILINE *)

(** [cat [r1; ...; rn]] is the concatenation r1...rn. *)
Definition cat (rs : list regex) : regex := foldr Seq Eps rs.

Definition span : Type := (nat * nat)%type.

Definition first_char (s : string) : option ascii :=
  match s with String c _ => Some c | EmptyString => None end.

Definition opt_isword (o : option ascii) : bool :=
  match o with Some c => isword c | None => false end.

Section Matcher.
Context {R : Type}.

Fixpoint star (cls : ascii -> bool) (k : nat -> option ascii -> string -> option R)
    (pos : nat) (prev : option ascii) (s : string) : option R :=
  match s with
  | String c t =>
      if cls c then
        match star cls k (S pos) (Some c) t with
        | Some x => Some x
        | None => k pos prev s
        end
      else k pos prev s
  | EmptyString => k pos prev s
  end.

Fixpoint exec (r : regex) (pos : nat) (prev : option ascii) (s : string)
    (cap : option span)
    (k : nat -> option ascii -> string -> option span -> option R) : option R :=
  match r with
  | Eps => k pos prev s cap
  | Chr cls =>
      match s with
      | String c t => if cls c then k (S pos) (Some c) t cap else None
      | EmptyString => None
      end
  | Star cls => star cls (fun p pv t => k p pv t cap) pos prev s
  | Plus cls =>
      match s with
      | String c t =>
          if cls c then star cls (fun p pv t' => k p pv t' cap) (S pos) (Some c) t
          else None
      | EmptyString => None
      end
  | Seq r1 r2 => exec r1 pos prev s cap (fun p pv t cp => exec r2 p pv t cp k)
  | Alt r1 r2 =>
      match exec r1 pos prev s cap k with
      | Some x => Some x
      | None => exec r2 pos prev s cap k
      end
  | Opt r1 =>
      match exec r1 pos prev s cap k with
      | Some x => Some x
      | None => k pos prev s cap
      end
  | Group r1 => exec r1 pos prev s cap (fun p pv t _ => k p pv t (Some (pos, p)))
  | WordB =>
      if xorb (opt_isword prev) (opt_isword (first_char s)) then k pos prev s cap
      else None
  | Bol => match prev with None => k pos prev s cap | Some _ => None end
  end.
End Matcher.

(** A match that starts at the cursor: its end and the span of group 1. *)
Definition match_at (r : regex) (pos : nat) (prev : option ascii) (s : string)
  : option (nat * option span) :=
  exec r pos prev s None (fun p _ _ cp => Some (p, cp)).

Record match_obj := MatchObj { m_start : nat; m_end : nat; m_group1 : option span }.

(** [re.match(r, s)] *)
Definition re_match (r : regex) (s : string) : option match_obj :=
  match match_at r 0 None s with
  | Some (e, cp) => Some (MatchObj 0 e cp)
  | None => None
  end.

Fixpoint search_from (r : regex) (pos : nat) (prev : option ascii) (s : string)
  : option match_obj :=
  match match_at r pos prev s with
  | Some (e, cp) => Some (MatchObj pos e cp)
  | None =>
      match s with
      | String c t => search_from r (S pos) (Some c) t
      | EmptyString => None
      end
  end.

(** [re.search(r, s)]: the leftmost match. *)
Definition re_search (r : regex) (s : string) : option match_obj :=
  search_from r 0 None s.

(** [m.group(1)] of a match in the subject [s]. *)
Definition group1 (s : string) (m : match_obj) : option string :=
  match m_group1 m with
  | Some (a, b) => Some (substring a (b - a) s)
  | None => None
  end.

(** [re.sub(r, repl, s)] for a pattern that matches no empty string and a
    replacement without group references: [skip] counts the characters of the
    current match still to drop. *)
Fixpoint sub_from (r : regex) (repl : string) (skip : nat) (pos : nat)
    (prev : option ascii) (s : string) : string :=
  match s with
  | EmptyString => EmptyString
  | String c t =>
      match skip with
      | S n => sub_from r repl n (S pos) (Some c) t
      | O =>
          match match_at r pos prev s with
          | Some (e, _) =>
              if pos <? e
              then append repl (sub_from r repl (e - pos - 1) (S pos) (Some c) t)
              else String c (sub_from r repl 0 (S pos) (Some c) t)
          | None => String c (sub_from r repl 0 (S pos) (Some c) t)
          end
      end
  end.

Definition re_sub (r : regex) (repl s : string) : string :=
  sub_from r repl 0 0 None s.

(** [re.split(r, s)] for a pattern without groups that matches no empty
    string; the head of the result is the piece being read. *)
Fixpoint split_from (r : regex) (skip : nat) (pos : nat) (prev : option ascii)
    (s : string) : list string :=
  match s with
  | EmptyString => [EmptyString]
  | String c t =>
      match skip with
      | S n => split_from r n (S pos) (Some c) t
      | O =>
          let keep :=
            match split_from r 0 (S pos) (Some c) t with
            | h :: tl => String c h :: tl
            | [] => [String c EmptyString]
            end in
          match match_at r pos prev s with
          | Some (e, _) =>
              if pos <? e
              then EmptyString :: split_from r (e - pos - 1) (S pos) (Some c) t
              else keep
          | None => keep
          end
      end
  end.

Definition re_split (r : regex) (s : string) : list string :=
  split_from r 0 0 None s.

End Re.

(** ** Python exceptions *)

Inductive exn : Type :=
| ValueError (msg : string)
| TypeError (msg : string)
| ZeroDivisionError (msg : string)
| OverflowError (msg : string)
| OtherError (msg : string).     (* any other subclass of Exception *)

(** [str(e)] *)
Definition exn_message (e : exn) : string :=
  match e with
  | ValueError m | TypeError m | ZeroDivisionError m | OverflowError m
  | OtherError m => m
  end.

(** What a call does: return a value or raise. *)
Inductive outcome (A : Type) : Type :=
| Ok (a : A)
| Raise (e : exn).
Arguments Ok {A} a.
Arguments Raise {A} e.

(** The exception monad, with stdpp's notation [x ← m; k]. *)
#[global] Instance outcome_ret : MRet outcome := @Ok.
#[global] Instance outcome_bind : MBind outcome :=
  fun A B f m => match m with Ok a => f a | Raise e => Raise e end.

(** ** Python floats *)

Module PyFloat.
Import PyStr.
Local Open Scope Z_scope.

Definition float : Type := spec_float.
Definition prec : Z := 53.
Definition emax : Z := 1024.

Definition nan : float := S754_nan.
Definition inf : float := S754_infinity false.
Definition neg_inf : float := S754_infinity true.

Definition add : float -> float -> float := SFadd prec emax.
Definition sub : float -> float -> float := SFsub prec emax.
Definition mul : float -> float -> float := SFmul prec emax.
Definition div : float -> float -> float := SFdiv prec emax.
Definition abs : float -> float := SFabs.
(** [x <= y], [x < y], [x >= y], [x > y], [x == y] *)
Definition le (x y : float) : bool := SFleb x y.
Definition lt (x y : float) : bool := SFltb x y.
Definition ge (x y : float) : bool := SFleb y x.
Definition gt (x y : float) : bool := SFltb y x.
Definition eqb (x y : float) : bool := SFeqb x y.

(** The builtin [max(a, b)]: [b] only when it is greater. *)
Definition max (a b : float) : float := if gt b a then b else a.

Definition is_nan (x : float) : bool :=
  match x with S754_nan => true | _ => false end.
Definition is_inf (x : float) : bool :=
  match x with S754_infinity _ => true | _ => false end.

(** The integer [z] rounded to the nearest float, ties to even. *)
Definition of_Z (z : Z) : float := binary_normalize prec emax z 0 false.

(** [a / b] correctly rounded, for positive integers. *)
Definition ratio (neg : bool) (a b : positive) : float :=
  let '(q, e, l) := SFdiv_core_binary prec emax (Zpos a) 0 (Zpos b) 0 in
  binary_round_aux prec emax neg q e l.

(** [float(z)] for an [int]. *)
Definition of_int (z : Z) : outcome float :=
  let x := of_Z z in
  if is_inf x then Raise (OverflowError "int too large to convert to float")
  else Ok x.

(** [a / b] for two [int]s: true division, correctly rounded. *)
Definition int_true_div (a b : Z) : outcome float :=
  match b, a with
  | Z0, _ => Raise (ZeroDivisionError "division by zero")
  | _, Z0 => Ok (S754_zero (b <? 0))
  | Zpos q, Zpos p => 
      let x := ratio false p q in
      if is_inf x then Raise (OverflowError "integer division result too large for a float") else Ok x
  | Zpos q, Zneg p | Zneg q, Zpos p =>
      let x := ratio true p q in
      if is_inf x then Raise (OverflowError "integer division result too large for a float") else Ok x
  | Zneg q, Zneg p =>
      let x := ratio false p q in
      if is_inf x then Raise (OverflowError "integer division result too large for a float") else Ok x
  end.

(** The decimal [m * 10^e] ([m >= 0]) rounded to the nearest float. *)
Definition of_decimal (neg : bool) (m : Z) (e : Z) : float :=
  match m with
  | Zpos p =>
      if 0 <=? e then binary_round prec emax neg (p * Z.to_pos (10 ^ e)) 0
      else ratio neg p (Z.to_pos (10 ^ (- e)))
  | _ => S754_zero neg
  end.

(** *** [float(s)] for a [str]

    Characters above U+007F are first turned into a space (white space) or a
    question mark; underscores between digits are dropped; white space of
    the C locale is trimmed; what is left must be a decimal literal or one of
    [inf], [infinity], [nan], with an optional sign. *)

Definition to_ascii (c : ascii) : ascii :=
  if (ord c <? 128)%N then c
  else if isspace c then " "%char else "?"%char.

Fixpoint map_string (f : ascii -> ascii) (s : string) : string :=
  match s with
  | EmptyString => EmptyString
  | String c r => String (f c) (map_string f r)
  end.

(** Underscores: only after a digit, only before a digit. [prev] is the
    character before, as it stood in the text. *)
Fixpoint drop_underscores (prev : option ascii) (s : string) : option string :=
  match s with
  | EmptyString =>
      match prev with
      | Some c => if is_char 95 c then None else Some EmptyString
      | None => Some EmptyString
      end
  | String c r =>
      let prev_digit := match prev with Some p => isdigit p | None => false end in
      let prev_under := match prev with Some p => is_char 95 p | None => false end in
      if is_char 95 c then
        if prev_digit then drop_underscores (Some c) r else None
      else if prev_under && negb (isdigit c) then None
      else match drop_underscores (Some c) r with
           | Some r' => Some (String c r')
           | None => None
           end
  end.

Definition c_isspace (c : ascii) : bool := in_range 9 13 c || is_char 32 c.

Fixpoint c_lstrip (s : string) : string :=
  match s with
  | String c r => if c_isspace c then c_lstrip r else s
  | EmptyString => EmptyString
  end.

Fixpoint c_rstrip (s : string) : string :=
  match s with
  | EmptyString => EmptyString
  | String c r =>
      match c_rstrip r with
      | EmptyString => if c_isspace c then EmptyString else String c EmptyString
      | r' => String c r'
      end
  end.

(** A run of decimal digits: the number read so far, how many digits, the rest. *)
Fixpoint digits (acc : Z) (n : nat) (s : string) : Z * nat * string :=
  match s with
  | String c r =>
      if isdigit c then digits (10 * acc + (Z.of_N (ord c) - 48)) (S n) r
      else (acc, n, s)
  | EmptyString => (acc, n, s)
  end.

Definition sign_of (s : string) : bool * string :=
  match s with
  | String c r =>
      if is_char 45 c then (true, r)
      else if is_char 43 c then (false, r)
      else (false, s)
  | EmptyString => (false, s)
  end.

(** The exponent part: empty, or [e] or [E], a sign, digits, up to the end. *)
Definition exponent (s : string) : option Z :=
  match s with
  | EmptyString => Some 0
  | String c r =>
      if is_char 101 c || is_char 69 c then
        let '(neg, r1) := sign_of r in
        match digits 0 0 r1 with
        | (_, O, _) => None
        | (v, S _, EmptyString) => Some (if neg then - v else v)
        | (_, S _, String _ _) => None
        end
      else None
  end.

Definition parse_number (s : string) : option float :=
  let '(neg, r) := sign_of s in
  let w := lower r in
  if String.eqb w "inf" || String.eqb w "infinity" then Some (S754_infinity neg)
  else if String.eqb w "nan" then Some S754_nan
  else
    let '(ip, n1, r1) := digits 0 0 r in
    let '(m, n2, r2) :=
      match r1 with
      | String c t => if is_char 46 c then digits ip 0 t else (ip, O, r1)
      | EmptyString => (ip, O, r1)
      end in
    match (n1 + n2)%nat with
    | O => None
    | S _ =>
        match exponent r2 with
        | Some e => Some (of_decimal neg m (e - Z.of_nat n2))
        | None => None
        end
    end.

(** [float(s)]; [None] stands for the [ValueError]. *)
Definition parse (s : string) : option float :=
  let a := map_string to_ascii s in
  match (if has_char "_" a then drop_underscores None a else Some a) with
  | Some b =>
      match c_rstrip (c_lstrip b) with
      | EmptyString => None
      | t => parse_number t
      end
  | None => None
  end.

Definition of_string (s : string) : outcome float :=
  match parse s with
  | Some x => Ok x
  | None => Raise (ValueError (append "could not convert string to float: " (repr s)))
  end.

(** *** Floats as text *)

(** [num / den] rounded to the nearest integer, ties to even ([den > 0]). *)
Definition div_half_even (num den : Z) : Z :=
  let q := num / den in
  let r := num mod den in
  match 2 * r ?= den with
  | Lt => q
  | Gt => q + 1
  | Eq => if Z.even q then q else q + 1
  end.

(** [m * 2^e * 10^d] rounded to an integer. *)
Definition scaled (m : positive) (e : Z) (d : Z) : Z :=
  if 0 <=? e then Zpos m * 2 ^ e * 10 ^ d
  else div_half_even (Zpos m * 10 ^ d) (2 ^ (- e)).

Fixpoint zeros (n : nat) : string :=
  match n with
  | O => EmptyString
  | S k => String "0" (zeros k)
  end.

(** The digits of [n >= 0] with a decimal point [d] places from the right. *)
Definition point (d : nat) (n : Z) : string :=
  let s := PyStr.of_Z n in
  let s := append (zeros (S d - String.length s)) s in
  match d with
  | O => s
  | S _ =>
      let k := (String.length s - d)%nat in
      append (substring 0 k s) (String "." (substring k d s))
  end.

Definition sign_text (neg : bool) : string := if neg then "-" else EmptyString.

(** [format(x, '.df')], the [{x:.df}] of an f-string. *)
Definition format_f (d : nat) (x : float) : string :=
  match x with
  | S754_nan => "nan"
  | S754_infinity s => append (sign_text s) "inf"
  | S754_zero s => append (sign_text s) (point d 0)
  | S754_finite s m e => append (sign_text s) (point d (scaled m e (Z.of_nat d)))
  end.

(** The same float: same class, sign, mantissa and exponent. *)
Definition same (x y : float) : bool :=
  match x, y with
  | S754_nan, S754_nan => true
  | S754_infinity a, S754_infinity b => Bool.eqb a b
  | S754_zero a, S754_zero b => Bool.eqb a b
  | S754_finite a m e, S754_finite b n f => Bool.eqb a b && (m =? n)%positive && (e =? f)
  | _, _ => false
  end.

(** For [0 < a < b]: how many zeros follow the decimal point of [a / b]. *)
Fixpoint leading_zeros (fuel : nat) (a b : Z) : Z :=
  match fuel with
  | O => 0
  | S f => if b <=? 10 * a then 0 else 1 + leading_zeros f (10 * a) b
  end.

(** The least [k] with [a / b < 10^k]. *)
Definition decimal_point (a b : Z) : Z :=
  if b <=? a then Z.of_nat (String.length (PyStr.of_Z (a / b)))
  else - leading_zeros 400 a b.

(** The [p]-digit decimal nearest to [a / b] among those that [float] reads
    back as [x], if there is one, the even one of two that are as near;
    [k] is [decimal_point a b]. *)
Definition digits_at (x : float) (a b k : Z) (p : Z) : option Z :=
  let num := if k <=? p then a * 10 ^ (p - k) else a in
  let den := if k <=? p then b else b * 10 ^ (k - p) in
  let lo := num / den in
  let r := num mod den in
  let back d := same (of_decimal false d (k - p)) x in
  if r =? 0 then (if back lo then Some lo else None)
  else
    match back lo, back (lo + 1) with
    | true, true => Some (div_half_even num den)
    | true, false => Some lo
    | false, true => Some (lo + 1)
    | false, false => None
    end.

(** The shortest digit string that reads back as [x], with its length. *)
Fixpoint shortest (fuel : nat) (x : float) (a b k : Z) (p : Z) : Z * Z :=
  match fuel with
  | O => (0, p)
  | S f =>
      match digits_at x a b k p with
      | Some d => (d, p)
      | None => shortest f x a b k (p + 1)
      end
  end.

Fixpoint strip_zeros (fuel : nat) (d : Z) : Z :=
  match fuel with
  | O => d
  | S f => if (d mod 10 =? 0) && negb (d =? 0) then strip_zeros f (d / 10) else d
  end.

(** Digits [ds] read as 0.ds * 10^k, laid out as [repr] does. *)
Definition layout (ds : string) (k : Z) : string :=
  let n := Z.of_nat (String.length ds) in
  if (k <=? -4) || (16 <? k) then
    let ex := k - 1 in
    let et := PyStr.of_Z (Z.abs ex) in
    let frac :=
      match ds with
      | String c EmptyString => String c EmptyString
      | String c r => String c (String "." r)
      | EmptyString => EmptyString
      end in
    append frac
      (String "e" (append (if ex <? 0 then "-" else "+")
                     (append (zeros (2 - String.length et)) et)))
  else if k <=? 0 then append "0." (append (zeros (Z.to_nat (- k))) ds)
  else if n <=? k then append ds (append (zeros (Z.to_nat (k - n))) ".0")
  else append (substring 0 (Z.to_nat k) ds)
         (String "." (substring (Z.to_nat k) (Z.to_nat (n - k)) ds)).

(** [repr(x)], which is also [str(x)] and the [{x}] of an f-string. *)
Definition repr (x : float) : string :=
  match x with
  | S754_nan => "nan"
  | S754_infinity s => append (sign_text s) "inf"
  | S754_zero s => append (sign_text s) "0.0"
  | S754_finite s m e =>
      let a := if 0 <=? e then Zpos m * 2 ^ e else Zpos m in
      let b := if 0 <=? e then 1 else 2 ^ (- e) in
      let k := decimal_point a b in
      let '(d, p) := shortest 17 (S754_finite false m e) a b k 1 in
      let full := PyStr.of_Z d in
      let ds := PyStr.of_Z (strip_zeros 20 d) in
      append (sign_text s) (layout ds (k + (Z.of_nat (String.length full) - p)))
  end.

End PyFloat.

(** ** The values the graders receive and return *)

Local Open Scope string_scope.

Abbreviation float := PyFloat.float.

(** An answer as it reaches a grader: [None], a [str], an [int] or a [float]. *)
Inductive pyval : Type :=
| PNone
| PStr (s : string)
| PInt (z : Z)
| PFloat (x : float).

(** The argument of [grade_list]: one value, or a list of items. *)
Inductive answer : Type :=
| Scalar (v : pyval)
| Items (l : list pyval).

(** Truth value: what [not v] negates. *)
Definition truthy (v : pyval) : bool :=
  match v with
  | PNone => false
  | PStr s => negb (PyStr.is_empty s)
  | PInt z => negb (z =? 0)%Z
  | PFloat x => negb (PyFloat.eqb x (S754_zero false))
  end.

Definition truthy_answer (a : answer) : bool :=
  match a with
  | Scalar v => truthy v
  | Items l => match l with [] => false | _ :: _ => true end
  end.

(** [str(v)], also the [{v}] of an f-string. *)
Definition str (v : pyval) : string :=
  match v with
  | PNone => "None"
  | PStr s => s
  | PInt z => PyStr.of_Z z
  | PFloat x => PyFloat.repr x
  end.

(** [str(v)] returns: CPython converts an [int] of at most
    [sys.int_info.default_max_str_digits] = 4300 digits and raises a
    [ValueError] for a longer one; every other value has a text. *)
Definition max_str_digits : Z := 4300.

Definition str_succeeds (v : pyval) : bool :=
  match v with
  | PInt z => (Z.abs z <? 10 ^ max_str_digits)%Z
  | _ => true
  end.

Definition type_name (v : pyval) : string :=
  match v with
  | PNone => "NoneType"
  | PStr _ => "str"
  | PInt _ => "int"
  | PFloat _ => "float"
  end.

(** [float(v)] *)
Definition to_float (v : pyval) : outcome float :=
  match v with
  | PNone =>
      Raise (TypeError "float() argument must be a string or a real number, not 'NoneType'")
  | PStr s => PyFloat.of_string s
  | PInt z => PyFloat.of_int z
  | PFloat x => Ok x
  end.

(** [v > 0] *)
Definition gt_zero (v : pyval) : outcome bool :=
  match v with
  | PInt z => Ok (0 <? z)%Z
  | PFloat x => Ok (PyFloat.gt x (S754_zero false))
  | _ =>
      Raise (TypeError ("'>' not supported between instances of '" +:+ type_name v
                        +:+ "' and 'int'"))
  end.

(** [v / 100] *)
Definition div_100 (v : pyval) : outcome float :=
  match v with
  | PInt z => PyFloat.int_true_div z 100
  | PFloat x => Ok (PyFloat.div x (PyFloat.of_Z 100))
  | _ =>
      Raise (TypeError ("unsupported operand type(s) for /: '" +:+ type_name v
                        +:+ "' and 'int'"))
  end.

(** The result dictionary of a grader; a key a grader does not set is [None].
    [difference] is set to a float or to Python's [None] by [grade_numerical]. *)
Record GradingResult : Type := mkResult {
  is_correct : bool;
  score_percentage : float;
  explanation : string;
  matched_items : option (list string);
  difference : option (option float);
  confidence : option float
}.

(** The dictionary [answer_range]; a key that is absent is [None]. *)
Record AnswerRange : Type := mkRange {
  range_min : option pyval;
  range_max : option pyval;
  range_tolerance_percent : option pyval
}.

(** [if answer_range:] holds for a dictionary with a key. *)
Definition range_given (r : option AnswerRange) : option AnswerRange :=
  match r with
  | Some (mkRange None None None) => None
  | _ => r
  end.

(** ** The similarity oracle and the standard output *)

Record Request : Type := mkRequest {
  model : string;
  system_message : string;
  user_message : string
}.

(** [oracle n q] is what the [n]-th call of [ollama.chat] answers to [q]: the
    text [response["message"]["content"]], or the exception of a call that
    fails or answers without that field. *)
Record World : Type := mkWorld {
  oracle : nat -> Request -> outcome string;
  calls : nat;
  stdout : list string
}.

Definition ollama_chat (q : Request) (w : World) : outcome string * World :=
  (oracle w (calls w) q, mkWorld (oracle w) (S (calls w)) (stdout w)).

Definition print (line : string) (w : World) : World :=
  mkWorld (oracle w) (calls w) (stdout w ++ [line]).


(** ** The graders *)

Definition f_0_0 : float := S754_zero false.
Definition f_1_0 : float := PyFloat.of_Z 1.
Definition f_100_0 : float := PyFloat.of_Z 100.
Definition f_0_0001 : float := PyFloat.of_decimal false 1 (-4).
Definition f_1e_9 : float := PyFloat.of_decimal false 1 (-9).
(** The default [semantic_threshold=0.7]. *)
Definition f_0_7 : float := PyFloat.of_decimal false 7 (-1).

Definition grade_one_word (student_answer correct_answer : pyval)
    (case_sensitive : bool) : GradingResult :=
  if negb (truthy student_answer) || negb (truthy correct_answer) then
    mkResult false f_0_0 "Missing answer" None None None
  else
    let student_ans := PyStr.strip (str student_answer) in
    let correct_ans := PyStr.strip (str correct_answer) in
    let student_ans := if negb case_sensitive then PyStr.lower student_ans else student_ans in
    let correct_ans := if negb case_sensitive then PyStr.lower correct_ans else correct_ans in
    let is_correct := String.eqb student_ans correct_ans in
    mkResult is_correct
      (if is_correct then f_100_0 else f_0_0)
      (if is_correct then "Exact match" else "Not an exact match")
      None None None.

(** *** List answers *)

Import Re.

Definition nl (c : ascii) : bool := PyStr.is_char 10 c.
(** The class "[-•*]" on the characters of the model. *)
Definition bullet (c : ascii) : bool := PyStr.is_char 45 c || PyStr.is_char 42 c.
Definition dot (c : ascii) : bool := PyStr.is_char 46 c.
(** [.] matches all but the newline. *)
Definition any (c : ascii) : bool := negb (PyStr.is_char 10 c).
(** The class "[,;\t\n]" *)
Definition delimiter (c : ascii) : bool :=
  PyStr.is_char 44 c || PyStr.is_char 59 c || PyStr.is_char 9 c || PyStr.is_char 10 c.

(** The pattern "\n\s*[-•*]\s+" *)
Definition re_bullet_line : regex :=
  cat [Chr nl; Star PyStr.isspace; Chr bullet; Plus PyStr.isspace].
(** The pattern "\n\s*\d+\.\s+" *)
Definition re_numbered_line : regex :=
  cat [Chr nl; Star PyStr.isspace; Plus PyStr.isdigit; Chr dot; Plus PyStr.isspace].
(** The pattern "\s*(?:[-•*]|\d+\.)\s+" followed by group 1, ".*" *)
Definition re_list_item : regex :=
  cat [Star PyStr.isspace; Alt (Chr bullet) (cat [Plus PyStr.isdigit; Chr dot]);
       Plus PyStr.isspace; Group (Star any)].
(** The pattern "[,;\t\n]+" *)
Definition re_delimiters : regex := Plus delimiter.
(** The pattern "^\s*[-•*]\s+|^\s*\d+\.\s+" *)
Definition re_marker : regex :=
  Alt (cat [Bol; Star PyStr.isspace; Chr bullet; Plus PyStr.isspace])
      (cat [Bol; Star PyStr.isspace; Plus PyStr.isdigit; Chr dot; Plus PyStr.isspace]).
(** The pattern "\s+" *)
Definition re_spaces : regex := Plus PyStr.isspace.

Definition is_some {A : Type} (o : option A) : bool :=
  match o with Some _ => true | None => false end.

(** The loop over the lines of a bulleted or numbered answer. *)
Definition list_line_item (line : string) : option string :=
  match re_match re_list_item line with
  | Some m =>
      match group1 line m with
      | Some g => if PyStr.is_empty (PyStr.strip g) then None else Some (PyStr.strip g)
      | None => None
      end
  | None => None
  end.

(** The loop over the pieces of a delimited answer. *)
Definition clean_item (case_sensitive : bool) (item : string) : option string :=
  let clean := re_sub re_marker "" item in
  let clean := PyStr.strip (re_sub re_spaces " " clean) in
  if PyStr.is_empty clean then None
  else Some (if negb case_sensitive then PyStr.lower clean else clean).

Definition _normalize_list_items (answer : string) (case_sensitive : bool) : list string :=
  let split_items := omap (clean_item case_sensitive) (re_split re_delimiters answer) in
  if is_some (re_search re_bullet_line (String PyStr.newline answer))
     || is_some (re_search re_numbered_line (String PyStr.newline answer))
  then
    match omap list_line_item (PyStr.split_char PyStr.newline answer) with
    | [] => split_items
    | items => if negb case_sensitive then map PyStr.lower items else items
    end
  else split_items.

(** [dp[i][j]] *)
Definition cell (dp : list (list nat)) (i j : nat) : nat :=
  default 0 (row ← dp !! i; row !! j).

(** The body of the inner loop: the assignment to [dp[i][j]]. *)
Definition lcs_cell (list1 list2 : list string) (i : nat) (dp : list (list nat))
    (j : nat) : list (list nat) :=
  let v :=
    if bool_decide (list1 !! (i - 1) = list2 !! (j - 1))
    then cell dp (i - 1) (j - 1) + 1
    else Nat.max (cell dp (i - 1) j) (cell dp i (j - 1)) in
  alter (<[j := v]>) i dp.

Definition lcs_row (list1 list2 : list string) (dp : list (list nat)) (i : nat)
  : list (list nat) :=
  foldl (lcs_cell list1 list2 i) dp (seq 1 (length list2)).

Definition _longest_common_subsequence (list1 list2 : list string) : nat :=
  let m := length list1 in
  let n := length list2 in
  let dp := replicate (m + 1) (replicate (n + 1) 0) in
  let dp := foldl (lcs_row list1 list2) dp (seq 1 m) in
  cell dp m n.

(** One side of [grade_list] as a list of tokens. Iterating over an [int] or
    a [float] raises. *)
Definition tokens (a : answer) (case_sensitive : bool) : outcome (list string) :=
  match a with
  | Scalar (PStr s) => Ok (_normalize_list_items s case_sensitive)
  | Items l =>
      let l := map (fun item => PyStr.strip (str item)) l in
      Ok (if negb case_sensitive then map PyStr.lower l else l)
  | Scalar v => Raise (TypeError ("'" +:+ type_name v +:+ "' object is not iterable"))
  end.

(** [list(s)] for a set [s] of tokens. Python leaves the order in which a
    set is enumerated open. In CPython it is the order of the slots of a hash
    table: it depends on the hashes of the items, which for a [str] change
    with the hash seed of the process ([PYTHONHASHSEED]), and on the order in
    which the items went into the set. A [SetOrder] is what one process does:
    the listing of a set that was built from the lists [built_from]. *)
Definition SetOrder : Type := list (list string) -> gset string -> list string.

(** The order of stdpp's [elements]. *)
Definition element_order : SetOrder := fun _ s => elements s.

(** [grade_list] in a process that enumerates sets in the order [order]. *)
Definition grade_list_in (order : SetOrder) (student_answer correct_answer : answer)
    (order_sensitive partial_matching case_sensitive : bool) : outcome GradingResult :=
  if negb (truthy_answer student_answer) || negb (truthy_answer correct_answer) then
    Ok (mkResult false f_0_0 "Missing answer" (Some []) None None)
  else
    student_list ← tokens student_answer case_sensitive;
    correct_list ← tokens correct_answer case_sensitive;
    if order_sensitive then
      if bool_decide (student_list = correct_list) then
        Ok (mkResult true f_100_0 "Perfect match with correct order"
              (Some student_list) None None)
      else if partial_matching then
        let lcs_length := _longest_common_subsequence student_list correct_list in
        ratio ← PyFloat.int_true_div (Z.of_nat lcs_length) (Z.of_nat (length correct_list));
        let score := PyFloat.mul ratio f_100_0 in
        Ok (mkResult (PyFloat.ge score f_100_0) score
              ("Partial match: " +:+ PyFloat.format_f 1 score +:+ "% (order matters)")
              (Some []) None None)
      else
        Ok (mkResult false f_0_0 "Lists don't match (order matters)" (Some []) None None)
    else
      let student_set : gset string := list_to_set student_list in
      let correct_set : gset string := list_to_set correct_list in
      let matched := student_set ∩ correct_set in
      let matched_list := order [student_list; correct_list] matched in
      if bool_decide (student_set = correct_set) then
        Ok (mkResult true f_100_0 "Perfect match (all items present)"
              (Some matched_list) None None)
      else if partial_matching then
        ratio ← PyFloat.int_true_div (Z.of_nat (size matched)) (Z.of_nat (size correct_set));
        let score := PyFloat.mul ratio f_100_0 in
        Ok (mkResult (PyFloat.ge score f_100_0) score
              ("Partial match: " +:+ PyStr.of_nat (size matched) +:+ "/"
               +:+ PyStr.of_nat (size correct_set) +:+ " items correct")
              (Some matched_list) None None)
      else
        Ok (mkResult false f_0_0 "Lists don't match" (Some matched_list) None None).

(** [grade_list] in a process that enumerates a set in the order of
    [elements]. The order shows in [matched_items] only: [is_correct],
    [score_percentage] and [explanation] are those of every process. *)
Definition grade_list (student_answer correct_answer : answer)
    (order_sensitive partial_matching case_sensitive : bool) : outcome GradingResult :=
  grade_list_in element_order student_answer correct_answer
    order_sensitive partial_matching case_sensitive.

(** *** Numerical answers *)

(** [str(v).replace(',', '').replace(' ', '')] *)
Definition clean_number (v : pyval) : string :=
  PyStr.remove_char " " (PyStr.remove_char "," (str v)).

(** The bounds and the tolerance of the range-based check: from
    [answer_range] when it is given, else unbounded with the scalar
    [tolerance_percent]. *)
Definition resolve_range (tolerance_percent : pyval) (answer_range : option AnswerRange)
  : outcome (float * float * pyval) :=
  match range_given answer_range with
  | Some r =>
      min_val ← to_float (default (PFloat PyFloat.neg_inf) (range_min r));
      max_val ← to_float (default (PFloat PyFloat.inf) (range_max r));
      Ok (min_val, max_val, default tolerance_percent (range_tolerance_percent r))
  | None => Ok (PyFloat.neg_inf, PyFloat.inf, tolerance_percent)
  end.

(** The [try] block of [grade_numerical]. *)
Definition grade_numerical_try (student_answer correct_answer : pyval)
    (range_sensitive : bool) (tolerance_percent : pyval)
    (answer_range : option AnswerRange) : outcome GradingResult :=
  let student_str := clean_number student_answer in
  let correct_str := clean_number correct_answer in
  if String.eqb student_str correct_str then
    Ok (mkResult true f_100_0 ("Exact match: " +:+ student_str) None (Some (Some f_0_0)) None)
  else
    student_value ← PyFloat.of_string student_str;
    correct_value ← PyFloat.of_string correct_str;
    let difference := PyFloat.abs (PyFloat.sub student_value correct_value) in
    if range_sensitive then
      '(min_val, max_val, tolerance) ← resolve_range tolerance_percent answer_range;
      if PyFloat.le min_val student_value && PyFloat.le student_value max_val then
        Ok (mkResult true f_100_0
              ("Value " +:+ PyFloat.repr student_value +:+ " is within range ["
               +:+ PyFloat.repr min_val +:+ ", " +:+ PyFloat.repr max_val +:+ "]")
              None (Some (Some difference)) None)
      else
        let outside :=
          mkResult false f_0_0
            ("Value " +:+ PyFloat.repr student_value +:+ " outside acceptable range/tolerance")
            None (Some (Some difference)) None in
        positive_tolerance ← gt_zero tolerance;
        if (positive_tolerance : bool) then
          fraction ← div_100 tolerance;
          let tolerance_amount := PyFloat.mul correct_value fraction in
          let lower_bound := PyFloat.sub correct_value tolerance_amount in
          let upper_bound := PyFloat.add correct_value tolerance_amount in
          if PyFloat.le lower_bound student_value && PyFloat.le student_value upper_bound then
            Ok (mkResult true f_100_0
                  ("Within " +:+ str tolerance +:+ "% tolerance of "
                   +:+ PyFloat.repr correct_value)
                  None (Some (Some difference)) None)
          else Ok outside
        else Ok outside
    else
      let epsilon := PyFloat.max f_0_0001 (PyFloat.mul (PyFloat.abs correct_value) f_1e_9) in
      if PyFloat.le difference epsilon then
        Ok (mkResult true f_100_0
              ("Exact numerical match: " +:+ PyFloat.repr student_value)
              None (Some (Some difference)) None)
      else
        Ok (mkResult false f_0_0
              ("Expected " +:+ PyFloat.repr correct_value +:+ ", got "
               +:+ PyFloat.repr student_value +:+ " (diff: "
               +:+ PyFloat.repr difference +:+ ")")
              None (Some (Some difference)) None).

(** [except (ValueError, TypeError) as e]: any other exception passes. *)
Definition grade_numerical (student_answer correct_answer : pyval)
    (range_sensitive : bool) (tolerance_percent : pyval)
    (answer_range : option AnswerRange) : outcome GradingResult :=
  match grade_numerical_try student_answer correct_answer range_sensitive
          tolerance_percent answer_range with
  | Raise (ValueError _ as e) | Raise (TypeError _ as e) =>
      Ok (mkResult false f_0_0 ("Invalid numerical format: " +:+ exn_message e)
            None (Some None) None)
  | r => r
  end.

(** *** Short phrases *)

Definition is_0_or_1 (c : ascii) : bool := PyStr.is_char 48 c || PyStr.is_char 49 c.
Definition is_0 (c : ascii) : bool := PyStr.is_char 48 c.

(** The pattern "\b([01](?:\.\d+)?|0\.\d+)\b" *)
Definition re_confidence : regex :=
  cat [WordB;
       Group (Alt (cat [Chr is_0_or_1; Opt (cat [Chr dot; Plus PyStr.isdigit])])
                  (cat [Chr is_0; Chr dot; Plus PyStr.isdigit]));
       WordB].

Definition system_prompt : string :=
  "You are an AI assistant for grading papers. Your task is to compare student answers with correct answers.".

Definition nn : string := String PyStr.newline (String PyStr.newline EmptyString).

Definition user_prompt (student_answer correct_answer : pyval)
    (question_text : option string) : string :=
  match question_text with
  | Some (String _ _ as q) =>
      "Question: " +:+ q +:+ nn +:+ "Student Answer: " +:+ str student_answer +:+ nn
      +:+ "Correct Answer: " +:+ str correct_answer +:+ nn
      +:+ "Are these answers semantically equivalent? Return a number from 0 to 1 representing the confidence score, where 1 means identical meaning and 0 means completely different meaning. Only return the number."
  | _ =>
      "Student Answer: " +:+ str student_answer +:+ nn
      +:+ "Correct Answer: " +:+ str correct_answer +:+ nn
      +:+ "Return a number from 0 to 1 representing how similar these answers are in meaning, where 1 means identical and 0 means completely different. Only return the number."
  end.

(** The arguments of [ollama.chat]: the model and the two messages. *)
Definition request_for (student_answer correct_answer : pyval)
    (question_text : option string) : Request :=
  mkRequest "qwen2.5:1.5b" system_prompt
    (user_prompt student_answer correct_answer question_text).

(** What follows the call of the oracle inside the [try] block. *)
Definition read_confidence (reply : string) (threshold : float) : outcome (bool * float) :=
  let content := PyStr.strip reply in
  confidence ←
    match re_search re_confidence content with
    | Some m => PyFloat.of_string (default "" (group1 content m))
    | None => Ok (if PyStr.contains "true" (PyStr.lower content) then f_1_0 else f_0_0)
    end;
  Ok (PyFloat.ge confidence threshold, confidence).

Definition _check_meaning_with_ollama (student_answer correct_answer : pyval)
    (question_text : option string) (threshold : float) (w : World)
  : (bool * float) * World :=
  let q := request_for student_answer correct_answer question_text in
  let '(response, w) := ollama_chat q w in
  match (reply ← response; read_confidence reply threshold) with
  | Ok r => (r, w)
  | Raise e => ((false, f_0_0), print ("Error connecting to Ollama: " +:+ exn_message e) w)
  end.

Definition grade_short_phrase (student_answer correct_answer : pyval)
    (question_text : option string) (semantic_threshold : float) (w : World)
  : GradingResult * World :=
  if negb (truthy student_answer) || negb (truthy correct_answer) then
    (mkResult false f_0_0 "Missing answer" None None (Some f_0_0), w)
  else
    let '((is_match, confidence), w) :=
      _check_meaning_with_ollama student_answer correct_answer question_text
        semantic_threshold w in
    (mkResult is_match (PyFloat.mul confidence f_100_0)
       ("Semantic similarity: " +:+ PyFloat.format_f 2 confidence)
       None None (Some confidence), w).

(** *** A call of a grading method on a simulator

    A call runs in a process, which enumerates sets in its [order], on a
    simulator [self] and in a world [w]. *)





(** ** Definitions used by the statements below *)

(** A world whose oracle gives the same answer to every call. *)
Definition constant_oracle (answer : outcome string) : World :=
  mkWorld (fun _ _ => answer) 0 [].

(** The tolerance band in the words of the design document: [student_value]
    lies within [correct_value] plus or minus [correct_value * fraction],
    bounds included, whichever of the two ends is the lower one. *)
Definition spec_within_tolerance_band (student_value correct_value fraction : float) : bool :=
  let amount := PyFloat.mul correct_value fraction in
  let a := PyFloat.sub correct_value amount in
  let b := PyFloat.add correct_value amount in
  (PyFloat.le a student_value && PyFloat.le student_value b)
  || (PyFloat.le b student_value && PyFloat.le student_value a).

(** The exact matcher in the words of the design document: "both strings
    are trimmed; if [case_sensitive] is false both are case-folded. Result is
    correct iff the normalized strings are identical." The words are stated
    on code points, with the tables of the Unicode standard up to U+00FF and
    without the functions of [PyStr]. *)
Definition code_points (s : string) : list N := N_of_ascii <$> list_ascii_of_string s.

(** The whitespace characters up to U+00FF: the characters of Unicode's
    [White_Space] and the four separators U+001C to U+001F. *)
Definition spec_whitespace : list N :=
  [9; 10; 11; 12; 13; 28; 29; 30; 31; 32; 133; 160]%N.

(** [t] is [s] trimmed: [s] is [t] between two runs of whitespace, and [t]
    neither begins nor ends with whitespace. *)
Definition spec_trimmed (s t : list N) : Prop :=
  exists before after,
    s = (before ++ t ++ after)%list
    /\ Forall (fun c => c ∈ spec_whitespace) before
    /\ Forall (fun c => c ∈ spec_whitespace) after
    /\ (forall c, head t = Some c -> c ∉ spec_whitespace)
    /\ (forall c, last t = Some c -> c ∉ spec_whitespace).

(** The capital letters up to U+00FF, each with its small letter: A to Z,
    and the accented capitals U+00C0 to U+00DE but for the sign U+00D7. *)
Definition spec_small_letter : list (N * N) :=
  [(65, 97); (66, 98); (67, 99); (68, 100); (69, 101); (70, 102); (71, 103);
   (72, 104); (73, 105); (74, 106); (75, 107); (76, 108); (77, 109); (78, 110);
   (79, 111); (80, 112); (81, 113); (82, 114); (83, 115); (84, 116); (85, 117);
   (86, 118); (87, 119); (88, 120); (89, 121); (90, 122);
   (192, 224); (193, 225); (194, 226); (195, 227); (196, 228); (197, 229);
   (198, 230); (199, 231); (200, 232); (201, 233); (202, 234); (203, 235);
   (204, 236); (205, 237); (206, 238); (207, 239); (208, 240); (209, 241);
   (210, 242); (211, 243); (212, 244); (213, 245); (214, 246);
   (216, 248); (217, 249); (218, 250); (219, 251); (220, 252); (221, 253);
   (222, 254)]%N.

(** Lower case: every capital letter gives way to its small letter. *)
Definition spec_lowercase_char (c : N) : N :=
  match List.find (fun letter => (letter.1 =? c)%N) spec_small_letter with
  | Some letter => letter.2
  | None => c
  end.

Definition spec_lowercase (s : list N) : list N := spec_lowercase_char <$> s.

(** Case folding (Unicode's full case folding up to U+00FF): lower case,
    but the sharp s U+00DF folds to "ss" and the micro sign U+00B5 to the
    Greek small letter mu U+03BC. *)
Definition spec_casefold_char (c : N) : list N :=
  if (c =? 223)%N then [115; 115]%N
  else if (c =? 181)%N then [956]%N
  else [spec_lowercase_char c].

Definition spec_casefold (s : list N) : list N := s ≫= spec_casefold_char.

(** The German word for street, in capitals and with its sharp s. *)
Definition STRASSE : string := "STRASSE".
Definition strasse : string := "stra" +:+ String (ascii_of_N 223) "e".

(** A set order lists every item of a set, once. *)
Definition lawful (order : SetOrder) : Prop :=
  forall built_from s, order built_from s ≡ₚ elements s.

(** Another order than [element_order]: the other way round. *)
Definition reverse_order : SetOrder := fun _ s => reverse (elements s).

(** Two results that differ at most in the order of [matched_items]. *)
Definition same_but_order (r1 r2 : GradingResult) : Prop :=
  is_correct r1 = is_correct r2
  /\ score_percentage r1 = score_percentage r2
  /\ explanation r1 = explanation r2
  /\ difference r1 = difference r2
  /\ confidence r1 = confidence r2
  /\ match matched_items r1, matched_items r2 with
     | Some l1, Some l2 => l1 ≡ₚ l2
     | None, None => True
     | _, _ => False
     end.

(** Two calls that raise the same exception, or return two such results. *)
Definition same_outcome_but_order (o1 o2 : outcome GradingResult) : Prop :=
  match o1, o2 with
  | Ok r1, Ok r2 => same_but_order r1 r2
  | Raise e1, Raise e2 => e1 = e2
  | _, _ => False
  end.

(** [str(item)] returns for every item of a list answer; [grade_list] does
    not convert an answer that is not a list. *)
Definition items_str_succeed (a : answer) : bool :=
  match a with
  | Items l => forallb str_succeeds l
  | Scalar _ => true
  end.

(** An invariant of the table of [_longest_common_subsequence]: no entry
    exceeds its column index. *)
Definition column_bounded (dp : list (list nat)) : Prop :=
  forall i j, cell dp i j <= j.

(** [0 <= x <= 100] *)
Definition score_in_range (x : float) : bool :=
  PyFloat.le f_0_0 x && PyFloat.le x f_100_0.

(** Every result of an outcome has its score within [0, 100]. *)
Definition scores_in_range (o : outcome GradingResult) : Prop :=
  forall r, o = Ok r -> score_in_range (score_percentage r) = true.

(** ** The harnesses that grade whole submissions

    [test_grading_speed.py] and [test_throughput.py] build a submission
    and its marking scheme and grade the one against the other. A
    submission is a dictionary from question numbers to answers, iterated
    in the order of insertion: a list of items. A marking scheme is only
    looked up: a finite map. An entry of a marking scheme is a record: the
    keys every entry has are fields, the keys read with [get] are optional.
    Answers are scalars, as the harnesses build them. *)

Definition dict (V : Type) : Type := list (Z * V).

(** [d[k] = v]: the value of a key that is present is replaced where it is,
    a new key goes to the end. *)
Fixpoint dict_set {V : Type} (k : Z) (v : V) (d : dict V) : dict V :=
  match d with
  | [] => [(k, v)]
  | (k', v') :: r => if (k' =? k)%Z then (k, v) :: r else (k', v') :: dict_set k v r
  end.

(** [range(start, stop)] *)
Definition range (start stop : Z) : list Z := seqZ start (stop - start).

Record Scheme : Type := mkScheme {
  scheme_question_text : option string;
  scheme_answer_text : pyval;
  scheme_marks : Z;
  scheme_grading_type : string;
  scheme_case_sensitive : option bool;
  scheme_range_sensitive : option bool;
  scheme_tolerance_percent : option pyval;
  scheme_range : option AnswerRange;
  scheme_order_sensitive : option bool;
  scheme_partial_matching : option bool
}.

(** A running total: an [int], or a [float] once partial credit was added. *)
Inductive number : Type :=
| NInt (z : Z)
| NFloat (x : float).

(** [total + marks] for an [int] [marks] *)
Definition add_int (total : number) (marks : Z) : outcome number :=
  match total with
  | NInt a => Ok (NInt (a + marks))
  | NFloat x => y ← PyFloat.of_int marks; Ok (NFloat (PyFloat.add x y))
  end.

(** [total + credit] for a [float] [credit] *)
Definition add_float (total : number) (credit : float) : outcome number :=
  match total with
  | NInt a => x ← PyFloat.of_int a; Ok (NFloat (PyFloat.add x credit))
  | NFloat x => Ok (NFloat (PyFloat.add x credit))
  end.

(** [marks * (score_percentage / 100)] *)
Definition partial_credit (marks : Z) (score_percentage : float) : outcome float :=
  let fraction := PyFloat.div score_percentage f_100_0 in
  m ← PyFloat.of_int marks;
  Ok (PyFloat.mul m fraction).

Module GradingSpeedTest.

(** The answer and the marking-scheme entry that the loop of
    [create_test_submission] stores for question [i]. *)
Definition test_question (i : Z) : pyval * Scheme :=
  let question_text := Some ("Question " +:+ PyStr.of_Z i) in
  if (i mod 4 =? 1)%Z then
    (PStr "Paris",
     mkScheme question_text (PStr "Paris") 10 "one-word"
       (Some false) None None None None None)
  else if (i mod 4 =? 2)%Z then
    (PStr "42",
     mkScheme question_text (PStr "42") 10 "numerical"
       None (Some false) None None None None)
  else if (i mod 4 =? 3)%Z then
    (PStr "Red, Blue, Yellow",
     mkScheme question_text (PStr "Red, Blue, Yellow") 10 "list"
       (Some false) None None None (Some false) (Some true))
  else
    (PStr "Answer text",
     mkScheme question_text (PStr "Answer text") 10 "one-word"
       (Some false) None None None None None).

Definition create_test_submission (num_questions : Z) : dict pyval * gmap Z Scheme :=
  foldl (fun '(submission, marking_scheme) i =>
           let '(student_answer, scheme) := test_question i in
           (dict_set i student_answer submission, <[i := scheme]> marking_scheme))
        ([], ∅) (range 1 (num_questions + 1)).

(** The grading of one question: what the body of the loop of
    [grade_submission] adds to [total_score]. *)
Definition grade_answer (scheme : Scheme) (student_answer : pyval) (total_score : number)
  : outcome number :=
  let correct_answer := scheme_answer_text scheme in
  let grading_type := scheme_grading_type scheme in
  let marks := scheme_marks scheme in
  if String.eqb grading_type "one-word" then
    let result :=
      grade_one_word student_answer correct_answer
        (default false (scheme_case_sensitive scheme)) in
    if is_correct result then add_int total_score marks else Ok total_score
  else if String.eqb grading_type "numerical" then
    result ← grade_numerical student_answer correct_answer
                (default false (scheme_range_sensitive scheme))
                (default (PInt 0) (scheme_tolerance_percent scheme))
                (scheme_range scheme);
    if is_correct result then add_int total_score marks else Ok total_score
  else if String.eqb grading_type "list" then
    result ← grade_list (Scalar student_answer) (Scalar correct_answer)
                (default false (scheme_order_sensitive scheme))
                (default true (scheme_partial_matching scheme))
                (default false (scheme_case_sensitive scheme));
    if is_correct result then add_int total_score marks
    else if PyFloat.gt (score_percentage result) f_0_0 then
      credit ← partial_credit marks (score_percentage result);
      add_float total_score credit
    else Ok total_score
  else Ok total_score.

(** The body of the loop of [grade_submission] on the state
    [(total_score, max_score)]. *)
Definition grade_step (marking_scheme : gmap Z Scheme) (state : outcome (number * Z))
    (item : Z * pyval) : outcome (number * Z) :=
  '(total_score, max_score) ← state;
  let '(q_id, student_answer) := item in
  match marking_scheme !! q_id with
  | None => Ok (total_score, max_score)
  | Some scheme =>
      let max_score := (max_score + scheme_marks scheme)%Z in
      total_score ← grade_answer scheme student_answer total_score;
      Ok (total_score, max_score)
  end.

Definition grade_submission (submission : dict pyval) (marking_scheme : gmap Z Scheme)
  : outcome (number * Z) :=
  foldl (grade_step marking_scheme) (Ok (NInt 0, 0%Z)) submission.

End GradingSpeedTest.

Module ThroughputTest.

Definition create_submission (submission_id : pyval) (num_questions : Z)
  : dict pyval * gmap Z Scheme :=
  foldl (fun '(submission, marking_scheme) i =>
           (dict_set i
              (PStr ("Answer " +:+ PyStr.of_Z i +:+ " for submission " +:+ str submission_id))
              submission,
            <[i := mkScheme None (PStr ("Answer " +:+ PyStr.of_Z i)) 10 "one-word"
                     (Some false) None None None None None]> marking_scheme))
        ([], ∅) (range 1 (num_questions + 1)).

(** The dictionary that [grade_one_submission] returns. *)
Record SubmissionResult : Type := mkSubmissionResult {
  result_submission_id : pyval;
  result_success : bool;
  result_time : float;
  result_score : Z;
  result_max_score : Z
}.

(** The body of the loop on the state [(total_score, max_score)]. *)
Definition grade_step (marking_scheme : gmap Z Scheme) (state : Z * Z) (item : Z * pyval)
  : Z * Z :=
  let '(total_score, max_score) := state in
  let '(q_id, student_answer) := item in
  match marking_scheme !! q_id with
  | None => (total_score, max_score)
  | Some scheme =>
      let correct_answer := scheme_answer_text scheme in
      let marks := scheme_marks scheme in
      let max_score := (max_score + marks)%Z in
      let result :=
        grade_one_word student_answer correct_answer
          (default false (scheme_case_sensitive scheme)) in
      if is_correct result then ((total_score + marks)%Z, max_score)
      else (total_score, max_score)
  end.

(** [grade_one_submission]; the two readings of the clock are arguments.
    Nothing in the [try] block raises on these data, so the result is the
    one of the block. *)
Definition grade_one_submission (submission_id : pyval) (submission : dict pyval)
    (marking_scheme : gmap Z Scheme) (start_time end_time : float) : SubmissionResult :=
  let '(total_score, max_score) := foldl (grade_step marking_scheme) (0%Z, 0%Z) submission in
  let elapsed := PyFloat.sub end_time start_time in
  mkSubmissionResult submission_id true elapsed total_score max_score.

End ThroughputTest.

(** ** Definitions used by the further statements *)

(** [k] is the length of a longest common subsequence of [l1] and [l2]:
    some common subsequence has that length, and none is longer. *)
Definition is_lcs_length (k : nat) (l1 l2 : list string) : Prop :=
  (exists l, sublist l l1 /\ sublist l l2 /\ length l = k)
  /\ forall l, sublist l l1 -> sublist l l2 -> length l <= k.

(** The table [dp] has [m + 1] rows of [n + 1] entries. *)
Definition table_shape (m n : nat) (dp : list (list nat)) : Prop :=
  length dp = m + 1 /\ Forall (fun row => length row = n + 1) dp.

(** The invariant of the two loops of [_longest_common_subsequence]: row 0,
    column 0, the rows before [i] and row [i] up to column [j] hold the
    lengths for the prefixes they stand for. *)
Definition table_filled (list1 list2 : list string) (i j : nat) (dp : list (list nat)) : Prop :=
  forall i' j', i' <= length list1 -> j' <= length list2 ->
    i' = 0 \/ j' = 0 \/ i' < i \/ (i' = i /\ j' <= j) ->
    is_lcs_length (cell dp i' j') (take i' list1) (take j' list2).

(** Every result of an outcome satisfies [P]; every exception it raises
    satisfies [Q]. *)
Definition returns_only (P : GradingResult -> Prop) (o : outcome GradingResult) : Prop :=
  forall r, o = Ok r -> P r.

Definition raises_only {A : Type} (Q : exn -> Prop) (o : outcome A) : Prop :=
  forall e, o = Raise e -> Q e.

(** [is_correct] says the same as [score_percentage == 100.0]. *)
Definition correct_is_full_score (r : GradingResult) : Prop :=
  is_correct r = PyFloat.eqb (score_percentage r) f_100_0.

Definition is_TypeError (e : exn) : Prop := exists msg, e = TypeError msg.
Definition is_ValueError (e : exn) : Prop := exists msg, e = ValueError msg.
Definition is_ZeroDivisionError (e : exn) : Prop := exists msg, e = ZeroDivisionError msg.
Definition is_OverflowError (e : exn) : Prop := exists msg, e = OverflowError msg.

(** [iter(a)] succeeds: a [str] or a list. *)
Definition iterable (a : answer) : bool :=
  match a with
  | Scalar (PStr _) | Items _ => true
  | Scalar _ => false
  end.

(** What the conversions of [grade_numerical] may raise. *)
Definition numerical_exn (e : exn) : Prop :=
  is_ValueError e \/ is_TypeError e \/ is_OverflowError e.

(** A string of whitespace only. *)
Fixpoint blank (s : string) : bool :=
  match s with
  | EmptyString => true
  | String c r => PyStr.isspace c && blank r
  end.

(** A token in normal form: trimmed, and in lower case unless the
    comparison is case sensitive. *)
Definition normal_token (case_sensitive : bool) (t : string) : Prop :=
  PyStr.strip t = t /\ (case_sensitive = false -> PyStr.lower t = t).

(** The marks of the questions of a submission that a marking scheme has. *)
Definition answered_marks (submission : dict pyval) (marking_scheme : gmap Z Scheme) : Z :=
  foldr (fun item total =>
           match marking_scheme !! item.1 with
           | Some scheme => (scheme_marks scheme + total)%Z
           | None => total
           end) 0%Z submission.

(** [sep.join(items)] *)
Fixpoint join (sep : string) (items : list string) : string :=
  match items with
  | [] => ""
  | [item] => item
  | item :: rest => item +:+ sep +:+ join sep rest
  end.

(** Every character of [s] is in the class [cls]. *)
Fixpoint all_chars (cls : ascii -> bool) (s : string) : bool :=
  match s with
  | EmptyString => true
  | String c r => cls c && all_chars cls r
  end.

(** A plain item: not empty, without whitespace, comma or semicolon. *)
Definition plain_char (c : ascii) : bool := negb (PyStr.isspace c) && negb (delimiter c).

Definition plain_item (s : string) : Prop := s <> "" /\ all_chars plain_char s = true.

(** Whitespace that is not a delimiter: no tab, no newline. *)
Definition padding_char (c : ascii) : bool := PyStr.isspace c && negb (delimiter c).

(** No bullet and no dot of [s] is followed by whitespace. *)
Fixpoint tight (s : string) : bool :=
  match s with
  | String c (String c' _ as r) => negb ((bullet c || dot c) && PyStr.isspace c') && tight r
  | _ => true
  end.

(** A float that is [+0.0], or positive and normal with an exponent of at
    least [lo]; and the value of such a float in units of 2^-1000. *)
Definition normal_from (lo : Z) (x : float) : Prop :=
  match x with
  | S754_zero false => True
  | S754_finite false m e => (2 ^ 52 <= Zpos m < 2 ^ 53 /\ lo <= e <= 970)%Z
  | _ => False
  end.

Definition units (x : float) : Z :=
  match x with
  | S754_finite false m e => (Zpos m * 2 ^ (e + 1000))%Z
  | _ => 0%Z
  end.

(** A score that earns partial credit: a positive normal float below 100. *)
Definition credit_shape (x : float) : Prop :=
  exists m e, x = S754_finite false m e
    /\ (2 ^ 52 <= Zpos m < 2 ^ 53 /\ -110 <= e
        /\ (e < -46 \/ (e = -46 /\ Zpos m < 7036874417766400)))%Z.

(** The invariant of the loop of [grade_submission]: the total is between
    0 and [max_score]. *)
Definition within (total : number) (max_score : Z) : Prop :=
  match total with
  | NInt a => (0 <= a <= max_score)%Z
  | NFloat x => normal_from (-160) x /\ (units x <= max_score * 2 ^ 1000)%Z
  end.

(** What the bound on a total needs of an entry of a marking scheme: marks
    that are not negative, and a correct answer of fewer than 2^53 tokens. *)
Definition sound_scheme (scheme : Scheme) : Prop :=
  (0 <= scheme_marks scheme)%Z
  /\ match tokens (Scalar (scheme_answer_text scheme))
             (default false (scheme_case_sensitive scheme)) with
     | Ok cl => (Z.of_nat (length cl) < 2 ^ 53)%Z
     | Raise _ => True
     end.

(** ** Rounding facts about binary64 *)

Section FloatFacts.
Local Open Scope Z_scope.

Lemma digits2_pos_bounds (p : positive) :
  2 ^ (Zpos (digits2_pos p) - 1) <= Zpos p < 2 ^ Zpos (digits2_pos p).
Proof.
  induction p as [p IH | p IH |]; cbn [digits2_pos].
  - rewrite Pos2Z.inj_succ.
    replace (Z.succ (Zpos (digits2_pos p)) - 1) with (Z.succ (Zpos (digits2_pos p) - 1)) by lia.
    rewrite !Z.pow_succ_r by lia. lia.
  - rewrite Pos2Z.inj_succ.
    replace (Z.succ (Zpos (digits2_pos p)) - 1) with (Z.succ (Zpos (digits2_pos p) - 1)) by lia.
    rewrite !Z.pow_succ_r by lia. lia.
  - cbn. lia.
Qed.

(** A number between two consecutive powers of two has that many digits. *)
Lemma digits2_pos_unique (p : positive) (d : Z) :
  2 ^ (d - 1) <= Zpos p < 2 ^ d -> Zpos (digits2_pos p) = d.
Proof.
  intros [Hlo Hhi]. pose proof (digits2_pos_bounds p) as [Blo Bhi].
  set (c := Zpos (digits2_pos p)) in *.
  assert (0 < d).
  { destruct (Z.lt_trichotomy d 0) as [Hd | [Hd | Hd]]; [| | done].
    - rewrite (Z.pow_neg_r 2 d) in Hhi by done. lia.
    - subst d. change (2 ^ 0) with 1 in Hhi. lia. }
  destruct (Z.lt_trichotomy c d) as [Hc | [Hc | Hc]]; [| done |].
  - assert (2 ^ c <= 2 ^ (d - 1)) by (apply Z.pow_le_mono_r; lia). lia.
  - assert (2 ^ d <= 2 ^ (c - 1)) by (apply Z.pow_le_mono_r; lia). lia.
Qed.

(** [iter_pos] is plain iteration. *)
Lemma iter_pos_nat {A : Type} (f : A -> A) (p : positive) (x : A) :
  SpecFloat.iter_pos f p x = Nat.iter (Pos.to_nat p) f x.
Proof.
  revert x. induction p as [p IH | p IH |]; intros x; cbn [SpecFloat.iter_pos].
  - rewrite !IH, Pos2Nat.inj_xI.
    replace (S (2 * Pos.to_nat p))%nat with (Pos.to_nat p + (Pos.to_nat p + 1))%nat by lia.
    rewrite !Nat.iter_add. reflexivity.
  - rewrite !IH, Pos2Nat.inj_xO.
    replace (2 * Pos.to_nat p)%nat with (Pos.to_nat p + Pos.to_nat p)%nat by lia.
    rewrite Nat.iter_add. reflexivity.
  - reflexivity.
Qed.

Lemma shr_1_nonneg (m : Z) (r s : bool) :
  0 <= m ->
  shr_1 (Build_shr_record m r s) = Build_shr_record (m / 2) (Z.odd m) (r || s).
Proof.
  intros Hm. destruct m as [| p | p]; [reflexivity | | lia].
  destruct p as [p | p |]; cbn [shr_1 Z.odd].
  - f_equal. rewrite Pos2Z.inj_xI. apply Z.div_unique with 1; lia.
  - f_equal. rewrite Pos2Z.inj_xO. apply Z.div_unique with 0; lia.
  - reflexivity.
Qed.

(** After [n >= 1] shifts: the quotient, and the last bit shifted out. *)
Lemma shr_iter (n : nat) (m : Z) (r s : bool) :
  0 <= m ->
  let mrs := Nat.iter (S n) shr_1 (Build_shr_record m r s) in
  shr_m mrs = m / 2 ^ Z.of_nat (S n) /\ shr_r mrs = Z.odd (m / 2 ^ Z.of_nat n).
Proof.
  intros Hm. revert r s. induction n as [| n IH]; intros r s.
  - cbn [Nat.iter]. rewrite shr_1_nonneg by done. cbn [shr_m shr_r].
    change (2 ^ Z.of_nat 1) with 2. change (2 ^ Z.of_nat 0) with 1. rewrite Z.div_1_r. done.
  - cbn zeta. rewrite Nat.iter_succ. specialize (IH r s). cbn zeta in IH.
    destruct (Nat.iter (S n) shr_1 (Build_shr_record m r s)) as [m' r' s'].
    cbn [shr_m shr_r] in IH. destruct IH as [-> ->].
    assert (0 < 2 ^ Z.of_nat (S n)) by (apply Z.pow_pos_nonneg; lia).
    rewrite shr_1_nonneg by (apply Z.div_pos; lia). cbn [shr_m shr_r]. split; [| done].
    rewrite Z.div_div by lia.
    replace (Z.of_nat (S (S n))) with (Z.succ (Z.of_nat (S n))) by lia.
    rewrite Z.pow_succ_r by lia. f_equal. lia.
Qed.

Lemma round_nearest_even_le (mrs : shr_record) :
  let m1 := round_nearest_even (shr_m mrs) (loc_of_shr_record mrs) in
  shr_m mrs <= m1 <= shr_m mrs + 1 /\ (shr_r mrs = false -> m1 = shr_m mrs).
Proof.
  destruct mrs as [m [] []]; cbn; try destruct (Z.even m); split; try lia; intros; congruence.
Qed.

Lemma shr_zero (mrs : shr_record) (e : Z) : shr mrs e 0 = (mrs, e).
Proof. reflexivity. Qed.

Lemma shr_pos (mx : Z) (lx : location) (ex sh : Z) :
  0 <= mx -> 0 < sh ->
  exists mrs, shr (shr_record_of_loc mx lx) ex sh = (mrs, ex + sh)
    /\ shr_m mrs = mx / 2 ^ sh /\ shr_r mrs = Z.odd (mx / 2 ^ (sh - 1)).
Proof.
  intros Hm Hsh. destruct sh as [| p | p]; try lia.
  unfold shr. rewrite iter_pos_nat.
  destruct (Pos2Nat.is_succ p) as [n Hn]. rewrite Hn.
  assert (shr_record_of_loc mx lx
          = Build_shr_record mx (shr_r (shr_record_of_loc mx lx)) (shr_s (shr_record_of_loc mx lx))) as ->
    by (destruct lx as [| []]; reflexivity).
  destruct (shr_iter n mx (shr_r (shr_record_of_loc mx lx)) (shr_s (shr_record_of_loc mx lx)) Hm) as [H1 H2].
  eexists. split; [reflexivity |].
  replace (Z.pos p) with (Z.of_nat (S n)) by lia.
  replace (Z.of_nat (S n) - 1) with (Z.of_nat n) by lia. done.
Qed.

Lemma fexp_normal (x : Z) : -1074 <= x - 53 -> fexp 53 1024 x = x - 53.
Proof. intros H. unfold fexp, emin. lia. Qed.

(** Rounding a mantissa of [53 + sh] digits in the normal range: the result is
    the shifted mantissa or its successor, and it moves up only on a set
    round bit. *)
Lemma binary_round_aux_normal (s : bool) (mx ex : Z) (lx : location) (sh : Z) (mrs : shr_record) :
  0 < mx -> Zdigits2 mx = 53 + sh -> 0 <= sh -> -1074 <= ex + sh -> ex + sh < 971 ->
  shr (shr_record_of_loc mx lx) ex sh = (mrs, ex + sh) ->
  shr_m mrs = mx / 2 ^ sh ->
  exists m e, binary_round_aux 53 1024 s mx ex lx = S754_finite s m e
    /\ 2 ^ 52 <= Zpos m < 2 ^ 53
    /\ ((e = ex + sh /\ shr_m mrs <= Zpos m <= shr_m mrs + 1
         /\ (shr_r mrs = false -> Zpos m = shr_m mrs))
        \/ (e = ex + sh + 1 /\ Zpos m = 2 ^ 52 /\ shr_m mrs = 2 ^ 53 - 1 /\ shr_r mrs = true)).
Proof.
  intros Hpos Hd Hsh Hlo Hhi Hshr Hm.
  assert (2 ^ 52 <= shr_m mrs < 2 ^ 53) as Hrange.
  { rewrite Hm. destruct mx as [| p | p]; try lia. cbn [Zdigits2] in Hd.
    pose proof (digits2_pos_bounds p) as HB. rewrite Hd in HB.
    replace (53 + sh - 1) with (52 + sh) in HB by lia.
    rewrite !Z.pow_add_r in HB by lia.
    assert (0 < 2 ^ sh) by (apply Z.pow_pos_nonneg; lia).
    split; [apply Z.div_le_lower_bound | apply Z.div_lt_upper_bound]; lia. }
  unfold binary_round_aux, shr_fexp.
  rewrite Hd, fexp_normal by lia.
  replace (53 + sh + ex - 53 - ex) with sh by lia. rewrite Hshr.
  pose proof (round_nearest_even_le mrs) as [[Hr1 Hr2] Hr3]. cbn zeta in Hr1, Hr2, Hr3.
  set (m1 := round_nearest_even (shr_m mrs) (loc_of_shr_record mrs)) in *.
  destruct (Z.eq_dec m1 (2 ^ 53)) as [Heq | Hne].
  - rewrite Heq. change (Zdigits2 (2 ^ 53)) with 54. rewrite fexp_normal by lia.
    replace (54 + (ex + sh) - 53 - (ex + sh)) with 1 by lia.
    cbn [shr_record_of_loc shr SpecFloat.iter_pos]. rewrite shr_1_nonneg by lia.
    cbn [shr_m]. change (2 ^ 53 / 2) with (Zpos (2 ^ 52)).
    cbv iota beta. destruct (Z.leb_spec (ex + sh + 1) (1024 - 53)); [| lia].
    exists (2 ^ 52)%positive, (ex + sh + 1). split; [reflexivity |]. split; [lia |].
    right. repeat split; try lia.
    destruct (shr_r mrs); [done |]. specialize (Hr3 eq_refl). lia.
  - assert (2 ^ 52 <= m1 < 2 ^ 53) as Hm1 by lia.
    destruct m1 as [| p1 | p1] eqn:Em1; try lia.
    cbn [Zdigits2]. rewrite (digits2_pos_unique p1 53) by (change (53 - 1) with 52; lia).
    rewrite fexp_normal by lia.
    replace (53 + (ex + sh) - 53 - (ex + sh)) with 0 by lia.
    rewrite shr_zero. cbn [shr_record_of_loc shr_m].
    destruct (Z.leb_spec (ex + sh) (1024 - 53)); [| lia].
    exists p1, (ex + sh). split; [reflexivity |]. split; [lia |].
    left. repeat split; try lia. intros Hf. specialize (Hr3 Hf). lia.
Qed.

Lemma new_location_exact (n r : Z) : new_location n r = loc_Exact -> r = 0.
Proof.
  unfold new_location, new_location_even, new_location_odd.
  destruct (Z.even n); destruct (Z.eqb_spec r 0); congruence.
Qed.

Lemma div_eucl_div_mod (a b : Z) : IntDef.Z.div_eucl a b = (a / b, a mod b).
Proof.
  unfold Z.div, Z.modulo. change Z.div_eucl with IntDef.Z.div_eucl.
  destruct (IntDef.Z.div_eucl a b). reflexivity.
Qed.

Lemma ratio_below_one (k n : positive) :
  Zpos k < Zpos n < 2 ^ 53 ->
  exists m e, PyFloat.ratio false k n = S754_finite false m e
    /\ 2 ^ 52 <= Zpos m < 2 ^ 53 /\ -106 <= e <= -53.
Proof.
  intros [Hkn Hn].
  pose proof (digits2_pos_bounds k) as [Hk1 Hk2].
  pose proof (digits2_pos_bounds n) as [Hn1 Hn2].
  set (dk := Zpos (digits2_pos k)) in *. set (dn := Zpos (digits2_pos n)) in *.
  assert (1 <= dk) by (subst dk; lia).
  assert (dk <= dn).
  { assert (2 ^ (dk - 1) < 2 ^ dn) as HH by lia. apply Z.pow_lt_mono_r_iff in HH; lia. }
  assert (dn <= 53).
  { assert (2 ^ (dn - 1) < 2 ^ 53) as HH by lia. apply Z.pow_lt_mono_r_iff in HH; lia. }
  unfold PyFloat.ratio, SFdiv_core_binary, PyFloat.prec, PyFloat.emax.
  cbn [Zdigits2]. fold dk dn.
  replace (dk + 0 - (dn + 0)) with (dk - dn) by lia.
  rewrite fexp_normal by lia.
  replace (Z.min (dk - dn - 53) (0 - 0)) with (dk - dn - 53) by lia.
  replace (0 - 0 - (dk - dn - 53)) with (53 + dn - dk) by lia.
  set (s := 53 + dn - dk) in *.
  assert (match s with 0 => Z.pos k | Z.pos _ => Z.pos k ≪ s | Z.neg _ => 0 end
          = Zpos k * 2 ^ s) as ->.
  { destruct s eqn:Es; try lia. rewrite Z.shiftl_mul_pow2 by lia. reflexivity. }
  rewrite div_eucl_div_mod.
  set (T := 2 ^ s) in *.
  set (A := 2 ^ (dk - 1)) in *. set (B := 2 ^ (dn - 1)) in *.
  assert (0 < A) by (apply Z.pow_pos_nonneg; lia).
  assert (0 < B) by (apply Z.pow_pos_nonneg; lia).
  assert (2 ^ dk = 2 * A) as EA.
  { subst A. replace dk with (Z.succ (dk - 1)) at 1 by lia. apply Z.pow_succ_r. lia. }
  assert (2 ^ dn = 2 * B) as EB.
  { subst B. replace dn with (Z.succ (dn - 1)) at 1 by lia. apply Z.pow_succ_r. lia. }
  assert (T * A = 2 ^ 53 * B) as ET.
  { subst T A B s. rewrite <- !Z.pow_add_r by lia. f_equal. lia. }
  assert (2 ^ 53 <= T) as HT.
  { subst T. apply Z.pow_le_mono_r; lia. }
  rewrite EA in Hk2. rewrite EB in Hn2.
  pose proof (Z.div_mod (Zpos k * T) (Zpos n) ltac:(lia)) as Hdm.
  pose proof (Z.mod_pos_bound (Zpos k * T) (Zpos n) ltac:(lia)) as Hr.
  set (q := Zpos k * T / Zpos n) in *. set (r := (Zpos k * T) mod Zpos n) in *.
  change (2 ^ 53) with 9007199254740992 in *.
  assert (4503599627370496 <= q) as Hq1.
  { subst q. apply Z.div_le_lower_bound; [lia |]. nia. }
  assert (q < 18014398509481984) as Hq2.
  { subst q. apply Z.div_lt_upper_bound; [lia |]. nia. }
  assert (q <= T - 2) as Hq3 by nia.
  assert (0 < q) as Hq0 by lia.
  clearbody q r.
  destruct (Z.lt_ge_cases q 9007199254740992) as [Hsmall | Hbig].
  - (* 53 digits: no shift *)
    destruct (binary_round_aux_normal false q (dk - dn - 53) (new_location (Z.pos n) r) 0
                (shr_record_of_loc q (new_location (Z.pos n) r)))
      as (m & e & Hres & Hm & Hcases); try lia.
    + destruct q as [| pq | pq]; try lia. cbn [Zdigits2].
      rewrite (digits2_pos_unique pq 53); [reflexivity |].
      change (2 ^ (53 - 1)) with 4503599627370496. change (2 ^ 53) with 9007199254740992. lia.
    + rewrite shr_zero. f_equal. lia.
    + change (2 ^ 0) with 1. rewrite Z.div_1_r. destruct (new_location (Z.pos n) r) as [| []]; reflexivity.
    + exists m, e. split; [exact Hres |]. split; [exact Hm |].
      destruct Hcases as [(-> & _) | (-> & _ & Hc & _)]; [lia |].
      assert (shr_m (shr_record_of_loc q (new_location (Z.pos n) r)) = q) as Eq
        by (destruct (new_location (Z.pos n) r) as [| []]; reflexivity).
      rewrite Eq in Hc. change (2 ^ 53) with 9007199254740992 in Hc.
      destruct (Z.eq_dec dk dn) as [Edk | Ndk]; [| lia].
      exfalso. subst T s. replace (53 + dn - dk) with 53 in Hq3 by lia.
      change (2 ^ 53) with 9007199254740992 in Hq3. lia.
  - (* 54 digits: one shift *)
    destruct (shr_pos q (new_location (Z.pos n) r) (dk - dn - 53) 1) as (mrs & Hshr & Hm0 & Hr0); try lia.
    destruct (binary_round_aux_normal false q (dk - dn - 53) (new_location (Z.pos n) r) 1 mrs)
      as (m & e & Hres & Hm & Hcases); try lia.
    + destruct q as [| pq | pq]; try lia. cbn [Zdigits2].
      rewrite (digits2_pos_unique pq 54); [reflexivity |].
      change (2 ^ (54 - 1)) with 9007199254740992. change (2 ^ 54) with 18014398509481984. lia.
    + exact Hshr.
    + assert (dk <> dn) as Ndk.
      { intros Edk. subst T s. replace (53 + dn - dk) with 53 in Hq3 by lia.
        change (2 ^ 53) with 9007199254740992 in Hq3. lia. }
      exists m, e. split; [exact Hres |]. split; [exact Hm |].
      destruct Hcases as [(-> & _) | (-> & _ & Hc & Hrb)]; [lia |].
      destruct (Z.eq_dec (dk + 1) dn) as [Edk | Ndk1]; [| lia].
      exfalso. subst T s. replace (53 + dn - dk) with 54 in Hq3 by lia.
      change (2 ^ 54) with 18014398509481984 in Hq3.
      rewrite Hm0 in Hc. change (2 ^ 1) with 2 in Hc. change (2 ^ 53) with 9007199254740992 in Hc.
      pose proof (Z.div_mod q 2 ltac:(lia)) as Hq4.
      pose proof (Z.mod_pos_bound q 2 ltac:(lia)) as Hq5.
      assert (q = 18014398509481982) as Eq by lia.
      rewrite Hr0, Eq in Hrb. discriminate Hrb.
Qed.

Lemma f_100_0_eq : f_100_0 = S754_finite false 7036874417766400 (-46).
Proof. vm_compute. reflexivity. Qed.

Lemma SFcompare_positive (m1 : positive) (e1 : Z) (m2 : positive) (e2 : Z) :
  SFcompare (S754_finite false m1 e1) (S754_finite false m2 e2)
  = Some (match Z.compare e1 e2 with
          | Lt => Lt
          | Gt => Gt
          | Eq => Pos.compare m1 m2
          end).
Proof. reflexivity. Qed.

(** A positive float below 100, read off its exponent and mantissa. *)
Lemma below_100 (m1 : positive) (e1 : Z) :
  e1 < -46 \/ (e1 = -46 /\ Zpos m1 < 7036874417766400) ->
  PyFloat.ge (S754_finite false m1 e1) f_100_0 = false
  /\ PyFloat.le (S754_finite false m1 e1) f_100_0 = true
  /\ PyFloat.le f_0_0 (S754_finite false m1 e1) = true.
Proof.
  intros Hlt. rewrite f_100_0_eq. unfold PyFloat.ge, PyFloat.le, SFleb.
  rewrite !SFcompare_positive.
  split; [| split; [| reflexivity]].
  - destruct (Z.compare_spec (-46) e1) as [He | He | He]; [| lia | reflexivity].
    destruct (Pos.compare_spec 7036874417766400 m1) as [Hc | Hc | Hc];
      [lia | lia | reflexivity].
  - destruct (Z.compare_spec e1 (-46)) as [He | He | He]; [| reflexivity | lia].
    destruct (Pos.compare_spec m1 7036874417766400) as [Hc | Hc | Hc];
      [lia | reflexivity | lia].
Qed.

Lemma mul_100_below (m : positive) (e : Z) :
  2 ^ 52 <= Zpos m < 2 ^ 53 -> -106 <= e <= -53 ->
  exists m1 e1, PyFloat.mul (S754_finite false m e) f_100_0 = S754_finite false m1 e1
    /\ (e1 < -46 \/ (e1 = -46 /\ Zpos m1 < 7036874417766400)).
Proof.
  intros Hm He. rewrite f_100_0_eq.
  change (2 ^ 52) with 4503599627370496 in Hm. change (2 ^ 53) with 9007199254740992 in Hm.
  unfold PyFloat.mul, SFmul, PyFloat.prec, PyFloat.emax. cbn [xorb].
  assert (Zpos (m * 7036874417766400) = Zpos m * 7036874417766400) as EP
    by apply Pos2Z.inj_mul.
  set (P := Zpos (m * 7036874417766400)) in *. clearbody P.
  destruct P as [| p | p]; try lia.
  destruct (Z.lt_ge_cases (Zpos p) 40564819207303340847894502572032) as [Hsmall | Hbig].
  - destruct (shr_pos (Zpos p) loc_Exact (e + -46) 52) as (mrs & Hshr & Hm0 & Hr0);
      [lia | lia |].
    destruct (binary_round_aux_normal false (Zpos p) (e + -46) loc_Exact 52 mrs)
      as (m1 & e1 & Hres & Hm1 & Hcases); [lia | | lia | lia | lia | exact Hshr | exact Hm0 |].
    + cbn [Zdigits2]. rewrite (digits2_pos_unique p 105); [reflexivity |].
      change (2 ^ (105 - 1)) with 20282409603651670423947251286016.
      change (2 ^ 105) with 40564819207303340847894502572032. lia.
    + exists m1, e1. split; [exact Hres |].
      change (2 ^ 52) with 4503599627370496 in *.
      destruct Hcases as [(-> & _) | (-> & -> & _)]; lia.
  - destruct (shr_pos (Zpos p) loc_Exact (e + -46) 53) as (mrs & Hshr & Hm0 & Hr0);
      [lia | lia |].
    destruct (binary_round_aux_normal false (Zpos p) (e + -46) loc_Exact 53 mrs)
      as (m1 & e1 & Hres & Hm1 & Hcases); [lia | | lia | lia | lia | exact Hshr | exact Hm0 |].
    + cbn [Zdigits2]. rewrite (digits2_pos_unique p 106); [reflexivity |].
      change (2 ^ (106 - 1)) with 40564819207303340847894502572032.
      change (2 ^ 106) with 81129638414606681695789005144064. lia.
    + exists m1, e1. split; [exact Hres |].
      change (2 ^ 52) with 4503599627370496 in *. change (2 ^ 53) with 9007199254740992 in *.
      change (53 - 1) with 52 in Hr0. change (2 ^ 52) with 4503599627370496 in Hr0.
      assert (shr_m mrs <= 7036874417766399) as Hle.
      { rewrite Hm0, EP. apply Z.lt_succ_r. apply Z.div_lt_upper_bound; lia. }
      destruct Hcases as [(-> & Hb & Hrf) | (-> & -> & Hc & _)]; [| lia].
      destruct (Z.eq_dec e (-53)) as [-> | Ne]; [| lia]. right. split; [lia |].
      destruct (Z.eq_dec (shr_m mrs) 7036874417766399) as [Etop | Ntop]; [| lia].
      rewrite Hrf; [lia |]. rewrite Hr0.
      assert (Zpos p / 4503599627370496 = 14073748835532798) as ->; [| reflexivity].
      rewrite Hm0 in Etop.
      pose proof (Z.div_mod (Zpos p) 9007199254740992 ltac:(lia)) as D1.
      pose proof (Z.mod_pos_bound (Zpos p) 9007199254740992 ltac:(lia)) as D2.
      symmetry. apply Z.div_unique with (Zpos p - 4503599627370496 * 14073748835532798); lia.
Qed.

Lemma ratio_diag (p : positive) : PyFloat.ratio false p p = f_1_0.
Proof.
  unfold PyFloat.ratio, SFdiv_core_binary, PyFloat.prec, PyFloat.emax.
  replace (Zdigits2 (Z.pos p) + 0 - (Zdigits2 (Z.pos p) + 0)) with 0 by lia.
  change (Z.min (fexp 53 1024 0) (0 - 0)) with (-53).
  change (0 - 0 - -53) with 53.
  cbv iota beta. rewrite Z.shiftl_mul_pow2 by lia.
  rewrite div_eucl_div_mod, Z.mul_comm, Z.div_mul, Z.mod_mul by lia.
  assert (new_location (Z.pos p) 0 = loc_Exact) as ->.
  { unfold new_location, new_location_even, new_location_odd.
    destruct (Z.even (Z.pos p)); reflexivity. }
  vm_compute. reflexivity.
Qed.

(** The score of a partial match lies between 0 and 100, and reaches 100
    exactly when all is matched. *)
Lemma score_reaches_100 (k n : Z) :
  0 <= k <= n -> 0 < n < 2 ^ 53 ->
  exists x, PyFloat.int_true_div k n = Ok x
    /\ (PyFloat.ge (PyFloat.mul x f_100_0) f_100_0 = true <-> k = n)
    /\ PyFloat.le f_0_0 (PyFloat.mul x f_100_0) = true
    /\ PyFloat.le (PyFloat.mul x f_100_0) f_100_0 = true.
Proof.
  intros Hk Hn. destruct n as [| pn | pn]; try lia.
  destruct k as [| pk | pk]; try lia.
  - exists (S754_zero false). split; [reflexivity |].
    split; [| split; vm_compute; reflexivity]. split; [| lia]. vm_compute. discriminate.
  - destruct (Z.eq_dec (Zpos pk) (Zpos pn)) as [Heq | Hne].
    + injection Heq as ->. exists f_1_0. cbn [PyFloat.int_true_div].
      rewrite ratio_diag. split; [reflexivity |].
      split; [| split; vm_compute; reflexivity]. split; [done |]. intros _.
      vm_compute. reflexivity.
    + destruct (ratio_below_one pk pn) as (m & e & Hr & Hm & He); [lia |].
      exists (S754_finite false m e). cbn [PyFloat.int_true_div].
      rewrite Hr. cbn [PyFloat.is_inf]. split; [reflexivity |].
      destruct (mul_100_below m e Hm He) as (m1 & e1 & -> & Hlt).
      destruct (below_100 m1 e1 Hlt) as (-> & -> & ->).
      split; [| done]. split; [discriminate | done].
Qed.

End FloatFacts.

(** ** The table of the longest common subsequence, sets of tokens *)

Lemma column_bounded_init (m n : nat) : column_bounded (replicate m (replicate n 0)).
Proof.
  intros i j. unfold cell.
  destruct (replicate m (replicate n 0) !! i) as [row |] eqn:Hrow; cbn; [| lia].
  apply lookup_replicate_1 in Hrow as [-> _].
  destruct (replicate n 0 !! j) as [v |] eqn:Hv; cbn; [| lia].
  apply lookup_replicate_1 in Hv as [-> _]. lia.
Qed.

Lemma column_bounded_cell (list1 list2 : list string) (i j : nat) (dp : list (list nat)) :
  1 <= j -> column_bounded dp -> column_bounded (lcs_cell list1 list2 i dp j).
Proof.
  intros Hj Hdp i' j'. unfold lcs_cell.
  set (v := if bool_decide (list1 !! (i - 1) = list2 !! (j - 1))
            then cell dp (i - 1) (j - 1) + 1
            else Nat.max (cell dp (i - 1) j) (cell dp i (j - 1))).
  assert (v <= j) as Hv.
  { subst v. pose proof (Hdp (i - 1) (j - 1)). pose proof (Hdp (i - 1) j).
    pose proof (Hdp i (j - 1)). case_bool_decide; lia. }
  clearbody v. pose proof (Hdp i' j') as Hold. unfold cell in *.
  destruct (decide (i = i')) as [<- | Hi].
  - rewrite list_lookup_alter_eq. destruct (dp !! i) as [row |]; cbn in *; [| lia].
    destruct (decide (j = j')) as [<- | Hjj].
    + destruct (decide (j < length row)) as [Hlt | Hge].
      * rewrite list_lookup_insert_eq by done. cbn. lia.
      * rewrite list_insert_ge by lia. done.
    + rewrite list_lookup_insert_ne by done. done.
  - rewrite list_lookup_alter_ne by done. done.
Qed.

Lemma foldl_invariant {A B : Type} (P : A -> Prop) (Q : B -> Prop) (f : A -> B -> A)
    (l : list B) (a : A) :
  (forall a b, Q b -> P a -> P (f a b)) -> Forall Q l -> P a -> P (foldl f a l).
Proof.
  intros Hf Hl. revert a. induction Hl as [| b l Hb Hl IH]; intros a Ha; cbn; [done |].
  apply IH, Hf; done.
Qed.

Lemma seq_from_1 (n : nat) : Forall (fun j => 1 <= j) (seq 1 n).
Proof. apply Forall_forall. intros j Hj. apply list_elem_of_In, in_seq in Hj. lia. Qed.

Lemma lcs_le_length (list1 list2 : list string) :
  _longest_common_subsequence list1 list2 <= length list2.
Proof.
  unfold _longest_common_subsequence.
  apply (foldl_invariant column_bounded (fun _ => True)).
  - intros dp i _ Hdp. unfold lcs_row.
    apply (foldl_invariant column_bounded (fun j => 1 <= j)); [| apply seq_from_1 | done].
    intros dp' j Hj Hdp'. by apply column_bounded_cell.
  - apply Forall_forall. done.
  - apply column_bounded_init.
Qed.

(** *** Sets of tokens *)

Lemma size_list_to_set_le (l : list string) :
  size (list_to_set l : gset string) <= length l.
Proof.
  induction l as [| x l IH]; cbn [list_to_set length].
  - rewrite size_empty. lia.
  - rewrite size_union_alt, size_singleton.
    pose proof (subseteq_size (list_to_set l ∖ {[x]}) (list_to_set l : gset string)
                  (subseteq_difference_l _ _ _ (reflexivity _))). lia.
Qed.

Lemma size_list_to_set_pos (l : list string) :
  l <> [] -> 0 < size (list_to_set l : gset string).
Proof.
  destruct l as [| x l]; [done |]. intros _.
  assert (size (list_to_set (x :: l) : gset string) <> 0); [| lia].
  apply size_non_empty_iff. intros Hempty.
  apply (not_elem_of_empty (C := gset string) x). rewrite <- Hempty.
  apply elem_of_list_to_set. left.
Qed.

Lemma size_matched (X Y : gset string) :
  size (X ∩ Y) <= size Y /\ (size (X ∩ Y) = size Y <-> Y ⊆ X).
Proof.
  split; [apply subseteq_size, intersection_subseteq_r |]. split.
  - intros Hsz. assert (X ∩ Y = Y) as <-; [| apply intersection_subseteq_l].
    apply set_subseteq_size_eq; [apply intersection_subseteq_r | lia].
  - intros Hsub. f_equal. rewrite (comm_L (∩) X Y). by apply subseteq_intersection_1_L.
Qed.

(** ** The properties of the graders *)

Lemma bind_Ok {A B : Type} (a : A) (f : A -> outcome B) : (Ok a ≫= f) = f a.
Proof. reflexivity. Qed.

Lemma length_pos_Z {A : Type} (l : list A) : l <> [] -> (0 < Z.of_nat (length l))%Z.
Proof. destruct l; [done | cbn; lia]. Qed.

(** C1 (as amended): in the partial-credit branch of [grade_list] (the token
    sequences differ on the order-sensitive path, the token sets differ on
    the other, the correct side has at least one and fewer than 2^53 tokens)
    a result is returned, and [is_correct] is true exactly when every correct
    token is matched: the longest common subsequence is as long as the
    correct sequence, or the correct set is included in the student's set. *)
Theorem C1_partial_credit_correct_iff_all_matched
    (student_answer correct_answer : answer) (order_sensitive case_sensitive : bool)
    (student_list correct_list : list string) :
  truthy_answer student_answer = true ->
  truthy_answer correct_answer = true ->
  tokens student_answer case_sensitive = Ok student_list ->
  tokens correct_answer case_sensitive = Ok correct_list ->
  (if order_sensitive then student_list <> correct_list
   else (list_to_set student_list : gset string) <> list_to_set correct_list) ->
  correct_list <> [] ->
  (Z.of_nat (length correct_list) < 2 ^ 53)%Z ->
  exists r,
    grade_list student_answer correct_answer order_sensitive true case_sensitive = Ok r
    /\ (is_correct r = true <->
        if order_sensitive
        then _longest_common_subsequence student_list correct_list = length correct_list
        else (list_to_set correct_list : gset string) ⊆ list_to_set student_list).
Proof.
  intros Hs Hc Hsl Hcl Hdiff Hne Hlen. unfold grade_list, grade_list_in.
  rewrite Hs, Hc, Hsl, Hcl. cbn [negb orb]. rewrite !bind_Ok.
  destruct order_sensitive.
  - rewrite bool_decide_eq_false_2 by done.
    pose proof (lcs_le_length student_list correct_list) as Hle.
    pose proof (length_pos_Z correct_list Hne) as Hpos.
    destruct (score_reaches_100
                (Z.of_nat (_longest_common_subsequence student_list correct_list))
                (Z.of_nat (length correct_list))) as (x & Hx & Hiff & _); [lia | lia |].
    rewrite Hx, bind_Ok. eexists. split; [reflexivity |].
    cbn [is_correct]. rewrite Hiff. lia.
  - rewrite bool_decide_eq_false_2 by done.
    set (S := list_to_set student_list : gset string) in *.
    set (C := list_to_set correct_list : gset string) in *.
    pose proof (size_matched S C) as [Hle Hsub].
    pose proof (size_list_to_set_le correct_list) as Hsz. fold C in Hsz.
    pose proof (size_list_to_set_pos correct_list Hne) as Hpos. fold C in Hpos.
    destruct (score_reaches_100 (Z.of_nat (size (S ∩ C))) (Z.of_nat (size C)))
      as (x & Hx & Hiff & _); [lia | lia |].
    rewrite Hx, bind_Ok. eexists. split; [reflexivity |].
    cbn [is_correct]. rewrite Hiff, <- Hsub. lia.
Qed.

Lemma C1_witness :
  exists r,
    grade_list (Scalar (PStr "a,b,c")) (Scalar (PStr "a,b")) true true false = Ok r
    /\ (is_correct r = true <->
        _longest_common_subsequence ["a"; "b"; "c"] ["a"; "b"] = length ["a"; "b"]).
Proof.
  apply (C1_partial_credit_correct_iff_all_matched
           (Scalar (PStr "a,b,c")) (Scalar (PStr "a,b")) true false
           ["a"; "b"; "c"] ["a"; "b"]).
  - reflexivity.
  - reflexivity.
  - vm_compute. reflexivity.
  - vm_compute. reflexivity.
  - discriminate.
  - discriminate.
  - vm_compute. reflexivity.
Defined.

(** C1 (as stated) fails: a student who gives every correct token and more
    is graded correct by the partial-credit branch, in both modes. *)
Lemma C1_counterexample :
  tokens (Scalar (PStr "a,b,c")) false = Ok ["a"; "b"; "c"]
  /\ tokens (Scalar (PStr "a,b")) false = Ok ["a"; "b"]
  /\ grade_list (Scalar (PStr "a,b,c")) (Scalar (PStr "a,b")) true true false
     = Ok (mkResult true f_100_0 "Partial match: 100.0% (order matters)" (Some []) None None)
  /\ exists matched,
       grade_list (Scalar (PStr "a,b,c")) (Scalar (PStr "a,b")) false true false
       = Ok (mkResult true f_100_0 "Partial match: 2/2 items correct" (Some matched) None None).
Proof.
  split; [vm_compute; reflexivity |]. split; [vm_compute; reflexivity |].
  split; [vm_compute; reflexivity |]. eexists. vm_compute. reflexivity.
Qed.

(** C2: [grade_list] raises for a correct answer made of delimiters only: the
    division by [len(correct_list)] (by [len(correct_set)] on the other
    path) is a division by zero, and nothing catches it. *)
Theorem C2_grade_list_raises_on_delimiters :
  tokens (Scalar (PStr ",")) false = Ok []
  /\ grade_list (Scalar (PStr "a")) (Scalar (PStr ",")) true true false
     = Raise (ZeroDivisionError "division by zero")
  /\ grade_list (Scalar (PStr "a")) (Scalar (PStr ",")) false true false
     = Raise (ZeroDivisionError "division by zero").
Proof. repeat split; vm_compute; reflexivity. Qed.

(** C3: when the oracle answers "1.5" the pattern of
    [_check_meaning_with_ollama] accepts it as a confidence, and
    [grade_short_phrase] returns a score of 150. *)
Theorem C3_semantic_score_above_100 :
  grade_short_phrase (PStr "Paris") (PStr "paris") None f_0_7 (constant_oracle (Ok "1.5"))
  = (mkResult true (PyFloat.of_Z 150) "Semantic similarity: 1.50" None None
       (Some (PyFloat.of_decimal false 15 (-1))),
     mkWorld (oracle (constant_oracle (Ok "1.5"))) 1 [])
  /\ PyFloat.gt (PyFloat.of_Z 150) f_100_0 = true.
Proof. split; vm_compute; reflexivity. Qed.

(** C4: a side whose normalized token list is empty is not reported as a
    missing answer. Two answers made of delimiters are a perfect match; an
    empty student side against a real correct answer is a partial match of
    0 items; an empty correct side raises (the division of C2). *)
Theorem C4_empty_token_list_is_not_missing :
  tokens (Scalar (PStr ",,,")) false = Ok []
  /\ grade_list (Scalar (PStr ",,,")) (Scalar (PStr ",,,")) false true false
     = Ok (mkResult true f_100_0 "Perfect match (all items present)" (Some []) None None)
  /\ grade_list (Scalar (PStr ",,,")) (Scalar (PStr "a")) false true false
     = Ok (mkResult false f_0_0 "Partial match: 0/1 items correct" (Some []) None None)
  /\ grade_list (Scalar (PStr "a")) (Scalar (PStr ",,,")) false true false
     = Raise (ZeroDivisionError "division by zero").
Proof. repeat split; vm_compute; reflexivity. Qed.

(** C5: for the correct value -100 and a tolerance of 10 percent, the
    answer -95 lies outside the range [0, 10] and within the band from -110
    to -90, and [grade_numerical] rejects it: its lower bound is -90 and its
    upper bound -110. The answer -100.0, equal to the correct value, is
    rejected too. *)
Theorem C5_tolerance_band_of_negative_value :
  grade_numerical (PStr "-95") (PStr "-100") true (PInt 10)
    (Some (mkRange (Some (PInt 0)) (Some (PInt 10)) None))
  = Ok (mkResult false f_0_0 "Value -95.0 outside acceptable range/tolerance"
          None (Some (Some (PyFloat.of_Z 5))) None)
  /\ PyFloat.int_true_div 10 100 = Ok (PyFloat.of_decimal false 1 (-1))
  /\ spec_within_tolerance_band (PyFloat.of_Z (-95)) (PyFloat.of_Z (-100))
       (PyFloat.of_decimal false 1 (-1)) = true
  /\ grade_numerical (PStr "-100.0") (PStr "-100") true (PInt 10)
       (Some (mkRange (Some (PInt 0)) (Some (PInt 10)) None))
     = Ok (mkResult false f_0_0 "Value -100.0 outside acceptable range/tolerance"
             None (Some (Some f_0_0)) None).
Proof. repeat split; vm_compute; reflexivity. Qed.

Lemma le_neg_inf (x : float) : PyFloat.is_nan x = false -> PyFloat.le PyFloat.neg_inf x = true.
Proof. destruct x as [[] | [] | | [] m e]; cbn; congruence. Qed.

Lemma le_inf (x : float) : PyFloat.is_nan x = false -> PyFloat.le x PyFloat.inf = true.
Proof. destruct x as [[] | [] | | [] m e]; cbn; congruence. Qed.

Lemma of_string_parse (s : string) (x : float) :
  PyFloat.parse s = Some x -> PyFloat.of_string s = Ok x.
Proof. intros H. unfold PyFloat.of_string. rewrite H. reflexivity. Qed.

Lemma of_string_fail (s : string) :
  PyFloat.parse s = None ->
  PyFloat.of_string s
  = Raise (ValueError ("could not convert string to float: " +:+ PyStr.repr s)).
Proof. intros H. unfold PyFloat.of_string. rewrite H. reflexivity. Qed.

(** C6 (as amended): with [range_sensitive] true and no [answer_range] (or an
    empty one), two inputs whose cleaned strings differ and both parse, the
    student's value not being NaN, are graded correct with score 100,
    whatever the tolerance and the correct value are. *)
Theorem C6_unbounded_range_accepts_every_number
    (student_answer correct_answer tolerance_percent : pyval)
    (answer_range : option AnswerRange) (student_value correct_value : float) :
  String.eqb (clean_number student_answer) (clean_number correct_answer) = false ->
  PyFloat.parse (clean_number student_answer) = Some student_value ->
  PyFloat.parse (clean_number correct_answer) = Some correct_value ->
  PyFloat.is_nan student_value = false ->
  range_given answer_range = None ->
  grade_numerical student_answer correct_answer true tolerance_percent answer_range
  = Ok (mkResult true f_100_0
          ("Value " +:+ PyFloat.repr student_value +:+ " is within range ["
           +:+ PyFloat.repr PyFloat.neg_inf +:+ ", " +:+ PyFloat.repr PyFloat.inf +:+ "]")
          None (Some (Some (PyFloat.abs (PyFloat.sub student_value correct_value)))) None).
Proof.
  intros Hdiff Hs Hc Hnan Hrange.
  unfold grade_numerical, grade_numerical_try, resolve_range.
  rewrite Hdiff, (of_string_parse _ _ Hs), (of_string_parse _ _ Hc), Hrange.
  rewrite !bind_Ok, le_neg_inf, le_inf by done. reflexivity.
Qed.

Lemma C6_witness :
  grade_numerical (PStr "7") (PStr "42") true (PInt 0) None
  = Ok (mkResult true f_100_0
          ("Value " +:+ PyFloat.repr (PyFloat.of_Z 7) +:+ " is within range ["
           +:+ PyFloat.repr PyFloat.neg_inf +:+ ", " +:+ PyFloat.repr PyFloat.inf +:+ "]")
          None (Some (Some (PyFloat.abs (PyFloat.sub (PyFloat.of_Z 7) (PyFloat.of_Z 42))))) None).
Proof.
  apply (C6_unbounded_range_accepts_every_number (PStr "7") (PStr "42") (PInt 0) None
           (PyFloat.of_Z 7) (PyFloat.of_Z 42)).
  - reflexivity.
  - vm_compute. reflexivity.
  - vm_compute. reflexivity.
  - reflexivity.
  - reflexivity.
Defined.

(** C6 (as stated) fails: "nan" parses, differs from "1", and is graded
    incorrect, since no comparison with NaN holds. *)
Lemma C6_counterexample :
  PyFloat.parse (clean_number (PStr "nan")) = Some PyFloat.nan
  /\ PyFloat.parse (clean_number (PStr "1")) = Some f_1_0
  /\ String.eqb (clean_number (PStr "nan")) (clean_number (PStr "1")) = false
  /\ grade_numerical (PStr "nan") (PStr "1") true (PInt 0) None
     = Ok (mkResult false f_0_0 "Value nan outside acceptable range/tolerance"
             None (Some (Some PyFloat.nan)) None).
Proof. repeat split; vm_compute; reflexivity. Qed.

(** C7 (as amended): when the cleaned strings differ and one of them does not
    parse, [grade_numerical] returns a result, incorrect, with score 0 and
    [difference] None; the explanation is "Invalid numerical format: "
    followed by the message of the exception, which quotes the first string
    that failed to parse. *)
Theorem C7_unparseable_number_is_invalid_format
    (student_answer correct_answer : pyval) (range_sensitive : bool)
    (tolerance_percent : pyval) (answer_range : option AnswerRange) :
  String.eqb (clean_number student_answer) (clean_number correct_answer) = false ->
  PyFloat.parse (clean_number student_answer) = None
  \/ PyFloat.parse (clean_number correct_answer) = None ->
  grade_numerical student_answer correct_answer range_sensitive tolerance_percent answer_range
  = Ok (mkResult false f_0_0
          ("Invalid numerical format: could not convert string to float: "
           +:+ PyStr.repr (match PyFloat.parse (clean_number student_answer) with
                           | None => clean_number student_answer
                           | Some _ => clean_number correct_answer
                           end))
          None (Some None) None).
Proof.
  intros Hdiff Hfail. unfold grade_numerical, grade_numerical_try. rewrite Hdiff.
  destruct (PyFloat.parse (clean_number student_answer)) as [x |] eqn:Hs.
  - destruct Hfail as [Hfail | Hfail]; [discriminate |].
    rewrite (of_string_parse _ _ Hs), bind_Ok, (of_string_fail _ Hfail). reflexivity.
  - rewrite (of_string_fail _ Hs). reflexivity.
Qed.

Lemma C7_witness :
  grade_numerical (PStr "abc") (PStr "1") false (PInt 0) None
  = Ok (mkResult false f_0_0
          ("Invalid numerical format: could not convert string to float: "
           +:+ PyStr.repr (match PyFloat.parse (clean_number (PStr "abc")) with
                           | None => clean_number (PStr "abc")
                           | Some _ => clean_number (PStr "1")
                           end))
          None (Some None) None).
Proof.
  apply (C7_unparseable_number_is_invalid_format (PStr "abc") (PStr "1") false (PInt 0) None).
  - reflexivity.
  - left. vm_compute. reflexivity.
Defined.

(** C7 (as stated) fails on the explanation: it is not the bare text
    "Invalid numerical format". *)
Lemma C7_counterexample :
  PyFloat.parse (clean_number (PStr "abc")) = None
  /\ grade_numerical (PStr "abc") (PStr "1") false (PInt 0) None
     = Ok (mkResult false f_0_0
             "Invalid numerical format: could not convert string to float: 'abc'"
             None (Some None) None)
  /\ String.eqb "Invalid numerical format: could not convert string to float: 'abc'"
       "Invalid numerical format" = false.
Proof. repeat split; vm_compute; reflexivity. Qed.

(** *** Trimming and lower case, on code points *)

Lemma isspace_spec (c : ascii) :
  PyStr.isspace c = bool_decide (N_of_ascii c ∈ spec_whitespace).
Proof. destruct c as [[] [] [] [] [] [] [] []]; vm_compute; reflexivity. Qed.

Lemma isspace_whitespace (c : ascii) :
  PyStr.isspace c = true <-> N_of_ascii c ∈ spec_whitespace.
Proof. rewrite isspace_spec. apply bool_decide_eq_true. Qed.

Lemma lower_char_spec (c : ascii) :
  N_of_ascii (PyStr.lower_char c) = spec_lowercase_char (N_of_ascii c).
Proof. destruct c as [[] [] [] [] [] [] [] []]; vm_compute; reflexivity. Qed.

Lemma code_points_cons (c : ascii) (s : string) :
  code_points (String c s) = (N_of_ascii c :: code_points s)%list.
Proof. reflexivity. Qed.

Lemma code_points_inj (s t : string) : code_points s = code_points t -> s = t.
Proof.
  revert t. induction s as [| c s IH]; intros [| d t]; try done.
  rewrite !code_points_cons. intros [= Hc Hs].
  f_equal; [| by apply IH].
  rewrite <- (ascii_N_embedding c), <- (ascii_N_embedding d). by rewrite Hc.
Qed.

Lemma code_points_lower (s : string) :
  code_points (PyStr.lower s) = spec_lowercase (code_points s).
Proof.
  induction s as [| c s IH]; [done |].
  cbn [PyStr.lower]. rewrite !code_points_cons, lower_char_spec, IH. reflexivity.
Qed.

(** [lstrip] takes a run of whitespace off the front, up to the first
    character that is none. *)
Lemma lstrip_spec (s : string) :
  exists before,
    code_points s = (before ++ code_points (PyStr.lstrip s))%list
    /\ Forall (fun c => c ∈ spec_whitespace) before
    /\ forall c, head (code_points (PyStr.lstrip s)) = Some c -> c ∉ spec_whitespace.
Proof.
  induction s as [| c s (before & Hs & Hb & Hh)].
  - exists []. split; [done |]. split; [done |]. intros c [=].
  - cbn [PyStr.lstrip]. destruct (PyStr.isspace c) eqn:Hc.
    + exists (N_of_ascii c :: before). rewrite code_points_cons, Hs.
      split; [done |]. split; [| done].
      constructor; [by apply isspace_whitespace | done].
    + exists []. split; [done |]. split; [done |].
      intros d [= <-]. rewrite <- isspace_whitespace, Hc. done.
Qed.

(** [rstrip] takes a run of whitespace off the end, and keeps the front. *)
Lemma rstrip_spec (s : string) :
  exists after,
    code_points s = (code_points (PyStr.rstrip s) ++ after)%list
    /\ Forall (fun c => c ∈ spec_whitespace) after
    /\ (forall c, last (code_points (PyStr.rstrip s)) = Some c -> c ∉ spec_whitespace)
    /\ (forall c, head (code_points (PyStr.rstrip s)) = Some c ->
                  head (code_points s) = Some c).
Proof.
  induction s as [| c s (after & Hs & Ha & Hl & Hh)].
  - exists []. split; [done |]. split; [done |]. split; intros c [=].
  - cbn [PyStr.rstrip]. destruct (PyStr.rstrip s) as [| d r] eqn:Hr.
    + destruct (PyStr.isspace c) eqn:Hc.
      * exists (N_of_ascii c :: after). rewrite code_points_cons, Hs.
        split; [done |]. split; [| split; intros e [=]].
        constructor; [by apply isspace_whitespace | done].
      * exists after. rewrite !code_points_cons, Hs.
        split; [done |]. split; [done |]. split; [| done].
        intros e [= <-]. rewrite <- isspace_whitespace, Hc. done.
    + exists after. rewrite !code_points_cons, Hs, !code_points_cons.
      split; [done |]. split; [done |]. split; [| done].
      intros e He. apply Hl. rewrite code_points_cons. exact He.
Qed.

Lemma strip_trimmed (s : string) :
  spec_trimmed (code_points s) (code_points (PyStr.strip s)).
Proof.
  destruct (lstrip_spec s) as (before & Hs & Hb & Hh).
  destruct (rstrip_spec (PyStr.lstrip s)) as (after & Ht & Ha & Hl & Hk).
  exists before, after. unfold PyStr.strip. rewrite Hs at 1. rewrite Ht at 1.
  split; [done |]. split; [done |]. split; [done |]. split; [| done].
  intros c Hc. apply Hh, Hk, Hc.
Qed.

(** A string has one trimmed form. *)
Lemma run_then_rest (b1 b2 x1 x2 : list N) :
  (b1 ++ x1 = b2 ++ x2)%list ->
  Forall (fun c => c ∈ spec_whitespace) b1 ->
  Forall (fun c => c ∈ spec_whitespace) b2 ->
  (exists c, head x1 = Some c /\ c ∉ spec_whitespace) ->
  (exists c, head x2 = Some c /\ c ∉ spec_whitespace) ->
  b1 = b2 /\ x1 = x2.
Proof.
  revert b2. induction b1 as [| c b1 IH]; intros [| d b2] Heq H1 H2 Hx1 Hx2.
  - done.
  - exfalso. destruct Hx1 as (e & He & Hn). cbn in Heq. subst x1.
    injection He as <-. by inversion H2.
  - exfalso. destruct Hx2 as (e & He & Hn). cbn in Heq. subst x2.
    injection He as <-. by inversion H1.
  - injection Heq as <- Heq. inversion H1; inversion H2; subst.
    destruct (IH b2) as [-> ->]; done.
Qed.

Lemma spec_trimmed_unique (s t1 t2 : list N) :
  spec_trimmed s t1 -> spec_trimmed s t2 -> t1 = t2.
Proof.
  assert (forall t t' : list N, spec_trimmed s t -> spec_trimmed s t' -> t = [] -> t' = [])
    as Hnil.
  { intros t t' (b & a & Hs & Hb & Ha & _) (b' & a' & Hs' & _ & _ & Hh & _) ->.
    destruct t' as [| c t']; [done |]. exfalso. apply (Hh c eq_refl).
    assert (Forall (fun c => c ∈ spec_whitespace) s) as Hall.
    { rewrite Hs. by apply Forall_app. }
    rewrite Hs', !Forall_app in Hall. destruct Hall as (_ & Hall & _).
    by inversion Hall. }
  intros H1 H2.
  destruct t1 as [| c1 r1]; [symmetry; by apply (Hnil [] t2 H1 H2) |].
  destruct t2 as [| c2 r2]; [by apply (Hnil [] (c1 :: r1) H2 H1) |].
  destruct H1 as (b1 & a1 & Hs1 & Hb1 & Ha1 & Hh1 & Hl1).
  destruct H2 as (b2 & a2 & Hs2 & Hb2 & Ha2 & Hh2 & Hl2).
  rewrite Hs1 in Hs2.
  apply run_then_rest in Hs2 as [_ Hrest]; try done;
    [| exists c1; split; [done | by apply Hh1] | exists c2; split; [done | by apply Hh2]].
  apply (f_equal reverse) in Hrest. rewrite !reverse_app in Hrest.
  assert (forall (c : N) (r : list N),
            (forall e, last (c :: r) = Some e -> e ∉ spec_whitespace) ->
            exists e, head (reverse (c :: r)) = Some e /\ e ∉ spec_whitespace) as Hrev.
  { intros c r Hl. destruct (last (c :: r)) as [e |] eqn:He.
    - exists e. split; [| by apply Hl]. by rewrite head_reverse.
    - by rewrite last_None in He. }
  apply run_then_rest in Hrest as [_ Hrest]; try (by apply Forall_reverse); try by apply Hrev.
  apply (f_equal reverse) in Hrest. by rewrite !reverse_involutive in Hrest.
Qed.

(** C8 (as amended): [grade_one_word] on two strings. If one is empty the
    result is the missing-answer result. Otherwise the result is correct
    exactly when the two strings, each trimmed of its surrounding
    whitespace, are identical, after lower-casing both unless
    [case_sensitive]: the trimmed strings and the lower case are those of
    the design document's words, [spec_trimmed] and [spec_lowercase]. *)
Theorem C8_exact_matcher_lower_case
    (student_answer correct_answer : string) (case_sensitive : bool) :
  (student_answer = "" \/ correct_answer = "" ->
   grade_one_word (PStr student_answer) (PStr correct_answer) case_sensitive
   = mkResult false f_0_0 "Missing answer" None None None)
  /\ (student_answer <> "" -> correct_answer <> "" ->
      exists s c,
        spec_trimmed (code_points student_answer) s
        /\ spec_trimmed (code_points correct_answer) c
        /\ (is_correct (grade_one_word (PStr student_answer) (PStr correct_answer)
                          case_sensitive) = true
            <-> if case_sensitive then s = c else spec_lowercase s = spec_lowercase c)).
Proof.
  split.
  - intros [-> | ->]; [reflexivity |]. unfold grade_one_word.
    destruct student_answer; reflexivity.
  - intros Hs Hc.
    exists (code_points (PyStr.strip student_answer)),
           (code_points (PyStr.strip correct_answer)).
    split; [apply strip_trimmed |]. split; [apply strip_trimmed |].
    unfold grade_one_word.
    destruct student_answer as [| a s]; [done |].
    destruct correct_answer as [| b c]; [done |].
    cbn [truthy PyStr.is_empty negb orb str is_correct].
    destruct case_sensitive; cbn [negb]; rewrite String.eqb_eq.
    + split; [by intros -> | apply code_points_inj].
    + rewrite <- !code_points_lower. split; [by intros -> | apply code_points_inj].
Qed.

Lemma C8_witness :
  grade_one_word (PStr "") (PStr "paris") false
  = mkResult false f_0_0 "Missing answer" None None None
  /\ exists s c,
       spec_trimmed (code_points " Paris ") s
       /\ spec_trimmed (code_points "paris") c
       /\ (is_correct (grade_one_word (PStr " Paris ") (PStr "paris") false) = true
           <-> spec_lowercase s = spec_lowercase c).
Proof.
  split.
  - apply (proj1 (C8_exact_matcher_lower_case "" "paris" false)). left. reflexivity.
  - apply (proj2 (C8_exact_matcher_lower_case " Paris " "paris" false)); discriminate.
Defined.

(** C8 (as stated) fails: "STRASSE" and the same word with a sharp s are
    two trimmed strings that case folding makes identical, and
    [grade_one_word] does not grade the one correct against the other:
    [str.lower] keeps the sharp s. *)
Lemma C8_counterexample :
  spec_trimmed (code_points STRASSE) (code_points STRASSE)
  /\ spec_trimmed (code_points strasse) (code_points strasse)
  /\ spec_casefold (code_points STRASSE) = spec_casefold (code_points strasse)
  /\ grade_one_word (PStr STRASSE) (PStr strasse) false
     = mkResult false f_0_0 "Not an exact match" None None None.
Proof.
  split; [exact (strip_trimmed STRASSE) |]. split; [exact (strip_trimmed strasse) |].
  split; vm_compute; reflexivity.
Qed.

(** C9: when both answers are non-empty and the call of the oracle raises,
    [grade_short_phrase] returns a result that is incorrect with confidence
    0.0 (and score 0.0), after printing the error. *)
Theorem C9_oracle_failure_fails_closed
    (student_answer correct_answer : pyval) (question_text : option string)
    (semantic_threshold : float) (w : World) (e : exn) :
  truthy student_answer = true ->
  truthy correct_answer = true ->
  oracle w (calls w) (request_for student_answer correct_answer question_text) = Raise e ->
  grade_short_phrase student_answer correct_answer question_text semantic_threshold w
  = (mkResult false f_0_0 "Semantic similarity: 0.00" None None (Some f_0_0),
     print ("Error connecting to Ollama: " +:+ exn_message e)
       (mkWorld (oracle w) (S (calls w)) (stdout w))).
Proof.
  intros Hs Hc Hfail. unfold grade_short_phrase, _check_meaning_with_ollama, ollama_chat.
  rewrite Hs, Hc. cbn [negb orb]. rewrite Hfail. reflexivity.
Qed.

Lemma C9_witness :
  grade_short_phrase (PStr "Paris") (PStr "paris") None f_0_7
    (constant_oracle (Raise (OtherError "connection refused")))
  = (mkResult false f_0_0 "Semantic similarity: 0.00" None None (Some f_0_0),
     print ("Error connecting to Ollama: " +:+ exn_message (OtherError "connection refused"))
       (mkWorld (oracle (constant_oracle (Raise (OtherError "connection refused"))))
          (S (calls (constant_oracle (Raise (OtherError "connection refused")))))
          (stdout (constant_oracle (Raise (OtherError "connection refused")))))).
Proof.
  apply (C9_oracle_failure_fails_closed (PStr "Paris") (PStr "paris") None f_0_7
           (constant_oracle (Raise (OtherError "connection refused")))
           (OtherError "connection refused")); reflexivity.
Defined.

(** *** The order of a set *)

Lemma element_order_lawful : lawful element_order.
Proof. intros built_from s. reflexivity. Qed.

Lemma reverse_order_lawful : lawful reverse_order.
Proof. intros built_from s. unfold reverse_order. by rewrite reverse_Permutation. Qed.

Lemma same_but_order_refl (r : GradingResult) : same_but_order r r.
Proof. repeat split. by destruct (matched_items r). Qed.



(** When it does not count, [grade_list] looks at the two sets of tokens,
    and at the process for the order of [matched_items] only. *)
Lemma grade_list_in_sets (order1 order2 : SetOrder)
    (student1 student2 correct1 correct2 : answer)
    (partial_matching case_sensitive : bool)
    (sl1 sl2 cl1 cl2 : list string) :
  lawful order1 -> lawful order2 ->
  truthy_answer student1 = truthy_answer student2 ->
  truthy_answer correct1 = truthy_answer correct2 ->
  tokens student1 case_sensitive = Ok sl1 ->
  tokens student2 case_sensitive = Ok sl2 ->
  tokens correct1 case_sensitive = Ok cl1 ->
  tokens correct2 case_sensitive = Ok cl2 ->
  (forall t, t ∈ sl1 <-> t ∈ sl2) ->
  (forall t, t ∈ cl1 <-> t ∈ cl2) ->
  same_outcome_but_order
    (grade_list_in order1 student1 correct1 false partial_matching case_sensitive)
    (grade_list_in order2 student2 correct2 false partial_matching case_sensitive).
Proof.
  intros Ho1 Ho2 Hs Hc Hs1 Hs2 Hc1 Hc2 Hsl Hcl. unfold grade_list_in.
  rewrite Hs, Hc, Hs1, Hs2, Hc1, Hc2.
  destruct (negb (truthy_answer student2) || negb (truthy_answer correct2));
    [apply same_but_order_refl |].
  rewrite !bind_Ok. cbv zeta.
  assert ((list_to_set sl1 : gset string) = list_to_set sl2) as ->.
  { apply set_eq. intros t. rewrite !elem_of_list_to_set. apply Hsl. }
  assert ((list_to_set cl1 : gset string) = list_to_set cl2) as ->.
  { apply set_eq. intros t. rewrite !elem_of_list_to_set. apply Hcl. }
  set (S := list_to_set sl2 : gset string). set (C := list_to_set cl2 : gset string).
  assert (order1 [sl1; cl1] (S ∩ C) ≡ₚ order2 [sl2; cl2] (S ∩ C)) as Hperm.
  { by rewrite (Ho1 _ _), (Ho2 _ _). }
  destruct (bool_decide (S = C)); [by repeat split |].
  destruct partial_matching; [| by repeat split].
  destruct (PyFloat.int_true_div _ _) as [ratio | e]; [| reflexivity].
  rewrite !bind_Ok. by repeat split.
Qed.





(** The semantic grader depends on the world: the same call in two worlds
    gives two results. *)
Example short_phrase_depends_on_the_world :
  is_correct (grade_short_phrase (PStr "Paris") (PStr "paris") None f_0_7
                (constant_oracle (Ok "0.9"))).1 = true
  /\ is_correct (grade_short_phrase (PStr "Paris") (PStr "paris") None f_0_7
                   (constant_oracle (Ok "0.1"))).1 = false.
Proof. split; vm_compute; reflexivity. Qed.

(** ** Further properties *)

Lemma score_in_range_0 : score_in_range f_0_0 = true.
Proof. vm_compute. reflexivity. Qed.

Lemma score_in_range_100 : score_in_range f_100_0 = true.
Proof. vm_compute. reflexivity. Qed.

Lemma grade_one_word_score (s c : pyval) (cs : bool) :
  score_in_range (score_percentage (grade_one_word s c cs)) = true.
Proof.
  unfold grade_one_word.
  destruct (negb (truthy s) || negb (truthy c)); [apply score_in_range_0 |].
  cbn [score_percentage].
  destruct (String.eqb _ _); [apply score_in_range_100 | apply score_in_range_0].
Qed.

Lemma scores_Ok (r : GradingResult) :
  score_in_range (score_percentage r) = true -> scores_in_range (Ok r).
Proof. intros H r' [= <-]. exact H. Qed.

Lemma scores_Raise (e : exn) : scores_in_range (Raise e).
Proof. intros r H. discriminate H. Qed.

Lemma scores_bind {A : Type} (m : outcome A) (f : A -> outcome GradingResult) :
  (forall a, m = Ok a -> scores_in_range (f a)) -> scores_in_range (m ≫= f).
Proof. intros H. destruct m as [a | e]; [apply H; reflexivity | apply scores_Raise]. Qed.

Lemma scores_if (b : bool) (x y : outcome GradingResult) :
  scores_in_range x -> scores_in_range y -> scores_in_range (if b then x else y).
Proof. destruct b; done. Qed.

Lemma grade_numerical_try_scores (s c : pyval) (rs : bool) (tp : pyval)
    (ar : option AnswerRange) :
  scores_in_range (grade_numerical_try s c rs tp ar).
Proof.
  unfold grade_numerical_try.
  apply scores_if; [apply scores_Ok, score_in_range_100 |].
  apply scores_bind; intros sv _. apply scores_bind; intros cv _.
  apply scores_if.
  - apply scores_bind; intros [[mn mx] tol] _.
    apply scores_if; [apply scores_Ok, score_in_range_100 |].
    apply scores_bind; intros pt _. apply scores_if; [| apply scores_Ok, score_in_range_0].
    apply scores_bind; intros fr _.
    apply scores_if; apply scores_Ok; [apply score_in_range_100 | apply score_in_range_0].
  - apply scores_if; apply scores_Ok; [apply score_in_range_100 | apply score_in_range_0].
Qed.

Lemma grade_numerical_scores (s c : pyval) (rs : bool) (tp : pyval)
    (ar : option AnswerRange) :
  scores_in_range (grade_numerical s c rs tp ar).
Proof.
  unfold grade_numerical. pose proof (grade_numerical_try_scores s c rs tp ar) as H.
  destruct (grade_numerical_try s c rs tp ar) as [r | []]; try exact H;
    apply scores_Ok, score_in_range_0.
Qed.

Lemma grade_list_scores (sa ca : answer) (os pm cs : bool) :
  (forall cl, tokens ca cs = Ok cl -> (Z.of_nat (length cl) < 2 ^ 53)%Z) ->
  scores_in_range (grade_list sa ca os pm cs).
Proof.
  intros Hlen. unfold grade_list, grade_list_in.
  apply scores_if; [apply scores_Ok, score_in_range_0 |].
  apply scores_bind; intros sl _. apply scores_bind; intros cl Hcl.
  specialize (Hlen cl Hcl).
  apply scores_if.
  - apply scores_if; [apply scores_Ok, score_in_range_100 |].
    apply scores_if; [| apply scores_Ok, score_in_range_0].
    apply scores_bind; intros x Hx. apply scores_Ok. cbn [score_percentage].
    destruct cl as [| t cl']; [discriminate Hx |].
    pose proof (lcs_le_length sl (t :: cl')) as Hle.
    destruct (score_reaches_100 (Z.of_nat (_longest_common_subsequence sl (t :: cl')))
                (Z.of_nat (length (t :: cl')))) as (y & Hy & _ & H0 & H100);
      [lia | cbn [length] in *; lia |].
    rewrite Hy in Hx. injection Hx as <-. unfold score_in_range. rewrite H0, H100. done.
  - apply scores_if; [apply scores_Ok, score_in_range_100 |].
    apply scores_if; [| apply scores_Ok, score_in_range_0].
    apply scores_bind; intros x Hx. apply scores_Ok. cbn [score_percentage].
    destruct cl as [| t cl']; [discriminate Hx |].
    pose proof (size_matched (list_to_set sl) (list_to_set (t :: cl'))) as [Hle _].
    pose proof (size_list_to_set_le (t :: cl')) as Hsz.
    pose proof (size_list_to_set_pos (t :: cl') ltac:(done)) as Hpos.
    destruct (score_reaches_100
                (Z.of_nat (size (list_to_set sl ∩ list_to_set (t :: cl') : gset string)))
                (Z.of_nat (size (list_to_set (t :: cl') : gset string))))
      as (y & Hy & _ & H0 & H100); [lia | lia |].
    rewrite Hy in Hx. injection Hx as <-. unfold score_in_range. rewrite H0, H100. done.
Qed.

(** X1: the three graders that do not consult the oracle keep the score
    within [0, 100] (for [grade_list], with fewer than 2^53 correct tokens). *)
Theorem X1_non_semantic_scores_in_range :
  (forall s c cs, score_in_range (score_percentage (grade_one_word s c cs)) = true)
  /\ (forall s c rs tp ar, scores_in_range (grade_numerical s c rs tp ar))
  /\ (forall sa ca os pm cs,
        (forall cl, tokens ca cs = Ok cl -> (Z.of_nat (length cl) < 2 ^ 53)%Z) ->
        scores_in_range (grade_list sa ca os pm cs)).
Proof.
  split; [exact grade_one_word_score |].
  split; [exact grade_numerical_scores | exact grade_list_scores].
Qed.

Lemma X1_witness :
  scores_in_range
    (grade_list (Items [PStr "Red"; PStr "Blue"])
       (Items [PStr "Red"; PStr "Blue"; PStr "Yellow"]) false true false).
Proof.
  apply (proj2 (proj2 X1_non_semantic_scores_in_range)).
  intros cl [= <-]. vm_compute. reflexivity.
Defined.

(** X2: in [grade_numerical] with [range_sensitive] true, a student value
    within the resolved range is graded correct whatever the tolerance is:
    the range check comes first. *)
Theorem X2_range_check_has_priority
    (student_answer correct_answer tolerance_percent : pyval)
    (answer_range : option AnswerRange)
    (student_value correct_value min_val max_val : float) (tolerance : pyval) :
  String.eqb (clean_number student_answer) (clean_number correct_answer) = false ->
  PyFloat.parse (clean_number student_answer) = Some student_value ->
  PyFloat.parse (clean_number correct_answer) = Some correct_value ->
  resolve_range tolerance_percent answer_range = Ok (min_val, max_val, tolerance) ->
  PyFloat.le min_val student_value && PyFloat.le student_value max_val = true ->
  grade_numerical student_answer correct_answer true tolerance_percent answer_range
  = Ok (mkResult true f_100_0
          ("Value " +:+ PyFloat.repr student_value +:+ " is within range ["
           +:+ PyFloat.repr min_val +:+ ", " +:+ PyFloat.repr max_val +:+ "]")
          None (Some (Some (PyFloat.abs (PyFloat.sub student_value correct_value)))) None).
Proof.
  intros Hdiff Hs Hc Hres Hin. unfold grade_numerical, grade_numerical_try.
  rewrite Hdiff, (of_string_parse _ _ Hs), (of_string_parse _ _ Hc), Hres.
  rewrite !bind_Ok. cbv beta iota. rewrite Hin. reflexivity.
Qed.

Lemma X2_witness :
  grade_numerical (PStr "40") (PStr "50") true (PInt 0)
    (Some (mkRange (Some (PInt 40)) (Some (PInt 60)) None))
  = Ok (mkResult true f_100_0
          ("Value " +:+ PyFloat.repr (PyFloat.of_Z 40) +:+ " is within range ["
           +:+ PyFloat.repr (PyFloat.of_Z 40) +:+ ", " +:+ PyFloat.repr (PyFloat.of_Z 60) +:+ "]")
          None (Some (Some (PyFloat.abs (PyFloat.sub (PyFloat.of_Z 40) (PyFloat.of_Z 50))))) None).
Proof.
  apply (X2_range_check_has_priority (PStr "40") (PStr "50") (PInt 0)
           (Some (mkRange (Some (PInt 40)) (Some (PInt 60)) None))
           (PyFloat.of_Z 40) (PyFloat.of_Z 50) (PyFloat.of_Z 40) (PyFloat.of_Z 60) (PInt 0));
    vm_compute; reflexivity.
Defined.

(** The worked examples of the design document. Two of three colours
    score 66.67 and are not correct; the first three of five primes have a
    common subsequence of length 3, score 60.0 and are not correct; an
    oracle reply of "0.85" against the threshold 0.7 is correct with score
    85.0; "1,000", " 1000 " and "1000" are all correct against "1000". *)
Example worked_examples :
  grade_list (Items [PStr "Red"; PStr "Blue"])
    (Items [PStr "Red"; PStr "Blue"; PStr "Yellow"]) false true true
  = Ok (mkResult false (PyFloat.mul (PyFloat.ratio false 2 3) f_100_0)
          "Partial match: 2/3 items correct"
          (Some (elements (list_to_set ["Red"; "Blue"] : gset string))) None None)
  /\ PyFloat.format_f 2 (PyFloat.mul (PyFloat.ratio false 2 3) f_100_0) = "66.67"
  /\ _longest_common_subsequence ["2"; "3"; "5"] ["2"; "3"; "5"; "7"; "11"] = 3
  /\ grade_list (Items [PInt 2; PInt 3; PInt 5])
       (Items [PInt 2; PInt 3; PInt 5; PInt 7; PInt 11]) true true false
     = Ok (mkResult false (PyFloat.of_Z 60) "Partial match: 60.0% (order matters)"
             (Some []) None None)
  /\ (grade_short_phrase (PStr "a quick answer") (PStr "a fast answer") None f_0_7
        (constant_oracle (Ok "0.85"))).1
     = mkResult true (PyFloat.of_Z 85) "Semantic similarity: 0.85" None None
         (Some (PyFloat.of_decimal false 85 (-2)))
  /\ is_correct (grade_one_word (PStr "pArIs") (PStr "PaRiS") false) = true
  /\ grade_numerical (PStr "1,000") (PStr "1000") false (PInt 0) None
     = Ok (mkResult true f_100_0 "Exact match: 1000" None (Some (Some f_0_0)) None)
  /\ grade_numerical (PStr " 1000 ") (PStr "1000") false (PInt 0) None
     = Ok (mkResult true f_100_0 "Exact match: 1000" None (Some (Some f_0_0)) None)
  /\ grade_numerical (PStr "1000") (PStr "1000") false (PInt 0) None
     = Ok (mkResult true f_100_0 "Exact match: 1000" None (Some (Some f_0_0)) None)
  /\ grade_numerical (PStr "42.0") (PStr "42") false (PInt 0) None
     = Ok (mkResult true f_100_0 "Exact numerical match: 42.0" None (Some (Some f_0_0)) None).
Proof. repeat split; vm_compute; reflexivity. Qed.

(** ** More of the graders, and the harnesses *)

Local Open Scope list_scope.

Lemma is_lcs_length_nil_l (l : list string) : is_lcs_length 0 [] l.
Proof.
  split.
  - exists []. split; [constructor |]. split; [apply sublist_nil_l | done].
  - intros k Hk _. apply sublist_nil_r in Hk as ->. done.
Qed.

Lemma is_lcs_length_nil_r (l : list string) : is_lcs_length 0 l [].
Proof.
  split.
  - exists []. split; [apply sublist_nil_l |]. split; [constructor | done].
  - intros k _ Hk. apply sublist_nil_r in Hk as ->. done.
Qed.

Lemma sublist_snoc_inv (l xs : list string) (a : string) :
  sublist l (xs ++ [a]) -> sublist l xs \/ exists l', l = l' ++ [a] /\ sublist l' xs.
Proof.
  intros H. apply sublist_app_r in H as (k1 & k2 & -> & H1 & H2).
  inversion H2 as [| ? ? ? H3 | ? ? ? H3]; subst.
  - apply sublist_nil_r in H3 as ->. right. by exists k1.
  - apply sublist_nil_r in H3 as ->. left. by rewrite app_nil_r.
Qed.

Lemma is_lcs_length_snoc_eq (k : nat) (xs ys : list string) (a : string) :
  is_lcs_length k xs ys -> is_lcs_length (k + 1) (xs ++ [a]) (ys ++ [a]).
Proof.
  intros [(l & Hx & Hy & Hl) Hmax]. split.
  - exists (l ++ [a]). split; [by apply sublist_app |]. split; [by apply sublist_app |].
    rewrite length_app. cbn. lia.
  - intros l' Hx' Hy'.
    apply sublist_snoc_inv in Hx' as [Hx' | (l1 & -> & Hx')];
      apply sublist_snoc_inv in Hy' as [Hy' | (l2 & Heq & Hy')].
    + specialize (Hmax _ Hx' Hy'). lia.
    + subst l'. assert (sublist l2 xs) as H2.
      { etrans; [| exact Hx']. apply sublist_inserts_r. done. }
      specialize (Hmax _ H2 Hy'). rewrite length_app. cbn. lia.
    + assert (sublist l1 ys) as H2.
      { etrans; [| exact Hy']. apply sublist_inserts_r. done. }
      specialize (Hmax _ Hx' H2). rewrite length_app. cbn. lia.
    + apply app_inj_tail in Heq as [<- _]. specialize (Hmax _ Hx' Hy').
      rewrite length_app. cbn. lia.
Qed.

Lemma is_lcs_length_snoc_ne (p q : nat) (xs ys : list string) (a b : string) :
  a <> b ->
  is_lcs_length p xs (ys ++ [b]) -> is_lcs_length q (xs ++ [a]) ys ->
  is_lcs_length (Nat.max p q) (xs ++ [a]) (ys ++ [b]).
Proof.
  intros Hab [(lp & Hpx & Hpy & Hpl) Hpmax] [(lq & Hqx & Hqy & Hql) Hqmax]. split.
  - destruct (Nat.max_spec p q) as [[_ ->] | [_ ->]].
    + exists lq. split; [done |]. split; [| done]. by apply sublist_inserts_r.
    + exists lp. split; [| done]. by apply sublist_inserts_r.
  - intros l Hx Hy.
    apply sublist_snoc_inv in Hx as [Hx | (l1 & -> & Hx)].
    + specialize (Hpmax _ Hx Hy). lia.
    + pose proof Hy as Hy'.
      apply sublist_snoc_inv in Hy' as [Hy' | (l2 & Heq & Hy')].
      * assert (sublist (l1 ++ [a]) (xs ++ [a])) as H2 by (by apply sublist_app).
        specialize (Hqmax _ H2 Hy'). lia.
      * apply app_inj_tail in Heq as [_ Heq]. done.
Qed.

Lemma table_shape_init (m n : nat) :
  table_shape m n (replicate (m + 1) (replicate (n + 1) 0)).
Proof.
  split; [by rewrite length_replicate |].
  apply Forall_replicate. by rewrite length_replicate.
Qed.

Lemma cell_init (m n i j : nat) : cell (replicate m (replicate n 0)) i j = 0.
Proof.
  unfold cell.
  destruct (replicate m (replicate n 0) !! i) as [row |] eqn:Hrow; cbn; [| done].
  apply lookup_replicate_1 in Hrow as [-> _].
  destruct (replicate n 0 !! j) as [v |] eqn:Hv; cbn; [| done].
  by apply lookup_replicate_1 in Hv as [-> _].
Qed.

Lemma table_shape_cell (list1 list2 : list string) (m n i j : nat) (dp : list (list nat)) :
  table_shape m n dp -> table_shape m n (lcs_cell list1 list2 i dp j).
Proof.
  intros [Hlen Hrows]. unfold lcs_cell. split.
  - by rewrite length_alter.
  - apply Forall_alter; [done |]. intros row Hrow. by rewrite length_insert.
Qed.

Lemma cell_lcs_cell (list1 list2 : list string) (m n i j i' j' : nat)
    (dp : list (list nat)) :
  table_shape m n dp -> i <= m -> j <= n ->
  cell (lcs_cell list1 list2 i dp j) i' j'
  = if decide (i' = i /\ j' = j)
    then if bool_decide (list1 !! (i - 1) = list2 !! (j - 1))
         then cell dp (i - 1) (j - 1) + 1
         else Nat.max (cell dp (i - 1) j) (cell dp i (j - 1))
    else cell dp i' j'.
Proof.
  intros [Hlen Hrows] Hi Hj. unfold lcs_cell.
  set (v := if bool_decide (list1 !! (i - 1) = list2 !! (j - 1))
            then cell dp (i - 1) (j - 1) + 1
            else Nat.max (cell dp (i - 1) j) (cell dp i (j - 1))).
  clearbody v. unfold cell.
  destruct (decide (i' = i)) as [-> | Hne].
  - rewrite list_lookup_alter_eq.
    destruct (dp !! i) as [row |] eqn:Hrow.
    + assert (length row = n + 1) as Hr.
      { eapply Forall_lookup_1 in Hrows; [| exact Hrow]. done. }
      cbn. destruct (decide (j' = j)) as [-> | Hnej].
      * rewrite list_lookup_insert_eq by lia. cbn.
        rewrite decide_True by done. done.
      * rewrite list_lookup_insert_ne by done.
        rewrite decide_False by tauto. done.
    + apply lookup_ge_None in Hrow. lia.
  - rewrite list_lookup_alter_ne by done. rewrite decide_False by tauto. done.
Qed.

Lemma foldl_seq_invariant {A : Type} (P : nat -> A -> Prop) (f : A -> nat -> A)
    (len start : nat) (a : A) :
  P start a ->
  (forall k a, start <= k < start + len -> P k a -> P (S k) (f a k)) ->
  P (start + len) (foldl f a (seq start len)).
Proof.
  revert start a. induction len as [| len IH]; intros start a Ha Hf; cbn.
  - by rewrite Nat.add_0_r.
  - replace (start + S len) with (S start + len) by lia.
    apply IH.
    + apply Hf; [lia | done].
    + intros k b Hk. apply Hf. lia.
Qed.

Lemma table_filled_cell (list1 list2 : list string) (i j : nat) (dp : list (list nat)) :
  1 <= i <= length list1 -> 1 <= j <= length list2 ->
  table_shape (length list1) (length list2) dp ->
  table_filled list1 list2 i (j - 1) dp ->
  table_filled list1 list2 i j (lcs_cell list1 list2 i dp j).
Proof.
  intros Hi Hj Hshape Hfilled i' j' Hi' Hj' Hcase.
  rewrite (cell_lcs_cell _ _ _ _ _ _ _ _ _ Hshape) by lia.
  destruct (decide (i' = i /\ j' = j)) as [[-> ->] | Hne].
  - destruct (lookup_lt_is_Some_2 list1 (i - 1)) as [a Ha]; [lia |].
    destruct (lookup_lt_is_Some_2 list2 (j - 1)) as [b Hb]; [lia |].
    assert (take i list1 = take (i - 1) list1 ++ [a]) as Hti.
    { rewrite <- (take_S_r _ _ _ Ha). f_equal. lia. }
    assert (take j list2 = take (j - 1) list2 ++ [b]) as Htj.
    { rewrite <- (take_S_r _ _ _ Hb). f_equal. lia. }
    rewrite Ha, Hb. case_bool_decide as Heq.
    + rewrite Hti, Htj. injection Heq as ->. apply is_lcs_length_snoc_eq.
      apply Hfilled; lia.
    + rewrite Hti, Htj. apply is_lcs_length_snoc_ne; [congruence | |].
      * rewrite <- Htj. apply Hfilled; lia.
      * rewrite <- Hti. apply Hfilled; lia.
  - apply Hfilled; [done | done |]. 
    destruct (decide (i' = i)); destruct (decide (j' = j)); try lia; tauto.
Qed.

Lemma table_filled_row (list1 list2 : list string) (i : nat) (dp : list (list nat)) :
  1 <= i <= length list1 ->
  table_shape (length list1) (length list2) dp /\ table_filled list1 list2 i 0 dp ->
  table_shape (length list1) (length list2) (lcs_row list1 list2 dp i)
  /\ table_filled list1 list2 (S i) 0 (lcs_row list1 list2 dp i).
Proof.
  intros Hi [Hshape Hfilled]. unfold lcs_row.
  pose proof (foldl_seq_invariant
    (fun k dp => table_shape (length list1) (length list2) dp
                 /\ table_filled list1 list2 i (k - 1) dp)
    (lcs_cell list1 list2 i) (length list2) 1 dp) as H.
  destruct H as [Hshape' Hfilled'].
  - done.
  - intros k dp' Hk [Hs Hf]. split; [by apply table_shape_cell |].
    replace (S k - 1) with k by lia. apply table_filled_cell; [done | lia | done | done].
  - split; [done |]. intros i' j' Hi' Hj' Hcase. apply Hfilled'; [done | done |]. lia.
Qed.

Lemma lcs_is_lcs_length (list1 list2 : list string) :
  is_lcs_length (_longest_common_subsequence list1 list2) list1 list2.
Proof.
  unfold _longest_common_subsequence.
  pose proof (foldl_seq_invariant
    (fun i dp => table_shape (length list1) (length list2) dp
                 /\ table_filled list1 list2 i 0 dp)
    (lcs_row list1 list2) (length list1) 1
    (replicate (length list1 + 1) (replicate (length list2 + 1) 0))) as H.
  destruct H as [_ Hfilled].
  - split; [apply table_shape_init |]. intros i' j' _ _ Hcase. rewrite cell_init.
    destruct Hcase as [-> | [-> | Hcase]].
    + apply is_lcs_length_nil_l.
    + rewrite take_0. apply is_lcs_length_nil_r.
    + assert (i' = 0 \/ j' = 0) as [-> | ->] by lia.
      * apply is_lcs_length_nil_l.
      * rewrite take_0. apply is_lcs_length_nil_r.
  - intros k dp Hk Hinv. apply table_filled_row; [lia | done].
  - specialize (Hfilled (length list1) (length list2)).
    rewrite !firstn_all in Hfilled. apply Hfilled; lia.
Qed.

Lemma sublist_same_length {A : Type} (l k : list A) :
  sublist l k -> length l = length k -> l = k.
Proof.
  intros H. induction H as [| x l k H IH | x l k H IH]; cbn; intros Hlen.
  - done.
  - f_equal. apply IH. lia.
  - apply sublist_length in H. lia.
Qed.

Lemma lcs_full_iff_sublist (list1 list2 : list string) :
  _longest_common_subsequence list1 list2 = length list2 <-> sublist list2 list1.
Proof.
  destruct (lcs_is_lcs_length list1 list2) as [(l & H1 & H2 & Hl) Hmax]. split.
  - intros Heq. rewrite <- (sublist_same_length l list2); [done | done | lia].
  - intros Hsub. specialize (Hmax list2 Hsub (reflexivity _)).
    apply sublist_length in H2. lia.
Qed.

(** X5: in the order-sensitive mode with partial matching, an answer is correct
    exactly when the correct tokens occur, in their order, among the
    student's tokens. *)
Theorem X5_ordered_partial_correct_iff_subsequence
    (student_answer correct_answer : answer) (case_sensitive : bool)
    (student_list correct_list : list string) :
  truthy_answer student_answer = true ->
  truthy_answer correct_answer = true ->
  tokens student_answer case_sensitive = Ok student_list ->
  tokens correct_answer case_sensitive = Ok correct_list ->
  correct_list <> [] ->
  (Z.of_nat (length correct_list) < 2 ^ 53)%Z ->
  exists r,
    grade_list student_answer correct_answer true true case_sensitive = Ok r
    /\ (is_correct r = true <-> sublist correct_list student_list).
Proof.
  intros Hs Hc Hsl Hcl Hne Hlen. unfold grade_list, grade_list_in.
  rewrite Hs, Hc, Hsl, Hcl. cbn [negb orb]. rewrite !bind_Ok.
  case_bool_decide as Heq.
  - eexists. split; [reflexivity |]. cbn [is_correct]. by rewrite Heq.
  - pose proof (lcs_le_length student_list correct_list) as Hle.
    pose proof (length_pos_Z correct_list Hne) as Hpos.
    destruct (score_reaches_100
                (Z.of_nat (_longest_common_subsequence student_list correct_list))
                (Z.of_nat (length correct_list))) as (x & Hx & Hiff & _); [lia | lia |].
    rewrite Hx, bind_Ok. eexists. split; [reflexivity |].
    cbn [is_correct]. rewrite Hiff, <- lcs_full_iff_sublist. lia.
Qed.

Lemma X5_witness :
  exists r,
    grade_list (Scalar (PStr "x,a,y,b")) (Scalar (PStr "a,b")) true true false = Ok r
    /\ (is_correct r = true <-> sublist ["a"; "b"] ["x"; "a"; "y"; "b"]).
Proof.
  apply (X5_ordered_partial_correct_iff_subsequence
           (Scalar (PStr "x,a,y,b")) (Scalar (PStr "a,b")) false
           ["x"; "a"; "y"; "b"] ["a"; "b"]).
  - reflexivity.
  - reflexivity.
  - vm_compute. reflexivity.
  - vm_compute. reflexivity.
  - discriminate.
  - vm_compute. reflexivity.
Defined.

(** X6: the order-insensitive mode looks at the sets of tokens only. Two
    calls whose token lists hold the same tokens, in whatever order and
    however often, raise the same exception or return the same
    [is_correct], [score_percentage] and [explanation], and the same
    [matched_items] but for their order, which is that of the process. *)
Theorem X6_unordered_ignores_order_and_duplicates
    (order1 order2 : SetOrder)
    (student1 student2 correct1 correct2 : answer)
    (partial_matching case_sensitive : bool)
    (sl1 sl2 cl1 cl2 : list string) :
  lawful order1 -> lawful order2 ->
  truthy_answer student1 = truthy_answer student2 ->
  truthy_answer correct1 = truthy_answer correct2 ->
  tokens student1 case_sensitive = Ok sl1 ->
  tokens student2 case_sensitive = Ok sl2 ->
  tokens correct1 case_sensitive = Ok cl1 ->
  tokens correct2 case_sensitive = Ok cl2 ->
  (forall t, t ∈ sl1 <-> t ∈ sl2) ->
  (forall t, t ∈ cl1 <-> t ∈ cl2) ->
  same_outcome_but_order
    (grade_list_in order1 student1 correct1 false partial_matching case_sensitive)
    (grade_list_in order2 student2 correct2 false partial_matching case_sensitive).
Proof.
  intros Ho1 Ho2 Hs Hc Hs1 Hs2 Hc1 Hc2 Hsl Hcl.
  by apply (grade_list_in_sets order1 order2 student1 student2 correct1 correct2
              partial_matching case_sensitive sl1 sl2 cl1 cl2).
Qed.

Lemma X6_witness :
  same_outcome_but_order
    (grade_list_in element_order (Scalar (PStr "b, a, b")) (Scalar (PStr "a;b;c"))
       false true false)
    (grade_list_in reverse_order (Scalar (PStr "a,b")) (Scalar (PStr "c,b,a"))
       false true false).
Proof.
  apply (X6_unordered_ignores_order_and_duplicates element_order reverse_order
           (Scalar (PStr "b, a, b")) (Scalar (PStr "a,b"))
           (Scalar (PStr "a;b;c")) (Scalar (PStr "c,b,a")) true false
           ["b"; "a"; "b"] ["a"; "b"] ["a"; "b"; "c"] ["c"; "b"; "a"]).
  - exact element_order_lawful.
  - exact reverse_order_lawful.
  - reflexivity.
  - reflexivity.
  - vm_compute. reflexivity.
  - vm_compute. reflexivity.
  - vm_compute. reflexivity.
  - vm_compute. reflexivity.
  - intros t. rewrite !elem_of_cons, !elem_of_nil. tauto.
  - intros t. rewrite !elem_of_cons, !elem_of_nil. tauto.
Defined.

(** *** What the graders return and raise *)

Lemma returns_Ok (P : GradingResult -> Prop) (r : GradingResult) :
  P r -> returns_only P (Ok r).
Proof. intros H r' [= <-]. exact H. Qed.

Lemma returns_Raise (P : GradingResult -> Prop) (e : exn) : returns_only P (Raise e).
Proof. intros r H. discriminate H. Qed.

Lemma returns_bind {A : Type} (P : GradingResult -> Prop) (m : outcome A)
    (f : A -> outcome GradingResult) :
  (forall a, m = Ok a -> returns_only P (f a)) -> returns_only P (m ≫= f).
Proof. intros H. destruct m as [a | e]; [apply H; reflexivity | apply returns_Raise]. Qed.

Lemma returns_if (P : GradingResult -> Prop) (b : bool) (x y : outcome GradingResult) :
  returns_only P x -> returns_only P y -> returns_only P (if b then x else y).
Proof. destruct b; done. Qed.

Lemma raises_Ok {A : Type} (Q : exn -> Prop) (a : A) : raises_only Q (Ok a).
Proof. intros e H. discriminate H. Qed.

Lemma raises_Raise {A : Type} (Q : exn -> Prop) (e : exn) :
  Q e -> raises_only Q (Raise e : outcome A).
Proof. intros H e' [= <-]. exact H. Qed.

Lemma raises_bind {A B : Type} (Q : exn -> Prop) (m : outcome A) (f : A -> outcome B) :
  raises_only Q m -> (forall a, m = Ok a -> raises_only Q (f a)) ->
  raises_only Q (m ≫= f).
Proof.
  intros Hm Hf. destruct m as [a | e]; [apply Hf; reflexivity |].
  intros e' [= <-]. apply Hm. reflexivity.
Qed.

Lemma raises_if {A : Type} (Q : exn -> Prop) (b : bool) (x y : outcome A) :
  raises_only Q x -> raises_only Q y -> raises_only Q (if b then x else y).
Proof. destruct b; done. Qed.

Lemma raises_weaken {A : Type} (Q Q' : exn -> Prop) (o : outcome A) :
  (forall e, Q e -> Q' e) -> raises_only Q o -> raises_only Q' o.
Proof. intros H Ho e He. apply H, Ho, He. Qed.

(** *** Comparisons of floats *)

Lemma SFcompare_antisym (x y : float) (c : comparison) :
  SFcompare x y = Some c -> SFcompare y x = Some (CompOpp c).
Proof.
  destruct x as [sx | sx | | sx mx ex], y as [sy | sy | | sy my ey]; cbn;
    try discriminate; intros [= <-]; try (destruct sx; reflexivity);
    try (destruct sy; reflexivity); try (destruct sx, sy; reflexivity).
  f_equal.
  change (PosDef.Pos.compare_cont Eq my mx) with (Pos.compare my mx).
  change (PosDef.Pos.compare_cont Eq mx my) with (Pos.compare mx my).
  rewrite (Z.compare_antisym ex ey), (Pos.compare_antisym mx my).
  destruct sx, sy; try reflexivity; destruct (ex ?= ey)%Z; cbn;
    rewrite ?CompOpp_involutive; reflexivity.
Qed.

Lemma eqb_of_le (x y : float) :
  PyFloat.le x y = true -> PyFloat.eqb x y = PyFloat.ge x y.
Proof.
  unfold PyFloat.le, PyFloat.eqb, PyFloat.ge, SFleb, SFeqb.
  destruct (SFcompare x y) as [c |] eqn:Hc; [| discriminate].
  rewrite (SFcompare_antisym _ _ _ Hc). destruct c; done.
Qed.

Lemma full_score_100 : PyFloat.eqb f_100_0 f_100_0 = true.
Proof. vm_compute. reflexivity. Qed.

Lemma full_score_0 : PyFloat.eqb f_0_0 f_100_0 = false.
Proof. vm_compute. reflexivity. Qed.

Lemma grade_numerical_try_full_score (s c : pyval) (rs : bool) (tp : pyval)
    (ar : option AnswerRange) :
  returns_only correct_is_full_score (grade_numerical_try s c rs tp ar).
Proof.
  unfold grade_numerical_try.
  apply returns_if; [apply returns_Ok; symmetry; apply full_score_100 |].
  apply returns_bind; intros sv _. apply returns_bind; intros cv _.
  apply returns_if.
  - apply returns_bind; intros [[mn mx] tol] _.
    apply returns_if; [apply returns_Ok; symmetry; apply full_score_100 |].
    apply returns_bind; intros pt _.
    apply returns_if; [| apply returns_Ok; symmetry; apply full_score_0].
    apply returns_bind; intros fr _.
    apply returns_if; apply returns_Ok; symmetry;
      [apply full_score_100 | apply full_score_0].
  - apply returns_if; apply returns_Ok; symmetry;
      [apply full_score_100 | apply full_score_0].
Qed.

Lemma partial_score_full (k n : Z) (x : float) :
  (0 <= k <= n)%Z -> (0 < n < 2 ^ 53)%Z -> PyFloat.int_true_div k n = Ok x ->
  PyFloat.ge (PyFloat.mul x f_100_0) f_100_0
  = PyFloat.eqb (PyFloat.mul x f_100_0) f_100_0.
Proof.
  intros Hk Hn Hx.
  destruct (score_reaches_100 k n Hk Hn) as (y & Hy & _ & _ & Hle).
  rewrite Hy in Hx. injection Hx as <-. symmetry. by apply eqb_of_le.
Qed.

Lemma grade_list_full_score (sa ca : answer) (os pm cs : bool) :
  (forall cl, tokens ca cs = Ok cl -> (Z.of_nat (length cl) < 2 ^ 53)%Z) ->
  returns_only correct_is_full_score (grade_list sa ca os pm cs).
Proof.
  intros Hlen. unfold grade_list, grade_list_in.
  apply returns_if; [apply returns_Ok; symmetry; apply full_score_0 |].
  apply returns_bind; intros sl _. apply returns_bind; intros cl Hcl.
  specialize (Hlen cl Hcl).
  apply returns_if.
  - apply returns_if; [apply returns_Ok; symmetry; apply full_score_100 |].
    apply returns_if; [| apply returns_Ok; symmetry; apply full_score_0].
    apply returns_bind; intros x Hx. apply returns_Ok.
    unfold correct_is_full_score. cbn [is_correct score_percentage].
    destruct cl as [| t cl']; [discriminate Hx |].
    pose proof (lcs_le_length sl (t :: cl')) as Hle.
    apply (partial_score_full
             (Z.of_nat (_longest_common_subsequence sl (t :: cl')))
             (Z.of_nat (length (t :: cl')))); [lia | cbn [length] in *; lia | exact Hx].
  - apply returns_if; [apply returns_Ok; symmetry; apply full_score_100 |].
    apply returns_if; [| apply returns_Ok; symmetry; apply full_score_0].
    apply returns_bind; intros x Hx. apply returns_Ok.
    unfold correct_is_full_score. cbn [is_correct score_percentage].
    destruct cl as [| t cl']; [discriminate Hx |].
    pose proof (size_matched (list_to_set sl) (list_to_set (t :: cl'))) as [Hle _].
    pose proof (size_list_to_set_le (t :: cl')) as Hsz.
    pose proof (size_list_to_set_pos (t :: cl') ltac:(done)) as Hpos.
    apply (partial_score_full
             (Z.of_nat (size (list_to_set sl ∩ list_to_set (t :: cl') : gset string)))
             (Z.of_nat (size (list_to_set (t :: cl') : gset string))));
      [lia | lia | exact Hx].
Qed.

(** X7: for the three graders that do not consult the oracle, [is_correct] and
    [score_percentage == 100.0] say the same. *)
Theorem X7_correct_iff_full_score :
  (forall s c cs, correct_is_full_score (grade_one_word s c cs))
  /\ (forall s c rs tp ar, returns_only correct_is_full_score (grade_numerical s c rs tp ar))
  /\ (forall sa ca os pm cs,
        (forall cl, tokens ca cs = Ok cl -> (Z.of_nat (length cl) < 2 ^ 53)%Z) ->
        returns_only correct_is_full_score (grade_list sa ca os pm cs)).
Proof.
  split; [| split].
  - intros s c cs. unfold grade_one_word, correct_is_full_score.
    destruct (negb (truthy s) || negb (truthy c)); [symmetry; apply full_score_0 |].
    cbn [is_correct score_percentage].
    destruct (String.eqb _ _); symmetry; [apply full_score_100 | apply full_score_0].
  - intros s c rs tp ar. unfold grade_numerical.
    pose proof (grade_numerical_try_full_score s c rs tp ar) as H.
    destruct (grade_numerical_try s c rs tp ar) as [r | []]; try exact H;
      apply returns_Ok; symmetry; apply full_score_0.
  - exact grade_list_full_score.
Qed.

Lemma X7_witness :
  returns_only correct_is_full_score
    (grade_list (Items [PStr "Red"; PStr "Blue"; PStr "Green"])
       (Items [PStr "Red"; PStr "Blue"]) false true false).
Proof.
  apply (proj2 (proj2 X7_correct_iff_full_score)).
  intros cl [= <-]. vm_compute. reflexivity.
Defined.

(** *** The exceptions of [grade_list] and [grade_numerical] *)

Lemma tokens_raises (a : answer) (cs : bool) :
  raises_only (fun e => is_TypeError e /\ iterable a = false) (tokens a cs).
Proof.
  destruct a as [[] | l]; cbn [tokens]; try apply raises_Ok;
    apply raises_Raise; split; try reflexivity; eexists; reflexivity.
Qed.

Lemma partial_ratio_raises (k n : Z) :
  (0 <= k <= n)%Z -> (n < 2 ^ 53)%Z ->
  raises_only (fun e => is_ZeroDivisionError e /\ n = 0%Z) (PyFloat.int_true_div k n).
Proof.
  intros Hk Hn. destruct (Z.eq_dec n 0%Z) as [-> | Hne].
  - apply raises_Raise. split; [eexists |]; reflexivity.
  - destruct (score_reaches_100 k n) as (x & -> & _); [lia | lia |]. apply raises_Ok.
Qed.

(** X8: on answers whose list items [str] converts (no [int] of more than
    4300 digits among them), [grade_list] raises in two situations only: an
    answer that is neither a [str] nor a list (a [TypeError]), and, with
    partial matching, a correct answer without any token (a
    [ZeroDivisionError]). *)
Theorem X8_grade_list_raises_only
    (student_answer correct_answer : answer)
    (order_sensitive partial_matching case_sensitive : bool) :
  items_str_succeed student_answer = true ->
  items_str_succeed correct_answer = true ->
  (forall cl, tokens correct_answer case_sensitive = Ok cl ->
              (Z.of_nat (length cl) < 2 ^ 53)%Z) ->
  raises_only
    (fun e =>
       (is_TypeError e /\ (iterable student_answer = false \/ iterable correct_answer = false))
       \/ (is_ZeroDivisionError e /\ partial_matching = true
           /\ tokens correct_answer case_sensitive = Ok []))
    (grade_list student_answer correct_answer order_sensitive partial_matching
       case_sensitive).
Proof.
  intros _ _ Hlen. unfold grade_list, grade_list_in.
  apply raises_if; [apply raises_Ok |].
  apply raises_bind.
  { eapply raises_weaken; [| apply tokens_raises]. intros e [H1 H2]. left. tauto. }
  intros sl _. apply raises_bind.
  { eapply raises_weaken; [| apply tokens_raises]. intros e [H1 H2]. left. tauto. }
  intros cl Hcl. specialize (Hlen cl Hcl).
  apply raises_if.
  - apply raises_if; [apply raises_Ok |].
    destruct partial_matching; [| apply raises_Ok].
    apply raises_bind; [| intros; apply raises_Ok].
    pose proof (lcs_le_length sl cl) as Hle.
    eapply raises_weaken; [| apply partial_ratio_raises; lia].
    intros e [He Hz]. right. split; [done |]. split; [done |].
    destruct cl; [done | cbn [length] in Hz; lia].
  - apply raises_if; [apply raises_Ok |].
    destruct partial_matching; [| apply raises_Ok].
    apply raises_bind; [| intros; apply raises_Ok].
    pose proof (size_matched (list_to_set sl) (list_to_set cl)) as [Hle _].
    pose proof (size_list_to_set_le cl) as Hsz.
    eapply raises_weaken; [| apply partial_ratio_raises; lia].
    intros e [He Hz]. right. split; [done |]. split; [done |].
    destruct cl as [| t cl']; [done |].
    pose proof (size_list_to_set_pos (t :: cl') ltac:(done)). lia.
Qed.

Lemma X8_witness :
  raises_only
    (fun e =>
       (is_TypeError e
        /\ (iterable (Items [PInt 7; PStr "a"]) = false \/ iterable (Scalar (PStr ",")) = false))
       \/ (is_ZeroDivisionError e /\ true = true
           /\ tokens (Scalar (PStr ",")) false = Ok []))
    (grade_list (Items [PInt 7; PStr "a"]) (Scalar (PStr ",")) false true false).
Proof.
  apply (X8_grade_list_raises_only (Items [PInt 7; PStr "a"]) (Scalar (PStr ","))
           false true false).
  - vm_compute. reflexivity.
  - reflexivity.
  - intros cl [= <-]. vm_compute. reflexivity.
Defined.

Lemma of_string_raises (s : string) : raises_only is_ValueError (PyFloat.of_string s).
Proof.
  unfold PyFloat.of_string. destruct (PyFloat.parse s); [apply raises_Ok |].
  apply raises_Raise. eexists. reflexivity.
Qed.

Lemma of_int_raises (z : Z) : raises_only is_OverflowError (PyFloat.of_int z).
Proof.
  unfold PyFloat.of_int. destruct (PyFloat.is_inf _); [| apply raises_Ok].
  apply raises_Raise. eexists. reflexivity.
Qed.

Lemma to_float_raises (v : pyval) : raises_only numerical_exn (to_float v).
Proof.
  destruct v as [| s | z | x]; cbn [to_float].
  - apply raises_Raise. right. left. eexists. reflexivity.
  - eapply raises_weaken; [| apply of_string_raises]. intros e H. by left.
  - eapply raises_weaken; [| apply of_int_raises]. intros e H. right. by right.
  - apply raises_Ok.
Qed.

Lemma resolve_range_raises (tp : pyval) (ar : option AnswerRange) :
  raises_only numerical_exn (resolve_range tp ar).
Proof.
  unfold resolve_range. destruct (range_given ar) as [r |]; [| apply raises_Ok].
  apply raises_bind; [apply to_float_raises |]. intros mn _.
  apply raises_bind; [apply to_float_raises |]. intros mx _. apply raises_Ok.
Qed.

Lemma gt_zero_raises (v : pyval) : raises_only numerical_exn (gt_zero v).
Proof.
  destruct v; cbn [gt_zero]; try apply raises_Ok;
    apply raises_Raise; right; left; eexists; reflexivity.
Qed.

Lemma div_100_raises (v : pyval) : raises_only numerical_exn (div_100 v).
Proof.
  destruct v as [| s | z | x]; cbn [div_100]; try apply raises_Ok;
    try (apply raises_Raise; right; left; eexists; reflexivity).
  unfold PyFloat.int_true_div.
  destruct z; try apply raises_Ok;
    (destruct (PyFloat.is_inf _); [| apply raises_Ok]);
    apply raises_Raise; right; right; eexists; reflexivity.
Qed.

Lemma grade_numerical_try_raises (s c : pyval) (rs : bool) (tp : pyval)
    (ar : option AnswerRange) :
  raises_only (fun e => is_ValueError e \/ is_TypeError e \/ (is_OverflowError e /\ rs = true))
    (grade_numerical_try s c rs tp ar).
Proof.
  unfold grade_numerical_try.
  apply raises_if; [apply raises_Ok |].
  apply raises_bind.
  { eapply raises_weaken; [| apply of_string_raises]. intros e H. by left. }
  intros sv _. apply raises_bind.
  { eapply raises_weaken; [| apply of_string_raises]. intros e H. by left. }
  intros cv _. destruct rs.
  - assert (forall e, numerical_exn e ->
              is_ValueError e \/ is_TypeError e \/ is_OverflowError e /\ true = true) as Hw.
    { intros e [H | [H | H]]; tauto. }
    apply raises_bind; [eapply raises_weaken; [exact Hw | apply resolve_range_raises] |].
    intros [[mn mx] tol] _.
    apply raises_if; [apply raises_Ok |].
    apply raises_bind; [eapply raises_weaken; [exact Hw | apply gt_zero_raises] |].
    intros pt _. apply raises_if; [| apply raises_Ok].
    apply raises_bind; [eapply raises_weaken; [exact Hw | apply div_100_raises] |].
    intros fr _. apply raises_if; apply raises_Ok.
  - apply raises_if; apply raises_Ok.
Qed.

(** X9: [grade_numerical] never raises when [range_sensitive] is false; when it
    is true, the only exception that escapes is the [OverflowError] of an
    [int] bound or tolerance too large for a float. *)
Theorem X9_grade_numerical_raises_only
    (student_answer correct_answer : pyval) (range_sensitive : bool)
    (tolerance_percent : pyval) (answer_range : option AnswerRange) :
  raises_only (fun e => is_OverflowError e /\ range_sensitive = true)
    (grade_numerical student_answer correct_answer range_sensitive tolerance_percent
       answer_range)
  /\ (range_sensitive = false ->
      exists r, grade_numerical student_answer correct_answer range_sensitive
                  tolerance_percent answer_range = Ok r).
Proof.
  assert (raises_only (fun e => is_OverflowError e /\ range_sensitive = true)
            (grade_numerical student_answer correct_answer range_sensitive
               tolerance_percent answer_range)) as H.
  { unfold grade_numerical.
    pose proof (grade_numerical_try_raises student_answer correct_answer range_sensitive
                  tolerance_percent answer_range) as H.
    destruct (grade_numerical_try _ _ _ _ _) as [r | e]; [apply raises_Ok |].
    specialize (H e eq_refl).
    destruct e; try apply raises_Ok; apply raises_Raise;
      destruct H as [[m H] | [[m H] | [[m H] Hrs]]]; try discriminate H;
      split; [eexists; reflexivity | done]. }
  split; [exact H |]. intros Hrs.
  destruct (grade_numerical _ _ _ _ _) as [r | e]; [by exists r |].
  destruct (H e eq_refl) as [_ Hrs']. congruence.
Qed.

Lemma X9_witness :
  exists r, grade_numerical (PStr "12 apples") PNone false (PStr "x") None = Ok r.
Proof.
  apply (proj2 (X9_grade_numerical_raises_only (PStr "12 apples") PNone false (PStr "x") None)).
  reflexivity.
Defined.

(** *** Not a number *)

Lemma le_nan_r (x : float) : PyFloat.le x PyFloat.nan = false.
Proof. destruct x as [[] | [] | | [] m e]; reflexivity. Qed.

Lemma le_nan_l (x : float) : PyFloat.le PyFloat.nan x = false.
Proof. reflexivity. Qed.

Lemma difference_nan (x : float) : PyFloat.abs (PyFloat.sub PyFloat.nan x) = PyFloat.nan.
Proof. reflexivity. Qed.

(** X10: a student answer that reads as NaN is never graded correct by
    [grade_numerical], in any mode, unless its text is that of the correct
    answer. *)
Theorem X10_nan_is_never_correct
    (student_answer correct_answer : pyval) (range_sensitive : bool)
    (tolerance_percent : pyval) (answer_range : option AnswerRange)
    (student_value : float) :
  String.eqb (clean_number student_answer) (clean_number correct_answer) = false ->
  PyFloat.parse (clean_number student_answer) = Some student_value ->
  PyFloat.is_nan student_value = true ->
  returns_only (fun r => is_correct r = false)
    (grade_numerical student_answer correct_answer range_sensitive tolerance_percent
       answer_range).
Proof.
  intros Hdiff Hs Hnan. destruct student_value; try discriminate Hnan.
  assert (returns_only (fun r => is_correct r = false)
            (grade_numerical_try student_answer correct_answer range_sensitive
               tolerance_percent answer_range)) as H.
  { unfold grade_numerical_try. rewrite Hdiff, (of_string_parse _ _ Hs), bind_Ok.
    apply returns_bind; intros cv _.
    apply returns_if.
    - apply returns_bind; intros [[mn mx] tol] _.
      change S754_nan with PyFloat.nan. rewrite le_nan_r. cbn [andb].
      apply returns_bind; intros pt _.
      apply returns_if; [| by apply returns_Ok].
      apply returns_bind; intros fr _. rewrite le_nan_r. cbn [andb].
      by apply returns_Ok.
    - change S754_nan with PyFloat.nan. rewrite difference_nan, le_nan_l.
      by apply returns_Ok. }
  unfold grade_numerical.
  destruct (grade_numerical_try _ _ _ _ _) as [r | []]; try exact H;
    by apply returns_Ok.
Qed.

Lemma X10_witness :
  returns_only (fun r => is_correct r = false)
    (grade_numerical (PStr "nan") (PStr "7") true (PInt 50) None).
Proof.
  apply (X10_nan_is_never_correct (PStr "nan") (PStr "7") true (PInt 50) None PyFloat.nan);
    vm_compute; reflexivity.
Defined.

(** *** The semantic grader and the world *)

(** X11: on two answers that [str] converts (the prompt holds their texts),
    [grade_short_phrase] consults the oracle once, or not at all when an
    answer is missing; it leaves the oracle as it was and prints at most one
    line; the score is the confidence times 100; and an answer is correct
    only if the confidence reaches the threshold. *)
Theorem X11_short_phrase_frame
    (student_answer correct_answer : pyval) (question_text : option string)
    (semantic_threshold : float) (w : World) :
  str_succeeds student_answer = true ->
  str_succeeds correct_answer = true ->
  let '(r, w') :=
    grade_short_phrase student_answer correct_answer question_text semantic_threshold w in
  oracle w' = oracle w
  /\ calls w' = calls w + (if truthy student_answer && truthy correct_answer then 1 else 0)
  /\ (stdout w' = stdout w \/ exists line, stdout w' = stdout w ++ [line])
  /\ (exists c, confidence r = Some c
        /\ score_percentage r = PyFloat.mul c f_100_0
        /\ (is_correct r = true -> PyFloat.ge c semantic_threshold = true)).
Proof.
  intros _ _. unfold grade_short_phrase.
  destruct (truthy student_answer), (truthy correct_answer); cbn [negb orb andb];
    try (split; [reflexivity |]; split; [cbn; lia |]; split; [by left |];
         exists f_0_0; split; [reflexivity |]; split; [reflexivity | discriminate]).
  unfold _check_meaning_with_ollama, ollama_chat.
  destruct (oracle w (calls w) _) as [reply | e]; cbn [mbind outcome_bind].
  - unfold read_confidence.
    destruct (match re_search re_confidence (PyStr.strip reply) with
              | Some m => _ | None => _ end) as [c | e]; cbn [mbind outcome_bind].
    + split; [reflexivity |]. split; [cbn; lia |]. split; [by left |].
      exists c. split; [reflexivity |]. split; [reflexivity |]. cbn [is_correct]. done.
    + split; [reflexivity |]. split; [cbn; lia |]. split; [right; eexists; reflexivity |].
      exists f_0_0. split; [reflexivity |]. split; [reflexivity | discriminate].
  - split; [reflexivity |]. split; [cbn; lia |]. split; [right; eexists; reflexivity |].
    exists f_0_0. split; [reflexivity |]. split; [reflexivity | discriminate].
Qed.

Lemma X11_witness :
  let '(r, w') :=
    grade_short_phrase (PInt 42) (PStr "forty-two") None f_0_7 (constant_oracle (Ok "0.9")) in
  oracle w' = oracle (constant_oracle (Ok "0.9"))
  /\ calls w' = calls (constant_oracle (Ok "0.9"))
                + (if truthy (PInt 42) && truthy (PStr "forty-two") then 1 else 0)
  /\ (stdout w' = stdout (constant_oracle (Ok "0.9"))
      \/ exists line, stdout w' = (stdout (constant_oracle (Ok "0.9")) ++ [line])%list)
  /\ (exists c, confidence r = Some c
        /\ score_percentage r = PyFloat.mul c f_100_0
        /\ (is_correct r = true -> PyFloat.ge c f_0_7 = true)).
Proof.
  apply (X11_short_phrase_frame (PInt 42) (PStr "forty-two") None f_0_7
           (constant_oracle (Ok "0.9"))).
  - vm_compute. reflexivity.
  - reflexivity.
Defined.

(** *** Trimming and lower case *)

Lemma isspace_lower_char (c : ascii) : PyStr.isspace (PyStr.lower_char c) = PyStr.isspace c.
Proof. destruct c as [[] [] [] [] [] [] [] []]; reflexivity. Qed.

Lemma lower_char_idem (c : ascii) :
  PyStr.lower_char (PyStr.lower_char c) = PyStr.lower_char c.
Proof. destruct c as [[] [] [] [] [] [] [] []]; reflexivity. Qed.

Lemma lower_idem (s : string) : PyStr.lower (PyStr.lower s) = PyStr.lower s.
Proof.
  induction s as [| c r IH]; cbn [PyStr.lower]; [done |].
  by rewrite lower_char_idem, IH.
Qed.

Lemma lower_lstrip (s : string) : PyStr.lower (PyStr.lstrip s) = PyStr.lstrip (PyStr.lower s).
Proof.
  induction s as [| c r IH]; cbn [PyStr.lower PyStr.lstrip]; [done |].
  rewrite isspace_lower_char. destruct (PyStr.isspace c); [exact IH | reflexivity].
Qed.

Lemma lower_rstrip (s : string) : PyStr.lower (PyStr.rstrip s) = PyStr.rstrip (PyStr.lower s).
Proof.
  induction s as [| c r IH]; cbn [PyStr.lower PyStr.rstrip]; [done |].
  rewrite <- IH, isspace_lower_char.
  destruct (PyStr.rstrip r) as [| d r']; cbn [PyStr.lower]; [| reflexivity].
  destruct (PyStr.isspace c); reflexivity.
Qed.

Lemma lower_strip (s : string) : PyStr.lower (PyStr.strip s) = PyStr.strip (PyStr.lower s).
Proof. unfold PyStr.strip. by rewrite lower_rstrip, lower_lstrip. Qed.

Lemma lower_empty (s : string) : PyStr.is_empty (PyStr.lower s) = PyStr.is_empty s.
Proof. destruct s; reflexivity. Qed.

Lemma rstrip_cons (c : ascii) (r : string) :
  PyStr.isspace c = false -> PyStr.rstrip (String c r) = String c (PyStr.rstrip r).
Proof.
  intros Hc. cbn [PyStr.rstrip]. rewrite Hc. destruct (PyStr.rstrip r); reflexivity.
Qed.

Lemma rstrip_idem (s : string) : PyStr.rstrip (PyStr.rstrip s) = PyStr.rstrip s.
Proof.
  induction s as [| c r IH]; [done |].
  destruct (PyStr.isspace c) eqn:Hc.
  - cbn [PyStr.rstrip]. rewrite Hc. destruct (PyStr.rstrip r) as [| d r'] eqn:Hr; [done |].
    cbn [PyStr.rstrip]. cbn [PyStr.rstrip] in IH. by rewrite IH.
  - by rewrite !(rstrip_cons c _ Hc), IH.
Qed.

Lemma lstrip_head (s : string) :
  match PyStr.lstrip s with
  | EmptyString => True
  | String c _ => PyStr.isspace c = false
  end.
Proof.
  induction s as [| c r IH]; cbn [PyStr.lstrip]; [done |].
  destruct (PyStr.isspace c) eqn:Hc; [exact IH | exact Hc].
Qed.

Lemma strip_idem (s : string) : PyStr.strip (PyStr.strip s) = PyStr.strip s.
Proof.
  unfold PyStr.strip. pose proof (lstrip_head s) as H.
  destruct (PyStr.lstrip s) as [| c r]; [done |].
  rewrite (rstrip_cons c r H). cbn [PyStr.lstrip]. rewrite H.
  rewrite (rstrip_cons c _ H). by rewrite rstrip_idem.
Qed.

Lemma lstrip_blank (p s : string) :
  blank p = true -> PyStr.lstrip (p +:+ s) = PyStr.lstrip s.
Proof.
  induction p as [| c r IH]; [done |].
  change (String c r +:+ s) with (String c (r +:+ s)). cbn [blank PyStr.lstrip].
  destruct (PyStr.isspace c); [exact IH | discriminate].
Qed.

Lemma rstrip_blank_only (p : string) : blank p = true -> PyStr.rstrip p = "".
Proof.
  induction p as [| c r IH]; cbn [blank PyStr.rstrip]; [done |].
  destruct (PyStr.isspace c); [| discriminate]. cbn [andb]. intros H. by rewrite IH.
Qed.

Lemma rstrip_blank (s p : string) :
  blank p = true -> PyStr.rstrip (s +:+ p) = PyStr.rstrip s.
Proof.
  intros Hp. induction s as [| c r IH].
  - cbn. by apply rstrip_blank_only.
  - change (String c r +:+ p) with (String c (r +:+ p)). cbn [PyStr.rstrip]. by rewrite IH.
Qed.

Lemma lstrip_blank_only (p : string) : blank p = true -> PyStr.lstrip p = "".
Proof.
  induction p as [| c r IH]; cbn [blank PyStr.lstrip]; [done |].
  destruct (PyStr.isspace c); [exact IH | discriminate].
Qed.

Lemma lstrip_app_blank (s p : string) :
  blank p = true -> exists q, blank q = true /\ PyStr.lstrip (s +:+ p) = PyStr.lstrip s +:+ q.
Proof.
  intros Hp. induction s as [| c r IH].
  - exists "". split; [done |]. change ("" +:+ p) with p.
    by rewrite lstrip_blank_only.
  - change (String c r +:+ p) with (String c (r +:+ p)). cbn [PyStr.lstrip].
    destruct (PyStr.isspace c); [exact IH |]. by exists p.
Qed.

Lemma strip_blank (p1 s p2 : string) :
  blank p1 = true -> blank p2 = true -> PyStr.strip (p1 +:+ s +:+ p2) = PyStr.strip s.
Proof.
  intros H1 H2. unfold PyStr.strip. rewrite lstrip_blank by done.
  destruct (lstrip_app_blank s p2 H2) as (q & Hq & ->). by apply rstrip_blank.
Qed.

(** X12: [grade_one_word] treats its two answers alike, and gives the same result
    when a non-empty answer is padded with whitespace or, unless the
    comparison is case sensitive, put in lower case. *)
Theorem X12_one_word_ignores_padding_and_case
    (s : string) (c : pyval) (case_sensitive : bool) (p1 p2 : string) :
  s <> "" -> blank p1 = true -> blank p2 = true ->
  grade_one_word (PStr (p1 +:+ s +:+ p2)) c case_sensitive
  = grade_one_word (PStr s) c case_sensitive
  /\ grade_one_word (PStr (PyStr.lower s)) c false = grade_one_word (PStr s) c false
  /\ grade_one_word c (PStr s) case_sensitive = grade_one_word (PStr s) c case_sensitive.
Proof.
  intros Hs H1 H2. unfold grade_one_word. cbn [truthy str].
  assert (PyStr.is_empty (p1 +:+ s +:+ p2) = false) as ->.
  { destruct p1; [destruct s; [done | reflexivity] | reflexivity]. }
  assert (PyStr.is_empty s = false) as Hne by (by destruct s).
  rewrite lower_empty, Hne, strip_blank by done. cbn [negb orb].
  split; [reflexivity |]. split.
  - cbn [negb]. by rewrite <- lower_strip, lower_idem.
  - rewrite orb_false_r. destruct (negb (truthy c)); [reflexivity |].
    rewrite String.eqb_sym. reflexivity.
Qed.

Lemma X12_witness :
  grade_one_word (PStr ("  " +:+ "Paris" +:+ " ")) (PStr "paris") false
  = grade_one_word (PStr "Paris") (PStr "paris") false
  /\ grade_one_word (PStr (PyStr.lower "Paris")) (PStr "paris") false
     = grade_one_word (PStr "Paris") (PStr "paris") false
  /\ grade_one_word (PStr "paris") (PStr "Paris") false
     = grade_one_word (PStr "Paris") (PStr "paris") false.
Proof.
  apply (X12_one_word_ignores_padding_and_case "Paris" (PStr "paris") false "  " " ");
    [discriminate | reflexivity | reflexivity].
Defined.

(** *** The tokens of an answer *)

Lemma normal_token_strip (cs : bool) (s : string) :
  normal_token cs (if negb cs then PyStr.lower (PyStr.strip s) else PyStr.strip s).
Proof.
  destruct cs; cbn [negb]; split; try done.
  - apply strip_idem.
  - by rewrite <- lower_strip, strip_idem.
  - intros _. apply lower_idem.
Qed.

Lemma not_empty (s : string) : PyStr.is_empty s = false -> s <> "".
Proof. by destruct s. Qed.

Lemma list_line_item_spec (line t : string) :
  list_line_item line = Some t -> exists g, t = PyStr.strip g /\ t <> "".
Proof.
  unfold list_line_item. destruct (re_match re_list_item line) as [m |]; [| done].
  destruct (group1 line m) as [g |]; [| done].
  destruct (PyStr.is_empty (PyStr.strip g)) eqn:He; [done |].
  intros [= <-]. exists g. split; [done | by apply not_empty].
Qed.

Lemma clean_item_spec (cs : bool) (item t : string) :
  clean_item cs item = Some t -> normal_token cs t /\ t <> "".
Proof.
  unfold clean_item.
  set (clean := PyStr.strip _).
  destruct (PyStr.is_empty clean) eqn:He; [done |]. intros [= <-]. split.
  - apply (normal_token_strip cs).
  - apply not_empty. destruct cs; cbn [negb]; [done |]. by rewrite lower_empty.
Qed.

(** X13: every token that [_normalize_list_items] returns is non-empty and in
    normal form; the tokens of a list of items are in normal form. *)
Theorem X13_tokens_are_normalized (a : answer) (case_sensitive : bool) (l : list string)
    (t : string) :
  tokens a case_sensitive = Ok l -> t ∈ l ->
  normal_token case_sensitive t
  /\ (forall s, a = Scalar (PStr s) -> t <> "").
Proof.
  intros Htok Ht. destruct a as [[| s | z | x] | items]; try discriminate Htok.
  - injection Htok as <-.
    assert (normal_token case_sensitive t /\ t <> "") as [H1 H2]; [| by split].
    assert (forall u, u ∈ omap (clean_item case_sensitive) (re_split re_delimiters s) ->
                      normal_token case_sensitive u /\ u <> "") as Hsplit.
    { intros u Hu. apply list_elem_of_omap in Hu as (item & _ & Hitem).
      by apply clean_item_spec in Hitem. }
    unfold _normalize_list_items in Ht.
    destruct (is_some _ || is_some _); [| by apply Hsplit].
    destruct (omap list_line_item (PyStr.split_char PyStr.newline s)) as [| i0 rest] eqn:Hitems;
      [by apply Hsplit |].
    rewrite <- Hitems in Ht. clear Hitems.
    assert (forall u, u ∈ omap list_line_item (PyStr.split_char PyStr.newline s) ->
                      exists g, u = PyStr.strip g /\ u <> "") as Hline.
    { intros u Hu. apply list_elem_of_omap in Hu as (line & _ & Hl).
      by apply list_line_item_spec in Hl. }
    destruct case_sensitive; cbn [negb] in Ht.
    + destruct (Hline t Ht) as (g & -> & Hne). split; [| done].
      apply (normal_token_strip true).
    + apply list_elem_of_fmap in Ht as (u & -> & Hu).
      destruct (Hline u Hu) as (g & -> & Hne). split.
      * apply (normal_token_strip false).
      * apply not_empty. rewrite lower_empty. by destruct (PyStr.strip g).
  - injection Htok as <-. split; [| discriminate].
    destruct case_sensitive; cbn [negb] in Ht.
    + apply list_elem_of_fmap in Ht as (v & -> & _). apply (normal_token_strip true).
    + apply list_elem_of_fmap in Ht as (u & -> & Hu).
      apply list_elem_of_fmap in Hu as (v & -> & _). apply (normal_token_strip false).
Qed.

Lemma X13_witness :
  normal_token false "blue"
  /\ (forall s, Scalar (PStr "1. Red
2.  BLUE ") = Scalar (PStr s) -> "blue" <> "").
Proof.
  apply (X13_tokens_are_normalized (Scalar (PStr "1. Red
2.  BLUE ")) false ["red"; "blue"] "blue").
  - vm_compute. reflexivity.
  - apply list_elem_of_In. right. left. reflexivity.
Defined.

(** *** The model answer *)

Lemma model_answer_is_correct_lemma :
  (forall v cs, str_succeeds v = true -> is_correct (grade_one_word v v cs) = truthy v)
  /\ (forall v rs tp ar,
        str_succeeds v = true ->
        exists r, grade_numerical v v rs tp ar = Ok r /\ is_correct r = true)
  /\ (forall a os pm cs,
        items_str_succeed a = true ->
        truthy_answer a = true -> iterable a = true ->
        exists r, grade_list a a os pm cs = Ok r /\ is_correct r = true).
Proof.
  split; [| split].
  - intros v cs _. unfold grade_one_word. destruct (truthy v); [| reflexivity].
    cbn [negb orb is_correct]. apply String.eqb_refl.
  - intros v rs tp ar _. unfold grade_numerical, grade_numerical_try.
    rewrite String.eqb_refl. eexists. split; reflexivity.
  - intros a os pm cs _ Ht Hi. unfold grade_list, grade_list_in. rewrite Ht. cbn [negb orb].
    assert (exists l, tokens a cs = Ok l) as [l ->].
    { destruct a as [[] | l]; try discriminate Hi; eexists; reflexivity. }
    rewrite !bind_Ok. destruct os; rewrite bool_decide_eq_true_2 by done;
      eexists; split; reflexivity.
Qed.

(** X14: a grader given the correct answer as the student's, an answer that
    [str] converts: [grade_numerical] always grades it correct, [grade_list]
    does when it is a non-empty [str] or list, and [grade_one_word] does
    unless it is falsy: an answer that is [0] or empty is a missing answer. *)
Theorem X14_model_answer_is_correct :
  (forall v cs, str_succeeds v = true -> is_correct (grade_one_word v v cs) = truthy v)
  /\ (forall v rs tp ar,
        str_succeeds v = true ->
        exists r, grade_numerical v v rs tp ar = Ok r /\ is_correct r = true)
  /\ (forall a os pm cs,
        items_str_succeed a = true ->
        truthy_answer a = true -> iterable a = true ->
        exists r, grade_list a a os pm cs = Ok r /\ is_correct r = true).
Proof. exact model_answer_is_correct_lemma. Qed.

Lemma X14_witness :
  is_correct (grade_one_word (PInt 0) (PInt 0) false) = truthy (PInt 0)
  /\ (exists r, grade_numerical PNone PNone false (PInt 0) None = Ok r /\ is_correct r = true)
  /\ (exists r, grade_list (Items [PInt 7]) (Items [PInt 7]) false true false = Ok r
                /\ is_correct r = true).
Proof.
  split; [| split].
  - apply (proj1 X14_model_answer_is_correct (PInt 0) false). vm_compute. reflexivity.
  - apply (proj1 (proj2 X14_model_answer_is_correct) PNone false (PInt 0) None). reflexivity.
  - apply (proj2 (proj2 X14_model_answer_is_correct) (Items [PInt 7]) false true false).
    + vm_compute. reflexivity.
    + reflexivity.
    + reflexivity.
Defined.

(** *** Submissions *)

Lemma dict_set_fresh {V : Type} (k : Z) (v : V) (d : dict V) :
  Forall (fun item => item.1 <> k) d -> dict_set k v d = d ++ [(k, v)].
Proof.
  induction 1 as [| [k' v'] d Hk Hd IH]; cbn [dict_set app]; [done |].
  cbn in Hk. destruct (Z.eqb_spec k' k); [done |]. by rewrite IH.
Qed.

(** The loop that builds a submission and its marking scheme, for any
    choice [q] of the answer and the entry of a question. *)
Lemma build_loop (q : Z -> pyval * Scheme) (n : nat) :
  exists marking_scheme : gmap Z Scheme,
    foldl (fun '(submission, marking_scheme) i =>
             let '(student_answer, scheme) := q i in
             (dict_set i student_answer submission, <[i := scheme]> marking_scheme))
          (([], ∅) : dict pyval * gmap Z Scheme) (seqZ 1 (Z.of_nat n))
    = ((fun i => (i, (q i).1)) <$> seqZ 1 (Z.of_nat n), marking_scheme)
    /\ forall i, (1 <= i <= Z.of_nat n)%Z -> marking_scheme !! i = Some (q i).2.
Proof.
  induction n as [| n (ms & IH & Hms)].
  - exists ∅. split; [reflexivity | lia].
  - rewrite seqZ_S, foldl_snoc, IH, fmap_app.
    replace (1 + Z.of_nat n)%Z with (Z.of_nat (S n)) by lia. cbv beta iota.
    exists (<[Z.of_nat (S n) := (q (Z.of_nat (S n))).2]> ms). split.
    + change ((fun i => (i, (q i).1)) <$> [Z.of_nat (S n)])
        with [(Z.of_nat (S n), (q (Z.of_nat (S n))).1)].
      destruct (q (Z.of_nat (S n))) as [a sc]. cbn [fst snd].
      rewrite dict_set_fresh; [done |].
      apply Forall_fmap, Forall_seqZ. intros i Hi. cbn. lia.
    + intros i Hi. destruct (Z.eq_dec i (Z.of_nat (S n))) as [-> | Hne].
      * by rewrite lookup_insert_eq.
      * rewrite lookup_insert_ne by done. apply Hms. lia.
Qed.

Lemma range_from_1 (n : Z) : range 1 (n + 1) = seqZ 1 (Z.of_nat (Z.to_nat n)).
Proof.
  unfold range. replace (n + 1 - 1)%Z with n by lia.
  destruct (Z.le_gt_cases 0 n); [by rewrite Z2Nat.id |]. 
  rewrite !seqZ_nil; [done | lia | lia].
Qed.

Lemma seqZ_length_Z (n : Z) :
  Z.of_nat (length (seqZ 1 (Z.of_nat (Z.to_nat n)))) = Z.max 0 n.
Proof. rewrite length_seqZ. lia. Qed.

Lemma speed_test_question_graded (i : Z) (a : Z) :
  GradingSpeedTest.grade_answer (GradingSpeedTest.test_question i).2
    (GradingSpeedTest.test_question i).1 (NInt a) = Ok (NInt (a + 10))
  /\ scheme_marks (GradingSpeedTest.test_question i).2 = 10%Z.
Proof.
  unfold GradingSpeedTest.test_question.
  destruct (i mod 4 =? 1)%Z; [| destruct (i mod 4 =? 2)%Z; [| destruct (i mod 4 =? 3)%Z]];
    (split; [| reflexivity]); unfold GradingSpeedTest.grade_answer;
    cbn -[grade_one_word grade_numerical grade_list Z.add].
  - rewrite (proj1 model_answer_is_correct_lemma) by reflexivity. reflexivity.
  - destruct (proj1 (proj2 model_answer_is_correct_lemma) (PStr "42") false (PInt 0) None
                eq_refl) as (r & -> & Hr). cbn -[Z.add]. rewrite Hr. reflexivity.
  - destruct (proj2 (proj2 model_answer_is_correct_lemma) (Scalar (PStr "Red, Blue, Yellow"))
                false true false eq_refl eq_refl eq_refl) as (r & -> & Hr).
    cbn -[Z.add]. rewrite Hr. reflexivity.
  - rewrite (proj1 model_answer_is_correct_lemma) by reflexivity. reflexivity.
Qed.

Lemma speed_grade_loop (marking_scheme : gmap Z Scheme) (l : list Z) (a b : Z) :
  (forall i, i ∈ l -> marking_scheme !! i = Some (GradingSpeedTest.test_question i).2) ->
  foldl (GradingSpeedTest.grade_step marking_scheme) (Ok (NInt a, b))
    ((fun i => (i, (GradingSpeedTest.test_question i).1)) <$> l)
  = Ok (NInt (a + 10 * Z.of_nat (length l)), (b + 10 * Z.of_nat (length l))%Z).
Proof.
  revert a b. induction l as [| i l IH]; intros a b Hms.
  - cbn [fmap list_fmap foldl length]. change (Z.of_nat 0) with 0%Z.
    by rewrite Z.mul_0_r, !Z.add_0_r.
  - cbn [fmap list_fmap foldl]. unfold GradingSpeedTest.grade_step at 2.
    rewrite bind_Ok. cbv beta iota. rewrite (Hms i) by left.
    destruct (speed_test_question_graded i a) as [-> ->]. rewrite bind_Ok.
    rewrite IH by (intros j Hj; apply Hms; by right).
    cbn [length]. rewrite Nat2Z.inj_succ. f_equal. f_equal; [f_equal |]; lia.
Qed.

(** X15: the submissions that [create_test_submission] builds get full marks
    from [grade_submission]: ten marks for each question, as an [int]. *)
Theorem X15_generated_submission_gets_full_marks (num_questions : Z) :
  GradingSpeedTest.grade_submission
    (GradingSpeedTest.create_test_submission num_questions).1
    (GradingSpeedTest.create_test_submission num_questions).2
  = Ok (NInt (10 * Z.max 0 num_questions), (10 * Z.max 0 num_questions)%Z).
Proof.
  unfold GradingSpeedTest.create_test_submission. rewrite range_from_1.
  destruct (build_loop GradingSpeedTest.test_question (Z.to_nat num_questions))
    as (ms & -> & Hms).
  cbn [fst snd]. unfold GradingSpeedTest.grade_submission.
  rewrite speed_grade_loop.
  - rewrite seqZ_length_Z. reflexivity.
  - intros i Hi. apply elem_of_seqZ in Hi. apply Hms. lia.
Qed.

Lemma length_append (s1 s2 : string) :
  String.length (s1 +:+ s2) = String.length s1 + String.length s2.
Proof.
  induction s1 as [| c r IH]; [done |].
  change (String c r +:+ s2) with (String c (r +:+ s2)).
  cbn [String.length Nat.add]. by f_equal.
Qed.

Lemma append_assoc (s1 s2 s3 : string) : (s1 +:+ s2) +:+ s3 = s1 +:+ (s2 +:+ s3).
Proof.
  induction s1 as [| c r IH]; [done |].
  change (String c r +:+ ?y) with (String c (r +:+ y)).
  change (String c (r +:+ s2) +:+ s3) with (String c ((r +:+ s2) +:+ s3)). by f_equal.
Qed.

Lemma length_lower (s : string) : String.length (PyStr.lower s) = String.length s.
Proof.
  induction s as [| c r IH]; [done |]. cbn [PyStr.lower String.length]. by f_equal.
Qed.

Lemma length_lstrip (s : string) : String.length (PyStr.lstrip s) <= String.length s.
Proof.
  induction s as [| c r IH]; cbn [PyStr.lstrip]; [done |].
  destruct (PyStr.isspace c); cbn [String.length]; lia.
Qed.

Lemma length_rstrip (s : string) : String.length (PyStr.rstrip s) <= String.length s.
Proof.
  induction s as [| c r IH]; cbn [PyStr.rstrip]; [done |].
  destruct (PyStr.rstrip r); [destruct (PyStr.isspace c) |]; cbn [String.length] in *; lia.
Qed.

Lemma length_strip (s : string) : String.length (PyStr.strip s) <= String.length s.
Proof.
  unfold PyStr.strip. pose proof (length_rstrip (PyStr.lstrip s)).
  pose proof (length_lstrip s). lia.
Qed.

(** Trimming on the right keeps everything up to a character that is not
    whitespace. *)
Lemma length_rstrip_prefix (p : string) (c : ascii) (x : string) :
  PyStr.isspace c = false ->
  String.length p + 1 <= String.length (PyStr.rstrip (p +:+ String c x)).
Proof.
  intros Hc. induction p as [| d p IH].
  - change ("" +:+ String c x) with (String c x). rewrite rstrip_cons by done.
    cbn [String.length]. lia.
  - change (String d p +:+ String c x) with (String d (p +:+ String c x)).
    cbn [PyStr.rstrip].
    destruct (PyStr.rstrip (p +:+ String c x)); cbn [String.length] in *; lia.
Qed.

(** An answer of [create_submission] is never the one of its marking
    scheme: it is longer, however both are trimmed. *)
Lemma throughput_answer_wrong (n x : string) :
  is_correct (grade_one_word (PStr ("Answer " +:+ n +:+ " for submission " +:+ x))
                (PStr ("Answer " +:+ n)) false) = false.
Proof.
  assert (forall y, "Answer " +:+ y = String "A" ("nswer " +:+ y)) as Hform by reflexivity.
  unfold grade_one_word. cbn [truthy str]. rewrite !Hform.
  cbn [PyStr.is_empty negb orb is_correct]. rewrite <- !Hform.
  apply String.eqb_neq. intros Heq.
  apply (f_equal String.length) in Heq. rewrite !length_lower in Heq.
  pose proof (length_strip ("Answer " +:+ n)) as Hc.
  rewrite length_append in Hc. change (String.length "Answer ") with 7 in Hc.
  assert (String.length n + 22
          <= String.length (PyStr.strip ("Answer " +:+ n +:+ " for submission " +:+ x)))
    as Hs; [| lia].
  unfold PyStr.strip. rewrite (Hform (n +:+ _)). cbn [PyStr.lstrip].
  change (PyStr.isspace "A") with false. cbv iota. rewrite <- Hform.
  pose proof (length_rstrip_prefix ("Answer " +:+ n +:+ " for submissio") "n"
                (String " " x) eq_refl) as H.
  rewrite !length_append in H.
  change (String.length "Answer ") with 7 in H.
  change (String.length " for submissio") with 14 in H.
  replace (("Answer " +:+ n +:+ " for submissio") +:+ String "n" (String " " x))
    with ("Answer " +:+ n +:+ " for submission " +:+ x) in H; [lia |].
  rewrite !append_assoc. reflexivity.
Qed.

Lemma throughput_grade_loop (submission_id : pyval) (marking_scheme : gmap Z Scheme)
    (l : list Z) (a b : Z) :
  (forall i, i ∈ l ->
     marking_scheme !! i
     = Some (mkScheme None (PStr ("Answer " +:+ PyStr.of_Z i)) 10 "one-word"
               (Some false) None None None None None)) ->
  foldl (ThroughputTest.grade_step marking_scheme) (a, b)
    ((fun i => (i, PStr ("Answer " +:+ PyStr.of_Z i +:+ " for submission "
                         +:+ str submission_id))) <$> l)
  = (a, (b + 10 * Z.of_nat (length l))%Z).
Proof.
  revert b. induction l as [| i l IH]; intros b Hms.
  - cbn [fmap list_fmap foldl length]. change (Z.of_nat 0) with 0%Z.
    by rewrite Z.mul_0_r, Z.add_0_r.
  - cbn [fmap list_fmap foldl]. unfold ThroughputTest.grade_step at 2.
    rewrite (Hms i) by left.
    cbn [scheme_answer_text scheme_marks scheme_case_sensitive default from_option id].
    rewrite throughput_answer_wrong.
    rewrite IH by (intros j Hj; apply Hms; by right).
    cbn [length]. rewrite Nat2Z.inj_succ. f_equal. lia.
Qed.

(** X16: the submissions that [create_submission] builds, for an id that
    [str] converts, score nothing in [grade_one_submission]: no answer is
    the one of the marking scheme. *)
Theorem X16_throughput_submission_scores_nothing
    (submission_id : pyval) (num_questions : Z) (start_time end_time : float) :
  str_succeeds submission_id = true ->
  ThroughputTest.grade_one_submission submission_id
    (ThroughputTest.create_submission submission_id num_questions).1
    (ThroughputTest.create_submission submission_id num_questions).2
    start_time end_time
  = ThroughputTest.mkSubmissionResult submission_id true
      (PyFloat.sub end_time start_time) 0 (10 * Z.max 0 num_questions).
Proof.
  intros _. unfold ThroughputTest.create_submission. rewrite range_from_1.
  destruct (build_loop
              (fun i => (PStr ("Answer " +:+ PyStr.of_Z i +:+ " for submission "
                               +:+ str submission_id),
                         mkScheme None (PStr ("Answer " +:+ PyStr.of_Z i)) 10 "one-word"
                           (Some false) None None None None None))
              (Z.to_nat num_questions)) as (ms & Hbuild & Hms).
  cbv beta iota in Hbuild. rewrite Hbuild. cbn [fst snd].
  unfold ThroughputTest.grade_one_submission.
  rewrite (throughput_grade_loop submission_id).
  - rewrite seqZ_length_Z. reflexivity.
  - intros i Hi. apply elem_of_seqZ in Hi. rewrite Hms by lia. reflexivity.
Qed.

Lemma X16_witness :
  ThroughputTest.grade_one_submission (PInt 3)
    (ThroughputTest.create_submission (PInt 3) 2).1
    (ThroughputTest.create_submission (PInt 3) 2).2
    f_0_0 f_1_0
  = ThroughputTest.mkSubmissionResult (PInt 3) true (PyFloat.sub f_1_0 f_0_0) 0
      (10 * Z.max 0 2).
Proof.
  apply (X16_throughput_submission_scores_nothing (PInt 3) 2 f_0_0 f_1_0).
  vm_compute. reflexivity.
Defined.

Lemma foldl_grade_step_Raise (marking_scheme : gmap Z Scheme) (e : exn)
    (submission : dict pyval) :
  foldl (GradingSpeedTest.grade_step marking_scheme) (Raise e) submission = Raise e.
Proof. induction submission as [| item l IH]; [done | exact IH]. Qed.

Lemma grade_loop_max_score (marking_scheme : gmap Z Scheme) (submission : dict pyval)
    (total0 : number) (max0 : Z) (total_score : number) (max_score : Z) :
  foldl (GradingSpeedTest.grade_step marking_scheme) (Ok (total0, max0)) submission
  = Ok (total_score, max_score) ->
  max_score = (max0 + answered_marks submission marking_scheme)%Z.
Proof.
  revert total0 max0. induction submission as [| [q a] l IH]; intros total0 max0.
  - cbn. intros [= <- <-]. lia.
  - cbn [foldl answered_marks foldr fst]. unfold GradingSpeedTest.grade_step at 2.
    rewrite bind_Ok. cbv beta iota.
    destruct (marking_scheme !! q) as [scheme |].
    + destruct (GradingSpeedTest.grade_answer scheme a total0) as [t | e].
      * rewrite bind_Ok. intros H. apply IH in H.
        fold (answered_marks l marking_scheme). lia.
      * cbn [mbind outcome_bind]. rewrite foldl_grade_step_Raise. discriminate.
    + intros H. apply IH in H. fold (answered_marks l marking_scheme). lia.
Qed.

(** X17: the [max_score] that [grade_submission] returns is the sum of the marks
    of the answered questions that the marking scheme has: it does not
    depend on the answers, and a question of the marking scheme that the
    submission leaves out does not count. *)
Theorem X17_max_score_counts_answered_questions
    (submission : dict pyval) (marking_scheme : gmap Z Scheme)
    (total_score : number) (max_score : Z) :
  GradingSpeedTest.grade_submission submission marking_scheme
  = Ok (total_score, max_score) ->
  max_score = answered_marks submission marking_scheme.
Proof.
  intros H. apply grade_loop_max_score in H. lia.
Qed.

Lemma X17_witness :
  10%Z
  = answered_marks [(2%Z, PStr "41")]
      (GradingSpeedTest.create_test_submission 3).2.
Proof.
  apply (X17_max_score_counts_answered_questions [(2%Z, PStr "41")]
           (GradingSpeedTest.create_test_submission 3).2 (NInt 0) 10).
  vm_compute. reflexivity.
Defined.

(** X4: [_longest_common_subsequence] returns the length of a longest common
    subsequence of its two lists: some list of that length is a subsequence
    of both, and no common subsequence is longer. *)
Theorem X4_longest_common_subsequence_is_longest (list1 list2 : list string) :
  is_lcs_length (_longest_common_subsequence list1 list2) list1 list2.
Proof. exact (lcs_is_lcs_length list1 list2). Qed.

(** *** The tokens of a delimited answer *)

Lemma star_None {R : Type} (cls : ascii -> bool)
    (k : nat -> option ascii -> string -> option R) (s : string) (pos : nat)
    (prev : option ascii) :
  (forall u t pos' prev', s = u +:+ t -> k pos' prev' t = None) ->
  star cls k pos prev s = None.
Proof.
  revert pos prev. induction s as [| c r IH]; intros pos prev Hk; cbn [star].
  - apply (Hk "" ""). reflexivity.
  - assert (k pos prev (String c r) = None) as Hhere by (apply (Hk ""); reflexivity).
    destruct (cls c); [| exact Hhere].
    rewrite IH; [exact Hhere |].
    intros u t pos' prev' ->. apply (Hk (String c u)). reflexivity.
Qed.

Lemma tight_suffix (u t : string) : tight (u +:+ t) = true -> tight t = true.
Proof.
  induction u as [| c r IH]; [done |].
  change (String c r +:+ t) with (String c (r +:+ t)). cbn [tight].
  destruct (r +:+ t) eqn:Hrt.
  - destruct r; [| discriminate Hrt]. change ("" +:+ t) with t in Hrt. by rewrite Hrt.
  - rewrite andb_true_iff. intros [_ H]. by apply IH.
Qed.

(** What follows a bullet, or the dot of a number, in the patterns of a list
    marker: whitespace. On a tight string it is never there. *)
Lemma bullet_then_space_fails {R : Type} (k : nat -> option ascii -> string -> option R)
    (t : string) (p : nat) :
  tight t = true ->
  match t with
  | "" => None
  | String c0 t1 =>
      if bullet c0
      then match t1 with
           | "" => None
           | String c1 t2 =>
               if PyStr.isspace c1
               then star PyStr.isspace k (S (S p)) (Some c1) t2
               else None
           end
      else None
  end = None.
Proof.
  intros Ht. destruct t as [| c0 [| c1 t2]]; try done; [by destruct (bullet c0) |].
  cbn [tight] in Ht. destruct (bullet c0); [| done].
  destruct (PyStr.isspace c1); [discriminate Ht | done].
Qed.

Lemma dot_then_space_fails {R : Type} (k : nat -> option ascii -> string -> option R)
    (t : string) (p : nat) :
  tight t = true ->
  match t with
  | "" => None
  | String c0 t1 =>
      if dot c0
      then match t1 with
           | "" => None
           | String c1 t2 =>
               if PyStr.isspace c1
               then star PyStr.isspace k (S (S p)) (Some c1) t2
               else None
           end
      else None
  end = None.
Proof.
  intros Ht. destruct t as [| c0 [| c1 t2]]; try done; [by destruct (dot c0) |].
  cbn [tight] in Ht. destruct (dot c0); [| done]. rewrite orb_true_r in Ht.
  destruct (PyStr.isspace c1); [discriminate Ht | done].
Qed.

Lemma marker_no_match (s : string) (pos : nat) (prev : option ascii) :
  tight s = true -> match_at re_marker pos prev s = None.
Proof.
  intros Hs. unfold match_at, re_marker. cbn [cat foldr exec].
  destruct prev; [reflexivity |].
  rewrite star_None.
  - apply star_None. intros u t pos' prev' ->.
    destruct t as [| c0 t1]; [done |]. destruct (PyStr.isdigit c0); [| done].
    apply star_None. intros u' t' pos'' prev'' Ht1.
    apply dot_then_space_fails.
    apply (tight_suffix (u +:+ String c0 u')).
    rewrite append_assoc. change (String c0 u' +:+ t') with (String c0 (u' +:+ t')).
    by rewrite <- Ht1.
  - intros u t pos' prev' ->. apply bullet_then_space_fails. by apply tight_suffix in Hs.
Qed.

Lemma list_line_no_match (c : ascii) (t : string) (pos : nat) (prev : option ascii) :
  tight t = true ->
  match_at re_bullet_line pos prev (String c t) = None
  /\ match_at re_numbered_line pos prev (String c t) = None.
Proof.
  intros Ht. unfold match_at, re_bullet_line, re_numbered_line. cbn [cat foldr exec].
  destruct (nl c); [| done]. split.
  - apply star_None. intros u t' pos' prev' ->. apply bullet_then_space_fails.
    by apply tight_suffix in Ht.
  - apply star_None. intros u t' pos' prev' ->.
    destruct t' as [| c0 t1]; [done |]. destruct (PyStr.isdigit c0); [| done].
    apply star_None. intros u' t'' pos'' prev'' Ht1.
    apply dot_then_space_fails.
    apply (tight_suffix (u +:+ String c0 u')).
    rewrite append_assoc. change (String c0 u' +:+ t'') with (String c0 (u' +:+ t'')).
    by rewrite <- Ht1.
Qed.

Lemma tight_tail (c : ascii) (t : string) : tight (String c t) = true -> tight t = true.
Proof. apply (tight_suffix (String c "") t). Qed.

Lemma search_list_line (s : string) (pos : nat) (prev : option ascii) :
  tight s = true ->
  search_from re_bullet_line pos prev s = None
  /\ search_from re_numbered_line pos prev s = None.
Proof.
  revert pos prev. induction s as [| c t IH]; intros pos prev Hs.
  - split; reflexivity.
  - pose proof (tight_tail c t Hs) as Ht.
    destruct (list_line_no_match c t pos prev Ht) as [H1 H2].
    destruct (IH (S pos) (Some c) Ht) as [H3 H4].
    cbn [search_from]. rewrite H1, H2. by split.
Qed.

(** A tight answer is not taken for a bulleted or numbered list. *)
Lemma tight_not_a_list (answer : string) :
  tight answer = true ->
  is_some (re_search re_bullet_line (String PyStr.newline answer))
  || is_some (re_search re_numbered_line (String PyStr.newline answer)) = false.
Proof.
  intros Ht. unfold re_search.
  destruct (list_line_no_match PyStr.newline answer 0 None Ht) as [H1 H2].
  destruct (search_list_line answer 1 (Some PyStr.newline) Ht) as [H3 H4].
  cbn [search_from]. rewrite H1, H2, H3, H4. reflexivity.
Qed.

Lemma all_chars_app (cls : ascii -> bool) (u v : string) :
  all_chars cls (u +:+ v) = all_chars cls u && all_chars cls v.
Proof.
  induction u as [| c r IH]; [done |].
  change (String c r +:+ v) with (String c (r +:+ v)). cbn [all_chars].
  by rewrite IH, andb_assoc.
Qed.

Lemma all_chars_impl (cls cls' : ascii -> bool) (s : string) :
  (forall c, cls c = true -> cls' c = true) ->
  all_chars cls s = true -> all_chars cls' s = true.
Proof.
  intros H. induction s as [| c r IH]; [done |]. cbn [all_chars].
  rewrite !andb_true_iff. intros [Hc Hr]. split; [by apply H | by apply IH].
Qed.

(** **** Splitting at the delimiters *)

Lemma split_prefix (w s h : string) (tl : list string) :
  all_chars (fun c => negb (delimiter c)) w = true ->
  (forall pos prev, split_from re_delimiters 0 pos prev s = h :: tl) ->
  forall pos prev,
    split_from re_delimiters 0 pos prev (w +:+ s) = (w +:+ h) :: tl.
Proof.
  intros Hw Hs. induction w as [| c r IH]; intros pos prev.
  - change ("" +:+ s) with s. by rewrite Hs.
  - cbn [all_chars] in Hw. apply andb_true_iff in Hw as [Hc Hr].
    change (String c r +:+ s) with (String c (r +:+ s)).
    cbn [split_from]. rewrite (IH Hr).
    unfold match_at, re_delimiters. cbn [exec].
    destruct (delimiter c); [discriminate Hc | reflexivity].
Qed.

Lemma split_delimiter (d c : ascii) (s : string) (pieces : list string) :
  delimiter d = true -> delimiter c = false ->
  (forall pos prev, split_from re_delimiters 0 pos prev (String c s) = pieces) ->
  forall pos prev,
    split_from re_delimiters 0 pos prev (String d (String c s)) = "" :: pieces.
Proof.
  intros Hd Hc Hs pos prev.
  cbn [split_from]. unfold match_at at 1, re_delimiters at 1. cbn [exec star].
  rewrite Hd, Hc. rewrite (proj2 (Nat.ltb_lt pos (S pos))) by lia.
  replace (S pos - pos - 1) with 0 by lia.
  f_equal. rewrite <- (Hs (S pos) (Some d)). reflexivity.
Qed.

(** **** Cleaning a piece *)

Lemma sub_from_no_match (r : regex) (repl s : string) :
  (forall u t pos prev, s = u +:+ t -> match_at r pos prev t = None) ->
  forall pos prev, sub_from r repl 0 pos prev s = s.
Proof.
  induction s as [| c t IH]; intros Hs pos prev; [done |].
  cbn [sub_from]. rewrite (Hs "" (String c t)) by reflexivity.
  rewrite IH; [done |]. intros u t' pos' prev' ->. apply (Hs (String c u)). reflexivity.
Qed.

Lemma sub_from_skip (r : regex) (repl u s : string) (pos : nat) (prev : option ascii) :
  (forall pos' prev', sub_from r repl 0 pos' prev' s = s) ->
  sub_from r repl (String.length u) pos prev (u +:+ s) = s.
Proof.
  intros Hs. revert pos prev. induction u as [| c r' IH]; intros pos prev.
  - apply Hs.
  - change (String c r' +:+ s) with (String c (r' +:+ s)). cbn [String.length sub_from].
    apply IH.
Qed.

Lemma spaces_no_match (t : string) (pos : nat) (prev : option ascii) :
  all_chars (fun c => negb (PyStr.isspace c)) t = true ->
  match_at re_spaces pos prev t = None.
Proof.
  intros Ht. unfold match_at, re_spaces. cbn [exec].
  destruct t as [| c t']; [done |]. cbn [all_chars] in Ht.
  destruct (PyStr.isspace c); [discriminate Ht | done].
Qed.

Lemma all_chars_suffix (cls : ascii -> bool) (u t : string) :
  all_chars cls (u +:+ t) = true -> all_chars cls t = true.
Proof. rewrite all_chars_app, andb_true_iff. tauto. Qed.

Lemma sub_spaces_plain (s : string) (pos : nat) (prev : option ascii) :
  all_chars (fun c => negb (PyStr.isspace c)) s = true ->
  sub_from re_spaces " " 0 pos prev s = s.
Proof.
  intros Hs. apply sub_from_no_match. intros u t pos' prev' ->.
  apply spaces_no_match. by apply all_chars_suffix in Hs.
Qed.

(** A run of whitespace before a character that is none is matched whole. *)
Lemma star_spaces_run (u : string) (c : ascii) (t : string) (pos : nat)
    (prev : option ascii) :
  blank u = true -> PyStr.isspace c = false ->
  star PyStr.isspace (fun p _ _ => Some (p, (None : option span))) pos prev
    (u +:+ String c t)
  = Some (pos + String.length u, None).
Proof.
  intros Hu Hc. revert pos prev. induction u as [| d r IH]; intros pos prev.
  - change ("" +:+ String c t) with (String c t). cbn [star String.length].
    rewrite Hc. f_equal. f_equal. lia.
  - change (String d r +:+ String c t) with (String d (r +:+ String c t)).
    cbn [blank] in Hu. apply andb_true_iff in Hu as [Hd Hr].
    cbn [star String.length]. rewrite Hd, (IH Hr). f_equal. f_equal. lia.
Qed.

Lemma sub_spaces_padded (pad item : string) (pos : nat) (prev : option ascii) :
  blank pad = true -> item <> "" ->
  all_chars (fun c => negb (PyStr.isspace c)) item = true ->
  sub_from re_spaces " " 0 pos prev (pad +:+ item)
  = if PyStr.is_empty pad then item else String " " item.
Proof.
  intros Hpad Hne Hitem. destruct pad as [| d pad'].
  - change ("" +:+ item) with item. by apply sub_spaces_plain.
  - change (String d pad' +:+ item) with (String d (pad' +:+ item)).
    cbn [blank] in Hpad. apply andb_true_iff in Hpad as [Hd Hpad'].
    destruct item as [| c t]; [done |]. cbn [all_chars] in Hitem.
    assert (PyStr.isspace c = false) as Hc.
    { destruct (PyStr.isspace c); [discriminate Hitem | done]. }
    cbn [sub_from PyStr.is_empty]. unfold match_at at 1, re_spaces at 1. cbn [exec].
    rewrite Hd, (star_spaces_run pad' c t (S pos) (Some d) Hpad' Hc).
    rewrite (proj2 (Nat.ltb_lt pos (S pos + String.length pad'))) by lia.
    replace (S pos + String.length pad' - pos - 1) with (String.length pad') by lia.
    change (" " +:+ ?x) with (String " " x). f_equal.
    apply sub_from_skip. intros pos' prev'. by apply sub_spaces_plain.
Qed.

Lemma lstrip_plain (s : string) :
  all_chars (fun c => negb (PyStr.isspace c)) s = true -> PyStr.lstrip s = s.
Proof.
  destruct s as [| c r]; [done |]. cbn [all_chars PyStr.lstrip].
  by destruct (PyStr.isspace c).
Qed.

Lemma rstrip_plain (s : string) :
  all_chars (fun c => negb (PyStr.isspace c)) s = true -> PyStr.rstrip s = s.
Proof.
  induction s as [| c r IH]; [done |]. cbn [all_chars]. rewrite andb_true_iff.
  intros [Hc Hr]. rewrite rstrip_cons by (by destruct (PyStr.isspace c)).
  by rewrite IH.
Qed.

Lemma strip_plain (s : string) :
  all_chars (fun c => negb (PyStr.isspace c)) s = true -> PyStr.strip s = s.
Proof. intros H. unfold PyStr.strip. by rewrite lstrip_plain, rstrip_plain. Qed.

Lemma space_not_marker (c : ascii) : PyStr.isspace c = true -> bullet c || dot c = false.
Proof. destruct c as [[] [] [] [] [] [] [] []]; vm_compute; congruence. Qed.

Lemma tight_plain_app (w t : string) :
  all_chars (fun c => negb (PyStr.isspace c)) w = true ->
  tight t = true ->
  match t with "" => True | String c _ => PyStr.isspace c = false end ->
  tight (w +:+ t) = true.
Proof.
  intros Hw Ht Hhead. induction w as [| c r IH]; [done |].
  cbn [all_chars] in Hw. apply andb_true_iff in Hw as [Hc Hr].
  change (String c r +:+ t) with (String c (r +:+ t)). cbn [tight].
  specialize (IH Hr). destruct (r +:+ t) as [| c' rt] eqn:Hrt; [done |].
  rewrite IH, andb_true_r.
  assert (PyStr.isspace c' = false) as ->; [| by rewrite andb_false_r].
  destruct r as [| c'' r'].
  - change ("" +:+ t) with t in Hrt. by subst t.
  - change (String c'' r' +:+ t) with (String c'' (r' +:+ t)) in Hrt.
    injection Hrt as -> _. cbn [all_chars] in Hr.
    by destruct (PyStr.isspace c').
Qed.

Lemma tight_blank_app (pad t : string) :
  blank pad = true -> tight t = true -> tight (pad +:+ t) = true.
Proof.
  intros Hpad Ht. induction pad as [| c r IH]; [done |].
  cbn [blank] in Hpad. apply andb_true_iff in Hpad as [Hc Hr].
  change (String c r +:+ t) with (String c (r +:+ t)). cbn [tight].
  specialize (IH Hr). destruct (r +:+ t) as [| c' rt]; [done |].
  by rewrite IH, (space_not_marker c Hc).
Qed.

Lemma tight_plain (s : string) :
  all_chars (fun c => negb (PyStr.isspace c)) s = true -> tight s = true.
Proof.
  intros H. pose proof (tight_plain_app s "" H eq_refl I) as Ht.
  assert (s +:+ "" = s) as Heq; [| by rewrite Heq in Ht].
  clear. induction s as [| c r IH]; [done |].
  change (String c r +:+ "") with (String c (r +:+ "")). by rewrite IH.
Qed.

Lemma append_nil_r (s : string) : s +:+ "" = s.
Proof.
  induction s as [| c r IH]; [done |].
  change (String c r +:+ "") with (String c (r +:+ "")). by rewrite IH.
Qed.

Lemma padding_blank (pad : string) : all_chars padding_char pad = true -> blank pad = true.
Proof.
  induction pad as [| c r IH]; [done |]. cbn [all_chars blank]. unfold padding_char at 1.
  rewrite !andb_true_iff. intros [[Hc _] Hr]. split; [done | by apply IH].
Qed.

Lemma plain_no_space (s : string) :
  all_chars plain_char s = true -> all_chars (fun c => negb (PyStr.isspace c)) s = true.
Proof.
  apply all_chars_impl. intros c. unfold plain_char. rewrite andb_true_iff. tauto.
Qed.

Lemma plain_no_delimiter (s : string) :
  all_chars plain_char s = true -> all_chars (fun c => negb (delimiter c)) s = true.
Proof.
  apply all_chars_impl. intros c. unfold plain_char. rewrite andb_true_iff. tauto.
Qed.

Lemma padding_no_delimiter (s : string) :
  all_chars padding_char s = true -> all_chars (fun c => negb (delimiter c)) s = true.
Proof.
  apply all_chars_impl. intros c. unfold padding_char. rewrite andb_true_iff. tauto.
Qed.

(** A plain item behind some padding is cleaned to the item. *)
Lemma clean_padded_item (case_sensitive : bool) (pad item : string) :
  all_chars padding_char pad = true -> plain_item item ->
  clean_item case_sensitive (pad +:+ item)
  = Some (if case_sensitive then item else PyStr.lower item).
Proof.
  intros Hpad [Hne Hitem].
  pose proof (padding_blank pad Hpad) as Hblank.
  pose proof (plain_no_space item Hitem) as Hns.
  assert (tight (pad +:+ item) = true) as Htight
    by (apply tight_blank_app; [done | by apply tight_plain]).
  unfold clean_item, re_sub.
  rewrite (sub_from_no_match re_marker "" (pad +:+ item)).
  2:{ intros u t pos prev Heq. apply marker_no_match.
      rewrite Heq in Htight. by apply tight_suffix in Htight. }
  rewrite sub_spaces_padded by done.
  assert (PyStr.strip (if PyStr.is_empty pad then item else String " " item) = item) as ->.
  { destruct (PyStr.is_empty pad); [by apply strip_plain |].
    unfold PyStr.strip. cbn [PyStr.lstrip]. change (PyStr.isspace " ") with true.
    cbv iota. by apply strip_plain. }
  destruct item as [| c r]; [done |]. cbn [PyStr.is_empty].
  by destruct case_sensitive.
Qed.

Lemma join_cons (sep item : string) (items : list string) :
  items <> [] -> join sep (item :: items) = item +:+ sep +:+ join sep items.
Proof. by destruct items. Qed.

Lemma join_head (d : ascii) (pad : string) (item : string) (items : list string) :
  all_chars padding_char pad = true -> plain_item item ->
  exists c s, pad +:+ join (String d pad) (item :: items) = String c s
              /\ delimiter c = false /\ PyStr.isspace c = PyStr.isspace c.
Proof.
  intros Hpad [Hne Hitem]. destruct pad as [| c r].
  - destruct item as [| c r]; [done |]. cbn [all_chars] in Hitem.
    apply andb_true_iff in Hitem as [Hc _]. unfold plain_char in Hc.
    apply andb_true_iff in Hc as [_ Hc]. exists c.
    destruct items; eexists; (split; [reflexivity |]); split; try done;
      by destruct (delimiter c).
  - cbn [all_chars] in Hpad. apply andb_true_iff in Hpad as [Hc _].
    unfold padding_char in Hc. apply andb_true_iff in Hc as [_ Hc].
    exists c. eexists. split; [reflexivity |]. split; [| done]. by destruct (delimiter c).
Qed.

Lemma split_join (d : ascii) (pad : string) (items : list string) :
  delimiter d = true -> all_chars padding_char pad = true -> Forall plain_item items ->
  forall pos prev,
    split_from re_delimiters 0 pos prev (join (String d pad) items)
    = match items with
      | [] => [""]
      | item :: rest => item :: map (fun i => pad +:+ i) rest
      end.
Proof.
  intros Hd Hpad Hitems. induction Hitems as [| x rest Hx Hrest IH]; intros pos prev.
  - reflexivity.
  - destruct rest as [| y rest'].
    + cbn [join map]. rewrite <- (append_nil_r x) at 1.
      rewrite (split_prefix x "" "" []); [by rewrite append_nil_r | | done].
      apply plain_no_delimiter, Hx.
    + rewrite join_cons by done.
      change (String d pad +:+ ?j) with (String d (pad +:+ j)).
      inversion Hrest as [| ? ? Hy _]; subst.
      destruct (join_head d pad y rest' Hpad Hy) as (c & s & Hcs & Hc & _).
      rewrite (split_prefix x _ "" ((pad +:+ y) :: map (fun i => pad +:+ i) rest')).
      * by rewrite append_nil_r.
      * apply plain_no_delimiter, Hx.
      * intros pos' prev'. rewrite Hcs. apply split_delimiter; [done | done |].
        intros pos'' prev''. rewrite <- Hcs.
        apply split_prefix; [by apply padding_no_delimiter | exact IH].
Qed.

Lemma tight_join (d : ascii) (pad : string) (items : list string) :
  bullet d || dot d = false -> PyStr.isspace d = false ->
  all_chars padding_char pad = true -> Forall plain_item items ->
  tight (join (String d pad) items) = true.
Proof.
  intros Hd Hds Hpad Hitems. induction Hitems as [| x rest Hx Hrest IH]; [done |].
  destruct rest as [| y rest'].
  - apply tight_plain, plain_no_space, Hx.
  - rewrite join_cons by done.
    change (String d pad +:+ ?j) with (String d (pad +:+ j)).
    apply tight_plain_app; [apply plain_no_space, Hx | | exact Hds].
    cbn [tight]. rewrite Hd.
    rewrite (tight_blank_app pad _ (padding_blank pad Hpad) IH).
    by destruct (pad +:+ _).
Qed.

(** X18: plain items joined by a comma or a semicolon, with or without blanks
    after it, are split into these items, put in lower case unless the
    comparison is case sensitive. *)
Theorem X18_joined_items_are_split
    (items : list string) (d : ascii) (pad : string) (case_sensitive : bool) :
  Forall plain_item items ->
  d = ","%char \/ d = ";"%char ->
  all_chars padding_char pad = true ->
  _normalize_list_items (join (String d pad) items) case_sensitive
  = if case_sensitive then items else map PyStr.lower items.
Proof.
  intros Hitems Hd Hpad.
  assert (delimiter d = true /\ bullet d || dot d = false /\ PyStr.isspace d = false)
    as (Hd1 & Hd2 & Hd3) by (destruct Hd as [-> | ->]; done).
  unfold _normalize_list_items.
  rewrite tight_not_a_list by (by apply tight_join).
  unfold re_split. rewrite split_join by done.
  destruct Hitems as [| x rest Hx Hrest]; [by destruct case_sensitive |].
  pose proof (clean_padded_item case_sensitive "" x eq_refl Hx) as Hfirst.
  change ("" +:+ x) with x in Hfirst.
  assert (omap (clean_item case_sensitive) (map (fun i => pad +:+ i) rest)
          = map (fun i => if case_sensitive then i else PyStr.lower i) rest) as Hrest'.
  { induction Hrest as [| y rest' Hy Hrest' IH]; [done |].
    cbn [map omap list_omap]. rewrite (clean_padded_item case_sensitive pad y Hpad Hy).
    by rewrite IH. }
  cbn [omap list_omap]. rewrite Hfirst, Hrest'.
  destruct case_sensitive; [by rewrite map_id | done].
Qed.

Lemma X18_witness :
  _normalize_list_items (join ", " ["Red"; "Blue-2"; "3.5"]) false
  = map PyStr.lower ["Red"; "Blue-2"; "3.5"].
Proof.
  apply (X18_joined_items_are_split ["Red"; "Blue-2"; "3.5"] "," " " false).
  - repeat constructor; discriminate.
  - left. reflexivity.
  - reflexivity.
Defined.

(** *** Equal values, and replies without a number *)

Lemma sub_self (x : float) :
  PyFloat.is_nan x = false -> PyFloat.is_inf x = false ->
  PyFloat.abs (PyFloat.sub x x) = f_0_0.
Proof.
  destruct x as [[] | | | s m e]; try done. intros _ _.
  unfold PyFloat.sub, SFsub. rewrite Z.sub_diag. reflexivity.
Qed.

Lemma zero_le_epsilon (y : float) : PyFloat.le f_0_0 (PyFloat.max f_0_0001 y) = true.
Proof.
  unfold PyFloat.max. destruct (PyFloat.gt y f_0_0001) eqn:Hgt; [| reflexivity].
  destruct y as [[] | [] | | [] m e]; try done.
Qed.

(** X19: without [range_sensitive], two answers that read as the same finite
    number are graded correct, however they are written. *)
Theorem X19_equal_values_are_correct
    (student_answer correct_answer tolerance_percent : pyval)
    (answer_range : option AnswerRange) (value : float) :
  PyFloat.parse (clean_number student_answer) = Some value ->
  PyFloat.parse (clean_number correct_answer) = Some value ->
  PyFloat.is_nan value = false -> PyFloat.is_inf value = false ->
  exists r,
    grade_numerical student_answer correct_answer false tolerance_percent answer_range
    = Ok r
    /\ is_correct r = true /\ score_percentage r = f_100_0.
Proof.
  intros Hs Hc Hnan Hinf. unfold grade_numerical, grade_numerical_try.
  destruct (String.eqb _ _); [eexists; split; [reflexivity | by split] |].
  rewrite (of_string_parse _ _ Hs), (of_string_parse _ _ Hc), !bind_Ok.
  rewrite sub_self by done. rewrite zero_le_epsilon.
  eexists. split; [reflexivity | by split].
Qed.

Lemma X19_witness :
  exists r,
    grade_numerical (PStr "1,000.50") (PStr "1000.5") false (PInt 0) None = Ok r
    /\ is_correct r = true /\ score_percentage r = f_100_0.
Proof.
  apply (X19_equal_values_are_correct (PStr "1,000.50") (PStr "1000.5") (PInt 0) None
           (PyFloat.of_decimal false 10005 (-1))); vm_compute; reflexivity.
Defined.

Lemma confidence_no_match (s : string) (pos : nat) (prev : option ascii) :
  match s with "" => True | String c _ => is_0_or_1 c = false end ->
  match_at re_confidence pos prev s = None.
Proof.
  intros Hs. unfold match_at, re_confidence. cbn [cat foldr exec].
  destruct (xorb _ _); [| reflexivity].
  destruct s as [| c t]; [reflexivity |]. rewrite Hs.
  assert (is_0 c = false) as ->; [| reflexivity].
  unfold is_0_or_1, is_0 in *. by apply orb_false_iff in Hs as [-> _].
Qed.

Lemma search_confidence_none (s : string) (pos : nat) (prev : option ascii) :
  all_chars (fun c => negb (is_0_or_1 c)) s = true ->
  search_from re_confidence pos prev s = None.
Proof.
  revert pos prev. induction s as [| c t IH]; intros pos prev Hs.
  - cbn [search_from]. by rewrite confidence_no_match.
  - cbn [all_chars] in Hs. apply andb_true_iff in Hs as [Hc Ht].
    cbn [search_from]. rewrite confidence_no_match by (by destruct (is_0_or_1 c)).
    by apply IH.
Qed.

(** X20: when the reply of the oracle holds neither the digit 0 nor the digit 1,
    the confidence is 1.0 if the reply contains "true" in any case, as in
    "not true", and 0.0 otherwise. *)
Theorem X20_reply_without_number
    (student_answer correct_answer : pyval) (question_text : option string)
    (threshold : float) (w : World) (reply : string) :
  oracle w (calls w) (request_for student_answer correct_answer question_text) = Ok reply ->
  all_chars (fun c => negb (is_0_or_1 c)) (PyStr.strip reply) = true ->
  _check_meaning_with_ollama student_answer correct_answer question_text threshold w
  = (let confidence :=
       if PyStr.contains "true" (PyStr.lower (PyStr.strip reply)) then f_1_0 else f_0_0 in
     (PyFloat.ge confidence threshold, confidence),
     mkWorld (oracle w) (S (calls w)) (stdout w)).
Proof.
  intros Hreply Hplain. unfold _check_meaning_with_ollama, ollama_chat.
  rewrite Hreply, bind_Ok. unfold read_confidence, re_search.
  rewrite search_confidence_none by done. reflexivity.
Qed.

Lemma X20_witness :
  _check_meaning_with_ollama (PStr "Paris") (PStr "Rome") None f_0_7
    (constant_oracle (Ok "That is not TRUE."))
  = (let confidence :=
       if PyStr.contains "true" (PyStr.lower (PyStr.strip "That is not TRUE."))
       then f_1_0 else f_0_0 in
     (PyFloat.ge confidence f_0_7, confidence),
     mkWorld (oracle (constant_oracle (Ok "That is not TRUE.")))
       (S (calls (constant_oracle (Ok "That is not TRUE."))))
       (stdout (constant_oracle (Ok "That is not TRUE.")))).
Proof.
  apply (X20_reply_without_number (PStr "Paris") (PStr "Rome") None f_0_7
           (constant_oracle (Ok "That is not TRUE.")) "That is not TRUE.");
    reflexivity.
Defined.

(** *** Rounding never passes a number of the grid *)

Section RoundingBounds.
Local Open Scope Z_scope.

(** Rounding a mantissa of [53 + sh] digits: when the exact value is at
    most [G] units of the last place kept, so is the rounded one. *)
Lemma round_le_grid (mx ex sh : Z) (lx : location) (G : Z) :
  0 < mx -> Zdigits2 mx = 53 + sh -> 0 <= sh -> -1074 <= ex + sh -> ex + sh < 970 ->
  mx < G * 2 ^ sh \/ (mx = G * 2 ^ sh /\ lx = loc_Exact) ->
  exists m e, binary_round_aux 53 1024 false mx ex lx = S754_finite false m e
    /\ 2 ^ 52 <= Zpos m < 2 ^ 53
    /\ ex + sh <= e <= ex + sh + 1
    /\ Zpos m * 2 ^ (e - (ex + sh)) <= G.
Proof.
  intros Hpos Hd Hsh Hlo Hhi Hle.
  assert (0 < 2 ^ sh) as Hpow by (apply Z.pow_pos_nonneg; lia).
  assert (exists mrs, shr (shr_record_of_loc mx lx) ex sh = (mrs, ex + sh)
                      /\ shr_m mrs = mx / 2 ^ sh
                      /\ (mx = G * 2 ^ sh /\ lx = loc_Exact -> shr_r mrs = false))
    as (mrs & Hshr & Hm & Hr).
  { destruct (Z.eq_dec sh 0) as [-> | Hne].
    - exists (shr_record_of_loc mx lx). rewrite shr_zero, Z.add_0_r.
      split; [reflexivity |]. split.
      + change (2 ^ 0) with 1. rewrite Z.div_1_r. by destruct lx as [| []].
      + intros [_ ->]. reflexivity.
    - destruct (shr_pos mx lx ex sh) as (mrs & Hshr & Hm & Hr); [lia | lia |].
      exists mrs. split; [exact Hshr |]. split; [exact Hm |].
      intros [Heq _]. rewrite Hr, Heq.
      replace (2 ^ sh) with (2 ^ (sh - 1) * 2).
      2:{ rewrite Z.mul_comm, <- Z.pow_succ_r by lia. f_equal. lia. }
      replace (G * (2 ^ (sh - 1) * 2)) with (G * 2 * 2 ^ (sh - 1)) by lia.
      rewrite Z.div_mul by (apply Z.pow_nonzero; lia).
      rewrite Z.odd_mul. cbn. apply andb_false_r. }
  destruct (binary_round_aux_normal false mx ex lx sh mrs Hpos Hd Hsh Hlo ltac:(lia) Hshr Hm)
    as (m & e & Hres & Hmm & Hcases).
  exists m, e. split; [exact Hres |]. split; [exact Hmm |].
  assert (mx / 2 ^ sh < G \/ (mx / 2 ^ sh = G /\ shr_r mrs = false)) as Hq.
  { destruct Hle as [Hlt | [Heq Hex]].
    - left. apply Z.div_lt_upper_bound; lia.
    - right. split; [by rewrite Heq, Z.div_mul by lia | by apply Hr]. }
  destruct Hcases as [(-> & Hb & Hrf) | (-> & -> & Hc & Hrt)].
  - split; [lia |]. replace (ex + sh - (ex + sh)) with 0 by lia.
    change (2 ^ 0) with 1. rewrite Z.mul_1_r.
    destruct Hq as [Hlt | [Heq Hrz]]; [lia |]. rewrite (Hrf Hrz). lia.
  - split; [lia |]. replace (ex + sh + 1 - (ex + sh)) with 1 by lia.
    change (2 ^ 52 * 2 ^ 1) with (2 ^ 53).
    destruct Hq as [Hlt | [Heq Hrz]]; [lia | congruence].
Qed.


Lemma pow2_split (a b : Z) : 0 <= a -> 0 <= b -> 2 ^ (a + b) = 2 ^ a * 2 ^ b.
Proof. intros. apply Z.pow_add_r; lia. Qed.

Lemma pow2_pos (a : Z) : 0 <= a -> 0 < 2 ^ a.
Proof. intros. apply Z.pow_pos_nonneg; lia. Qed.

Lemma pow2_le (a b : Z) : 0 <= a <= b -> 2 ^ a <= 2 ^ b.
Proof. intros. apply Z.pow_le_mono_r; lia. Qed.

(** The order of floats is the order of their values. *)
Lemma le_units (x y : float) :
  normal_from (-1000) x -> normal_from (-1000) y ->
  (PyFloat.le x y = true <-> units x <= units y).
Proof.
  destruct x as [[] | | | [] m1 e1]; try done; destruct y as [[] | | | [] m2 e2]; try done;
    cbn [normal_from units]; intros Hx Hy.
  - split; [intros _ | reflexivity]. destruct Hy as [Hm He].
    pose proof (pow2_pos (e2 + 1000) ltac:(lia)). nia.
  - split; [discriminate |]. destruct Hx as [Hm He].
    pose proof (pow2_pos (e1 + 1000) ltac:(lia)). nia.
  - destruct Hx as [Hm1 He1], Hy as [Hm2 He2].
    unfold PyFloat.le, SFleb. rewrite SFcompare_positive.
    pose proof (pow2_pos (e1 + 1000) ltac:(lia)) as P1.
    pose proof (pow2_pos (e2 + 1000) ltac:(lia)) as P2.
    change (2 ^ 52) with 4503599627370496 in *.
    change (2 ^ 53) with 9007199254740992 in *.
    destruct (Z.compare_spec e1 e2) as [-> | Hlt | Hgt].
    + destruct (Pos.compare_spec m1 m2) as [-> | Hc | Hc]; split; try done.
      * intros _. apply Z.mul_le_mono_nonneg_r; lia.
      * intros Hle. exfalso.
        assert (Z.pos m2 * 2 ^ (e2 + 1000) < Z.pos m1 * 2 ^ (e2 + 1000)); [| lia].
        apply Z.mul_lt_mono_pos_r; lia.
    + split; [intros _ | done].
      replace (e2 + 1000) with ((e1 + 1000) + (e2 - e1)) by lia.
      rewrite (pow2_split (e1 + 1000) (e2 - e1)) by lia.
      pose proof (pow2_le 1 (e2 - e1) ltac:(lia)) as P3. change (2 ^ 1) with 2 in P3.
      set (A := 2 ^ (e1 + 1000)) in *. set (B := 2 ^ (e2 - e1)) in *.
      assert (Z.pos m1 * A <= 9007199254740992 * A)
        by (apply Z.mul_le_mono_nonneg_r; lia).
      assert (2 * A <= A * B) by (rewrite (Z.mul_comm 2); apply Z.mul_le_mono_nonneg_l; lia).
      assert (4503599627370496 * (A * B) <= Z.pos m2 * (A * B))
        by (apply Z.mul_le_mono_nonneg_r; lia).
      lia.
    + split; [done |]. intros Hle. exfalso.
      replace (e1 + 1000) with ((e2 + 1000) + (e1 - e2)) in Hle by lia.
      rewrite (pow2_split (e2 + 1000) (e1 - e2)) in Hle by lia.
      pose proof (pow2_le 1 (e1 - e2) ltac:(lia)) as P3. change (2 ^ 1) with 2 in P3.
      set (A := 2 ^ (e2 + 1000)) in *. set (B := 2 ^ (e1 - e2)) in *.
      assert (Z.pos m2 * A < 9007199254740992 * A)
        by (apply Z.mul_lt_mono_pos_r; lia).
      assert (2 * A <= A * B) by (rewrite (Z.mul_comm 2); apply Z.mul_le_mono_nonneg_l; lia).
      assert (4503599627370496 * (A * B) <= Z.pos m1 * (A * B))
        by (apply Z.mul_le_mono_nonneg_r; lia).
      lia.
Qed.

Lemma iter_xO (p n : positive) : Zpos (Pos.iter xO p n) = Zpos p * 2 ^ Zpos n.
Proof.
  revert p. induction n as [| n IH] using Pos.peano_ind; intros p.
  - cbn. lia.
  - rewrite Pos.iter_succ, Pos2Z.inj_xO, IH, Pos2Z.inj_succ, Z.pow_succ_r by lia. lia.
Qed.

Lemma digits_53 (m : Z) : 2 ^ 52 <= m < 2 ^ 53 -> Zdigits2 m = 53.
Proof.
  intros Hm. destruct m as [| p | p]; try (change (2 ^ 52) with 4503599627370496 in Hm; lia).
  cbn [Zdigits2]. apply digits2_pos_unique. exact Hm.
Qed.

(** A mantissa of 53 digits is kept as it is. *)
Lemma round_exact (m : positive) (e : Z) :
  2 ^ 52 <= Zpos m < 2 ^ 53 -> -1074 <= e < 970 ->
  binary_round_aux 53 1024 false (Zpos m) e loc_Exact = S754_finite false m e.
Proof.
  intros Hm He.
  destruct (binary_round_aux_normal false (Zpos m) e loc_Exact 0
              (shr_record_of_loc (Zpos m) loc_Exact))
    as (m' & e' & -> & Hm' & Hcases); try lia.
  - by rewrite digits_53.
  - by rewrite shr_zero, Z.add_0_r.
  - cbn [shr_record_of_loc shr_m]. change (2 ^ 0) with 1. by rewrite Z.div_1_r.
  - cbn [shr_record_of_loc shr_m shr_r] in Hcases.
    destruct Hcases as [(-> & _ & Heq) | (_ & _ & _ & Hr)]; [| discriminate Hr].
    specialize (Heq eq_refl). injection Heq as ->. f_equal. lia.
Qed.

(** An integer below 2^53 is a float. *)
Lemma of_Z_exact (a : Z) :
  0 < a < 2 ^ 53 ->
  exists m e, PyFloat.of_Z a = S754_finite false m e
    /\ 2 ^ 52 <= Zpos m < 2 ^ 53 /\ -52 <= e <= 0 /\ Zpos m = a * 2 ^ (- e).
Proof.
  intros Ha. destruct a as [| p | p]; try lia.
  pose proof (digits2_pos_bounds p) as [Hlo Hhi].
  set (d := Zpos (digits2_pos p)) in *.
  assert (1 <= d) as Hd1 by (subst d; lia).
  assert (d <= 53) as Hd53.
  { assert (2 ^ (d - 1) < 2 ^ 53) as HH by lia. apply Z.pow_lt_mono_r_iff in HH; lia. }
  unfold PyFloat.of_Z, binary_normalize, binary_round, PyFloat.prec, PyFloat.emax.
  fold d. rewrite fexp_normal by lia. unfold shl_align.
  replace (d + 0 - 53 - 0) with (d - 53) by lia.
  assert (2 ^ 52 <= Zpos p * 2 ^ (53 - d) < 2 ^ 53) as Hrange.
  { pose proof (pow2_pos (53 - d) ltac:(lia)) as Hp.
    assert (2 ^ 52 = 2 ^ (d - 1) * 2 ^ (53 - d)) as E1
      by (rewrite <- pow2_split by lia; f_equal; lia).
    assert (2 ^ 53 = 2 ^ d * 2 ^ (53 - d)) as E2
      by (rewrite <- pow2_split by lia; f_equal; lia).
    set (T := 2 ^ (53 - d)) in *. rewrite E1, E2. split.
    - apply Z.mul_le_mono_nonneg_r; lia.
    - apply Z.mul_lt_mono_pos_r; lia. }
  destruct (d - 53) as [| q | q] eqn:Hq; try lia.
  - replace (53 - d) with 0 in Hrange by lia. change (2 ^ 0) with 1 in Hrange.
    rewrite Z.mul_1_r in Hrange.
    rewrite round_exact by lia. exists p, 0. split; [reflexivity |].
    split; [exact Hrange |]. split; [lia |]. change (2 ^ (- 0)) with 1. lia.
  - replace (53 - d) with (Zpos q) in Hrange by lia.
    rewrite <- iter_xO in Hrange.
    rewrite round_exact by lia. eexists _, _. split; [reflexivity |].
    split; [exact Hrange |]. split; [lia |].
    rewrite iter_xO. do 2 f_equal. lia.
Qed.

Lemma of_Z_normal (a : Z) :
  0 <= a < 2 ^ 53 ->
  normal_from (-52) (PyFloat.of_Z a) /\ units (PyFloat.of_Z a) = a * 2 ^ 1000.
Proof.
  intros Ha. destruct (Z.eq_dec a 0) as [-> | Hne]; [done |].
  destruct (of_Z_exact a ltac:(lia)) as (m & e & -> & Hm & He & Hv).
  cbn [normal_from units]. split; [lia |].
  rewrite Hv, <- Z.mul_assoc, <- pow2_split by lia. do 2 f_equal. lia.
Qed.

Lemma normal_from_weaken (lo lo' : Z) (x : float) :
  lo' <= lo -> normal_from lo x -> normal_from lo' x.
Proof. intros H. destruct x as [[] | | | [] m e]; cbn [normal_from]; try done; lia. Qed.

Lemma units_nonneg (x : float) : 0 <= units x.
Proof. destruct x as [| | | [] m e]; cbn [units]; lia. Qed.

Lemma shl_align_fst (m : positive) (e ez : Z) :
  ez <= e -> Zpos (fst (shl_align m e ez)) = Zpos m * 2 ^ (e - ez).
Proof.
  intros He. unfold shl_align. destruct (ez - e) as [| q | q] eqn:Hq; try lia.
  - replace (e - ez) with 0 by lia. cbn [fst]. change (2 ^ 0) with 1. lia.
  - cbn [fst]. rewrite iter_xO. do 2 f_equal. lia.
Qed.

(** The value of a rounded result in terms of the bound of [round_le_grid]. *)
Lemma units_le_grid (m : positive) (e g G A : Z) :
  -1000 <= g <= 0 -> g <= e -> Zpos m * 2 ^ (e - g) <= G -> G = A * 2 ^ (- g) ->
  Zpos m * 2 ^ (e + 1000) <= A * 2 ^ 1000.
Proof.
  intros Hg He Hle ->.
  replace (e + 1000) with ((e - g) + (g + 1000)) by lia.
  replace 1000 with ((- g) + (g + 1000)) at 2 by lia.
  rewrite (pow2_split (e - g)), (pow2_split (- g)) by lia.
  rewrite !Z.mul_assoc. apply Z.mul_le_mono_nonneg_r; [| exact Hle].
  pose proof (pow2_pos (g + 1000) ltac:(lia)). lia.
Qed.

(** Adding two floats whose values add up to at most an integer [A] below
    2^53 gives at most [A]. *)
Lemma add_le (lo : Z) (x y : float) (A : Z) :
  -1000 <= lo -> normal_from lo x -> normal_from lo y -> 0 <= A < 2 ^ 53 ->
  units x + units y <= A * 2 ^ 1000 ->
  normal_from lo (PyFloat.add x y) /\ units (PyFloat.add x y) <= A * 2 ^ 1000.
Proof.
  intros Hlo Hx Hy HA Hsum.
  destruct x as [[] | | | [] m1 e1]; try done; destruct y as [[] | | | [] m2 e2]; try done.
  - split; [done |]. cbn [PyFloat.add SFadd units] in *. lia.
  - cbn [normal_from units] in Hx, Hy, Hsum. destruct Hx as [Hm1 He1], Hy as [Hm2 He2].
    pose proof (pow2_pos 1000 ltac:(lia)) as P1000.
    assert (forall m e, 2 ^ 52 <= Zpos m -> -1000 <= e ->
                        Zpos m * 2 ^ (e + 1000) < 2 ^ 53 * 2 ^ 1000 -> e <= 0) as Hexp.
    { intros m e Hm He Hlt. destruct (Z.le_gt_cases e 0) as [| Hgt]; [done |]. exfalso.
      pose proof (pow2_le 1001 (e + 1000) ltac:(lia)) as Hp.
      change (2 ^ 1001) with (2 * 2 ^ 1000) in Hp.
      assert (2 ^ 52 * (2 * 2 ^ 1000) <= Zpos m * 2 ^ (e + 1000)); [| lia].
      apply Z.mul_le_mono_nonneg; lia. }
    pose proof (units_nonneg (S754_finite false m1 e1)) as U1.
    pose proof (units_nonneg (S754_finite false m2 e2)) as U2.
    cbn [units] in U1, U2.
    assert (A * 2 ^ 1000 < 2 ^ 53 * 2 ^ 1000) as HA' by (apply Z.mul_lt_mono_pos_r; lia).
    assert (e1 <= 0) as He1' by (apply (Hexp m1); lia).
    assert (e2 <= 0) as He2' by (apply (Hexp m2); lia).
    unfold PyFloat.add, SFadd, PyFloat.prec, PyFloat.emax.
    set (ez := Z.min e1 e2).
    pose proof (shl_align_fst m1 e1 ez ltac:(lia)) as Hn1.
    pose proof (shl_align_fst m2 e2 ez ltac:(lia)) as Hn2.
    set (n1 := fst (shl_align m1 e1 ez)) in *. set (n2 := fst (shl_align m2 e2 ez)) in *.
    cbn [cond_Zopp]. change (Zpos n1 + Zpos n2) with (Zpos (n1 + n2)).
    cbn [binary_normalize]. unfold binary_round.
    pose proof (digits2_pos_bounds (n1 + n2)) as [Dlo Dhi].
    set (d := Zpos (digits2_pos (n1 + n2))) in *.
    assert (Zpos (n1 + n2) = Zpos m1 * 2 ^ (e1 - ez) + Zpos m2 * 2 ^ (e2 - ez)) as HS
      by (rewrite Pos2Z.inj_add; lia).
    set (S := Zpos (n1 + n2)) in *.
    pose proof (pow2_pos (e1 - ez) ltac:(lia)) as Q1.
    pose proof (pow2_pos (e2 - ez) ltac:(lia)) as Q2.
    pose proof (pow2_pos (ez + 1000) ltac:(lia)) as Q3.
    assert (2 ^ 53 <= S) as HSlo.
    { change (2 ^ 53) with (2 ^ 52 + 2 ^ 52). rewrite HS.
      apply Z.add_le_mono.
      - transitivity (Zpos m1 * 1); [lia | apply Z.mul_le_mono_nonneg_l; lia].
      - transitivity (Zpos m2 * 1); [lia | apply Z.mul_le_mono_nonneg_l; lia]. }
    assert (S * 2 ^ (ez + 1000) <= A * 2 ^ 1000) as HSum.
    { rewrite HS, Z.mul_add_distr_r, <- !Z.mul_assoc, <- !pow2_split by lia.
      replace (e1 - ez + (ez + 1000)) with (e1 + 1000) by lia.
      replace (e2 - ez + (ez + 1000)) with (e2 + 1000) by lia. exact Hsum. }
    assert (54 <= d) as Hd54.
    { assert (2 ^ 53 < 2 ^ d) as HH by lia. apply Z.pow_lt_mono_r_iff in HH; lia. }
    assert (d + ez <= 53) as Hdez.
    { destruct (Z.le_gt_cases (d + ez) 53) as [| Hgt]; [done |]. exfalso.
      assert (2 ^ 53 * 2 ^ 1000 <= 2 ^ (d - 1) * 2 ^ (ez + 1000)) as HH.
      { rewrite <- !pow2_split by lia. apply pow2_le. lia. }
      assert (2 ^ (d - 1) * 2 ^ (ez + 1000) <= S * 2 ^ (ez + 1000))
        by (apply Z.mul_le_mono_nonneg_r; lia).
      lia. }
    rewrite fexp_normal by (fold d; lia). fold d.
    unfold shl_align. destruct (d + ez - 53 - ez) as [| q | q] eqn:Hq; try lia.
    cbv beta iota. change (Zpos (n1 + n2)) with S.
    set (g := ez + (d - 53)).
    assert (S <= A * 2 ^ (- ez)) as HSA.
    { apply (Z.mul_le_mono_pos_r _ _ (2 ^ (ez + 1000))); [lia |].
      rewrite <- Z.mul_assoc, <- pow2_split by lia.
      replace (- ez + (ez + 1000)) with 1000 by lia. exact HSum. }
    destruct (round_le_grid S ez (d - 53) loc_Exact (A * 2 ^ (- g)))
      as (m & e & -> & Hm & He & Hle); try lia.
    + subst S. cbn [Zdigits2]. fold d. lia.
    + rewrite <- Z.mul_assoc, <- pow2_split by (subst g; lia).
      replace (- g + (d - 53)) with (- ez) by (subst g; lia).
      destruct (Z.eq_dec S (A * 2 ^ (- ez))); [by right | left; lia].
    + fold g in He, Hle. cbn [normal_from units]. split; [lia |].
      apply (units_le_grid m e g (A * 2 ^ (- g)) A); [subst g; lia | lia | exact Hle | done].
Qed.

(** Multiplying an integer [a] below 2^53 by a float that is at most 1
    gives at most [a]. *)
Lemma mul_le (lo a : Z) (y : float) :
  -1000 <= lo -> 0 <= a < 2 ^ 53 -> normal_from lo y -> units y <= 2 ^ 1000 ->
  normal_from lo (PyFloat.mul (PyFloat.of_Z a) y)
  /\ units (PyFloat.mul (PyFloat.of_Z a) y) <= a * 2 ^ 1000.
Proof.
  intros Hlo Ha Hy Hone.
  pose proof (pow2_pos 1000 ltac:(lia)) as P1000.
  destruct (Z.eq_dec a 0) as [-> | Hne].
  { change (PyFloat.of_Z 0) with (S754_zero false).
    destruct y as [[] | | | [] my ey]; try done. }
  destruct (of_Z_exact a ltac:(lia)) as (mx & ex & -> & Hmx & Hex & Hva).
  destruct y as [[] | | | [] my ey]; try done.
  { split; [done |]. cbn. lia. }
  cbn [normal_from units] in Hy, Hone. destruct Hy as [Hmy Hey].
  pose proof (pow2_pos (ey + 1000) ltac:(lia)) as Q1.
  assert (ey <= -52) as Hey'.
  { destruct (Z.le_gt_cases ey (-52)) as [| Hgt]; [done |]. exfalso.
    assert (2 ^ 52 * 2 ^ (ey + 1000) <= Zpos my * 2 ^ (ey + 1000))
      by (apply Z.mul_le_mono_nonneg_r; lia).
    assert (2 ^ 1001 <= 2 ^ 52 * 2 ^ (ey + 1000))
      by (rewrite <- pow2_split by lia; apply pow2_le; lia).
    change (2 ^ 1001) with (2 * 2 ^ 1000) in *. lia. }
  assert (Zpos my <= 2 ^ (- ey)) as Hmy'.
  { apply (Z.mul_le_mono_pos_r _ _ (2 ^ (ey + 1000))); [lia |].
    rewrite <- pow2_split by lia. replace (- ey + (ey + 1000)) with 1000 by lia. exact Hone. }
  unfold PyFloat.mul, SFmul, PyFloat.prec, PyFloat.emax. cbn [xorb].
  assert (Zpos (mx * my) = Zpos mx * Zpos my) as HP by apply Pos2Z.inj_mul.
  pose proof (digits2_pos_bounds (mx * my)) as [Dlo Dhi].
  set (d := Zpos (digits2_pos (mx * my))) in *.
  set (P := Zpos (mx * my)) in *.
  pose proof (pow2_pos (- ey) ltac:(lia)) as Q2.
  assert (2 ^ 104 <= P) as HPlo.
  { rewrite HP. change (2 ^ 104) with (2 ^ 52 * 2 ^ 52). apply Z.mul_le_mono_nonneg; lia. }
  assert (P <= Zpos mx * 2 ^ (- ey)) as HPhi
    by (rewrite HP; apply Z.mul_le_mono_nonneg_l; lia).
  assert (105 <= d) as Hd105.
  { assert (2 ^ 104 < 2 ^ d) as HH by lia. apply Z.pow_lt_mono_r_iff in HH; lia. }
  assert (d <= 53 - ey) as Hdey.
  { assert (Zpos mx * 2 ^ (- ey) < 2 ^ 53 * 2 ^ (- ey))
      by (apply Z.mul_lt_mono_pos_r; lia).
    assert (2 ^ (d - 1) < 2 ^ (53 + - ey)) as HH by (rewrite pow2_split by lia; lia).
    apply Z.pow_lt_mono_r_iff in HH; lia. }
  set (g := ex + ey + (d - 53)).
  destruct (round_le_grid P (ex + ey) (d - 53) loc_Exact (a * 2 ^ (- g)))
    as (m & e & -> & Hm & He & Hle); try (subst g; lia).
  - subst P. cbn [Zdigits2]. fold d. lia.
  - rewrite <- Z.mul_assoc, <- pow2_split by (subst g; lia).
    replace (- g + (d - 53)) with (- ex + - ey) by (subst g; lia).
    rewrite pow2_split, Z.mul_assoc, <- Hva by lia.
    destruct (Z.eq_dec P (Zpos mx * 2 ^ (- ey))); [by right | left; lia].
  - fold g in He, Hle. cbn [normal_from units]. split; [subst g; lia |].
    apply (units_le_grid m e g (a * 2 ^ (- g)) a); [subst g; lia | lia | exact Hle | done].
Qed.

(** A score below 100 divided by 100 is at most 1. *)
Lemma div_100_le (ms : positive) (es : Z) :
  2 ^ 52 <= Zpos ms < 2 ^ 53 -> -150 <= es ->
  es < -46 \/ (es = -46 /\ Zpos ms < 7036874417766400) ->
  normal_from (-160) (PyFloat.div (S754_finite false ms es) f_100_0)
  /\ units (PyFloat.div (S754_finite false ms es) f_100_0) <= 2 ^ 1000.
Proof.
  intros Hms Hes Hbelow. rewrite f_100_0_eq.
  unfold PyFloat.div, SFdiv, SFdiv_core_binary, PyFloat.prec, PyFloat.emax. cbn [xorb].
  rewrite (digits_53 (Zpos ms) Hms).
  change (Zdigits2 7036874417766400) with 53.
  replace (53 + es - (53 + -46)) with (es + 46) by lia.
  rewrite fexp_normal by lia.
  replace (Z.min (es + 46 - 53) (es - -46)) with (es - 7) by lia.
  replace (es - -46 - (es - 7)) with 53 by lia.
  cbv iota. rewrite Z.shiftl_mul_pow2 by lia. rewrite div_eucl_div_mod.
  change (2 ^ 52) with 4503599627370496 in Hms.
  change (2 ^ 53) with 9007199254740992 in *.
  pose proof (Z.div_mod (Zpos ms * 9007199254740992) 7036874417766400 ltac:(lia)) as Hdm.
  pose proof (Z.mod_pos_bound (Zpos ms * 9007199254740992) 7036874417766400 ltac:(lia)) as Hr.
  set (q := Zpos ms * 9007199254740992 / 7036874417766400) in *.
  set (r := (Zpos ms * 9007199254740992) mod 7036874417766400) in *.
  clearbody q r.
  assert (4503599627370496 <= q < 18014398509481984) as Hq by lia.
  assert (q < 2 ^ (7 - es)) as Hqb.
  { destruct Hbelow as [Hlt | [-> Hlt]].
    - assert (2 ^ 54 <= 2 ^ (7 - es)) as HH by (apply pow2_le; lia).
      change (2 ^ 54) with 18014398509481984 in HH. lia.
    - change (2 ^ (7 - -46)) with 9007199254740992. lia. }
  set (sh := if q <? 9007199254740992 then 0 else 1).
  assert (Zdigits2 q = 53 + sh) as Hd.
  { destruct q as [| pq | pq]; try lia. cbn [Zdigits2]. subst sh.
    destruct (Z.ltb_spec (Zpos pq) 9007199254740992).
    - apply digits2_pos_unique. change (2 ^ (53 + 0 - 1)) with 4503599627370496.
      change (2 ^ (53 + 0)) with 9007199254740992. lia.
    - apply digits2_pos_unique. change (2 ^ (53 + 1 - 1)) with 9007199254740992.
      change (2 ^ (53 + 1)) with 18014398509481984. lia. }
  assert (0 <= sh <= 1) as Hsh by (subst sh; destruct (q <? 9007199254740992); lia).
  set (g := es - 7 + sh).
  destruct (round_le_grid q (es - 7) sh (new_location 7036874417766400 r) (1 * 2 ^ (- g)))
    as (m & e & -> & Hm & He & Hle); try (subst g; lia).
  - left. rewrite Z.mul_1_l, <- pow2_split by (subst g; lia).
    replace (- g + sh) with (7 - es) by (subst g; lia). exact Hqb.
  - fold g in He, Hle. cbn [normal_from units].
    change (2 ^ 52) with 4503599627370496. change (2 ^ 53) with 9007199254740992 in Hm.
    split; [subst g; lia |].
    rewrite <- (Z.mul_1_l (2 ^ 1000)).
    apply (units_le_grid m e g (1 * 2 ^ (- g)) 1); [subst g; lia | lia | exact Hle | done].
Qed.

(** The score of a partial match that is neither empty nor full: a normal
    float below 100. *)
Lemma partial_score_shape (k n : Z) :
  0 < k < n -> n < 2 ^ 53 ->
  exists x m e,
    PyFloat.int_true_div k n = Ok x
    /\ PyFloat.mul x f_100_0 = S754_finite false m e
    /\ 2 ^ 52 <= Zpos m < 2 ^ 53 /\ -110 <= e
    /\ (e < -46 \/ (e = -46 /\ Zpos m < 7036874417766400)).
Proof.
  intros Hk Hn. destruct n as [| pn | pn]; try lia. destruct k as [| pk | pk]; try lia.
  destruct (ratio_below_one pk pn) as (m0 & e0 & Hr & Hm0 & He0); [lia |].
  exists (S754_finite false m0 e0). cbn [PyFloat.int_true_div]. rewrite Hr.
  cbn [PyFloat.is_inf].
  destruct (mul_100_below m0 e0 Hm0 He0) as (m1 & e1 & Hmul & Hbelow).
  exists m1, e1. split; [reflexivity |]. split; [exact Hmul |].
  rewrite f_100_0_eq in Hmul.
  unfold PyFloat.mul, SFmul, PyFloat.prec, PyFloat.emax in Hmul. cbn [xorb] in Hmul.
  assert (Zpos (m0 * 7036874417766400) = Zpos m0 * 7036874417766400) as HP
    by apply Pos2Z.inj_mul.
  pose proof (digits2_pos_bounds (m0 * 7036874417766400)) as [Dlo Dhi].
  set (d := Zpos (digits2_pos (m0 * 7036874417766400))) in *.
  set (P := Zpos (m0 * 7036874417766400)) in *.
  change (2 ^ 52) with 4503599627370496 in Hm0.
  change (2 ^ 53) with 9007199254740992 in Hm0.
  assert (2 ^ 104 <= P < 2 ^ 106) as HPr.
  { change (2 ^ 104) with 20282409603651670423947251286016.
    change (2 ^ 106) with 81129638414606681695789005144064. lia. }
  assert (105 <= d <= 106) as Hd.
  { split.
    - assert (2 ^ 104 < 2 ^ d) as HH by lia. apply Z.pow_lt_mono_r_iff in HH; lia.
    - assert (2 ^ (d - 1) < 2 ^ 106) as HH by lia. apply Z.pow_lt_mono_r_iff in HH; lia. }
  destruct (round_le_grid P (e0 + -46) (d - 53) loc_Exact (2 ^ 54))
    as (m & e & Hres & Hm & He & _); try lia.
  - subst P. cbn [Zdigits2]. fold d. lia.
  - left. rewrite <- pow2_split by lia.
    assert (2 ^ 106 <= 2 ^ (54 + (d - 53))) by (apply pow2_le; lia). lia.
  - rewrite Hres in Hmul. injection Hmul as <- <-. split; [exact Hm |]. split; [lia |].
    exact Hbelow.
Qed.

Lemma grade_list_credit (sa ca : answer) (os pm cs : bool) :
  (forall cl, tokens ca cs = Ok cl -> Z.of_nat (length cl) < 2 ^ 53) ->
  returns_only
    (fun r => is_correct r = false -> PyFloat.gt (score_percentage r) f_0_0 = true ->
              credit_shape (score_percentage r))
    (grade_list sa ca os pm cs).
Proof.
  intros Hlen. unfold grade_list, grade_list_in.
  assert (forall (b : bool) e mi,
            (fun r => is_correct r = false -> PyFloat.gt (score_percentage r) f_0_0 = true ->
                      credit_shape (score_percentage r))
              (mkResult b f_0_0 e mi None None)) as Hzero.
  { intros b e mi _ Hgt. discriminate Hgt. }
  assert (forall s e mi,
            (fun r => is_correct r = false -> PyFloat.gt (score_percentage r) f_0_0 = true ->
                      credit_shape (score_percentage r))
              (mkResult true s e mi None None)) as Htrue.
  { intros s e mi Hc. discriminate Hc. }
  assert (forall k n x e mi,
            0 <= k <= n -> n < 2 ^ 53 -> PyFloat.int_true_div k n = Ok x ->
            (fun r => is_correct r = false -> PyFloat.gt (score_percentage r) f_0_0 = true ->
                      credit_shape (score_percentage r))
              (mkResult (PyFloat.ge (PyFloat.mul x f_100_0) f_100_0)
                 (PyFloat.mul x f_100_0) e mi None None)) as Hpartial.
  { intros k n x e mi Hk Hn Hx. cbn [is_correct score_percentage]. intros Hc Hgt.
    destruct (Z.eq_dec n 0) as [-> | Hn0]; [discriminate Hx |].
    destruct (Z.eq_dec k 0) as [-> | Hk0].
    { destruct n; try lia; injection Hx as <-; discriminate Hgt. }
    destruct (Z.eq_dec k n) as [-> | Hkn].
    { destruct (score_reaches_100 n n ltac:(lia) ltac:(lia)) as (y & Hy & Hiff & _).
      rewrite Hy in Hx. injection Hx as <-.
      rewrite (proj2 Hiff eq_refl) in Hc. discriminate Hc. }
    destruct (partial_score_shape k n ltac:(lia) Hn) as (y & m & e' & Hy & Hmul & Hrest).
    rewrite Hy in Hx. injection Hx as <-. exists m, e'. split; [exact Hmul | exact Hrest]. }
  apply returns_if; [apply returns_Ok, Hzero |].
  apply returns_bind; intros sl _. apply returns_bind; intros cl Hcl.
  specialize (Hlen cl Hcl).
  apply returns_if.
  - apply returns_if; [apply returns_Ok, Htrue |].
    apply returns_if; [| apply returns_Ok, Hzero].
    apply returns_bind; intros x Hx. apply returns_Ok.
    pose proof (lcs_le_length sl cl) as Hle.
    apply (Hpartial (Z.of_nat (_longest_common_subsequence sl cl)) (Z.of_nat (length cl)));
      [lia | lia | exact Hx].
  - apply returns_if; [apply returns_Ok, Htrue |].
    apply returns_if; [| apply returns_Ok, Hzero].
    apply returns_bind; intros x Hx. apply returns_Ok.
    pose proof (size_matched (list_to_set sl) (list_to_set cl)) as [Hle _].
    pose proof (size_list_to_set_le cl) as Hsz.
    apply (Hpartial (Z.of_nat (size (list_to_set sl ∩ list_to_set cl : gset string)))
             (Z.of_nat (size (list_to_set cl : gset string)))); [lia | lia | exact Hx].
Qed.

Lemma of_int_small (a : Z) : 0 <= a < 2 ^ 53 -> PyFloat.of_int a = Ok (PyFloat.of_Z a).
Proof.
  intros Ha. unfold PyFloat.of_int. destruct (of_Z_normal a Ha) as [Hn _].
  destruct (PyFloat.of_Z a) as [[] | | | [] m e]; done.
Qed.

Lemma within_mono (total : number) (m m' : Z) : m <= m' -> within total m -> within total m'.
Proof.
  intros Hm. destruct total as [a | x]; cbn [within]; [lia |].
  intros [Hn Hu]. split; [done |].
  assert (m * 2 ^ 1000 <= m' * 2 ^ 1000) by (apply Z.mul_le_mono_nonneg_r; lia). lia.
Qed.

Lemma add_int_within (total total' : number) (m marks : Z) :
  within total m -> 0 <= m -> 0 <= marks -> m + marks < 2 ^ 53 ->
  add_int total marks = Ok total' -> within total' (m + marks).
Proof.
  intros Hw Hm Hmarks Hsum. destruct total as [a | x]; cbn [within add_int] in *.
  - intros [= <-]. cbn [within]. lia.
  - rewrite of_int_small by lia. rewrite bind_Ok. intros [= <-]. cbn [within].
    destruct Hw as [Hn Hu]. destruct (of_Z_normal marks ltac:(lia)) as [Hn' Hu'].
    apply add_le; [lia | done | by apply (normal_from_weaken (-52)) | lia |].
    rewrite Hu'. lia.
Qed.

Lemma add_float_within (total total' : number) (m marks : Z) (credit : float) :
  within total m -> 0 <= m -> 0 <= marks -> m + marks < 2 ^ 53 ->
  normal_from (-160) credit -> units credit <= marks * 2 ^ 1000 ->
  add_float total credit = Ok total' -> within total' (m + marks).
Proof.
  intros Hw Hm Hmarks Hsum Hn Hu. destruct total as [a | x]; cbn [within add_float] in *.
  - rewrite of_int_small by lia. rewrite bind_Ok. intros [= <-]. cbn [within].
    destruct (of_Z_normal a ltac:(lia)) as [Hn' Hu'].
    apply add_le; [lia | by apply (normal_from_weaken (-52)) | done | lia |].
    rewrite Hu'.
    assert (a * 2 ^ 1000 <= m * 2 ^ 1000) by (apply Z.mul_le_mono_nonneg_r; lia). lia.
  - intros [= <-]. cbn [within]. destruct Hw as [Hn' Hu'].
    apply add_le; [lia | done | done | lia | lia].
Qed.

Lemma partial_credit_le (marks : Z) (score credit : float) :
  0 <= marks < 2 ^ 53 -> credit_shape score ->
  partial_credit marks score = Ok credit ->
  normal_from (-160) credit /\ units credit <= marks * 2 ^ 1000.
Proof.
  intros Hmarks (m & e & -> & Hm & He & Hbelow). unfold partial_credit.
  rewrite of_int_small by lia. rewrite bind_Ok. intros [= <-].
  destruct (div_100_le m e Hm ltac:(lia) Hbelow) as [Hn Hu].
  apply mul_le; [lia | lia | done | done].
Qed.

Lemma grade_answer_within (scheme : Scheme) (student_answer : pyval)
    (total total' : number) (m : Z) :
  sound_scheme scheme -> within total m -> 0 <= m -> m + scheme_marks scheme < 2 ^ 53 ->
  GradingSpeedTest.grade_answer scheme student_answer total = Ok total' ->
  within total' (m + scheme_marks scheme).
Proof.
  intros [Hmarks Htok'] Hw Hm Hsum. unfold GradingSpeedTest.grade_answer.
  assert (forall cl,
            tokens (Scalar (scheme_answer_text scheme))
              (default false (scheme_case_sensitive scheme)) = Ok cl ->
            Z.of_nat (length cl) < 2 ^ 53) as Htok.
  { intros cl Hcl. by rewrite Hcl in Htok'. }
  clear Htok'.
  assert (within total (m + scheme_marks scheme)) as Hw' by (apply (within_mono _ m); [lia | done]).
  destruct (String.eqb _ "one-word").
  { destruct (is_correct _); [by apply add_int_within | by intros [= <-]]. }
  destruct (String.eqb _ "numerical").
  { destruct (grade_numerical _ _ _ _ _) as [r | e]; [| discriminate].
    rewrite bind_Ok. destruct (is_correct r); [by apply add_int_within | by intros [= <-]]. }
  destruct (String.eqb _ "list"); [| by intros [= <-]].
  pose proof (grade_list_credit (Scalar student_answer) (Scalar (scheme_answer_text scheme))
                (default false (scheme_order_sensitive scheme))
                (default true (scheme_partial_matching scheme))
                (default false (scheme_case_sensitive scheme)) Htok) as Hshape.
  destruct (grade_list _ _ _ _ _) as [r | e]; [| discriminate].
  specialize (Hshape r eq_refl). cbv beta in Hshape. rewrite bind_Ok.
  destruct (is_correct r) eqn:Hcorrect; [by apply add_int_within |].
  destruct (PyFloat.gt (score_percentage r) f_0_0) eqn:Hgt; [| by intros [= <-]].
  specialize (Hshape eq_refl eq_refl).
  destruct (partial_credit (scheme_marks scheme) (score_percentage r)) as [credit | e] eqn:Hc;
    [| discriminate].
  rewrite bind_Ok.
  assert (0 <= scheme_marks scheme < 2 ^ 53) as Hrange by lia.
  destruct (partial_credit_le (scheme_marks scheme) (score_percentage r) credit
              Hrange Hshape Hc) as [Hn Hu].
  by apply (add_float_within total total' m (scheme_marks scheme) credit).
Qed.

Lemma answered_marks_nonneg (submission : dict pyval) (marking_scheme : gmap Z Scheme) :
  (forall q scheme, marking_scheme !! q = Some scheme -> sound_scheme scheme) ->
  0 <= answered_marks submission marking_scheme.
Proof.
  intros Hms. induction submission as [| [q a] l IH]; [done |].
  cbn [answered_marks foldr fst]. fold (answered_marks l marking_scheme).
  destruct (marking_scheme !! q) as [scheme |] eqn:Hq; [| done].
  destruct (Hms q scheme Hq) as [Hmarks _]. lia.
Qed.

Lemma grade_loop_within (marking_scheme : gmap Z Scheme) (submission : dict pyval)
    (total0 : number) (max0 : Z) (total_score : number) (max_score : Z) :
  (forall q scheme, marking_scheme !! q = Some scheme -> sound_scheme scheme) ->
  within total0 max0 -> 0 <= max0 ->
  max0 + answered_marks submission marking_scheme < 2 ^ 53 ->
  foldl (GradingSpeedTest.grade_step marking_scheme) (Ok (total0, max0)) submission
  = Ok (total_score, max_score) ->
  within total_score max_score.
Proof.
  intros Hms. revert total0 max0.
  induction submission as [| [q a] l IH]; intros total0 max0 Hw Hmax Hsum.
  - cbn. by intros [= <- <-].
  - cbn [foldl]. unfold GradingSpeedTest.grade_step at 2. rewrite bind_Ok. cbv beta iota.
    cbn [answered_marks foldr fst] in Hsum. fold (answered_marks l marking_scheme) in Hsum.
    pose proof (answered_marks_nonneg l marking_scheme Hms) as Hrest.
    destruct (marking_scheme !! q) as [scheme |] eqn:Hq; [| by apply IH].
    pose proof (Hms q scheme Hq) as Hsound. pose proof Hsound as [Hmarks _].
    destruct (GradingSpeedTest.grade_answer scheme a total0) as [t | e] eqn:Hg.
    + rewrite bind_Ok. apply IH; [| lia | lia].
      apply (grade_answer_within scheme a total0); [done | done | done | lia | done].
    + cbn [mbind outcome_bind]. rewrite foldl_grade_step_Raise. discriminate.
Qed.

Lemma sound_empty (q : Z) (scheme : Scheme) :
  (∅ : gmap Z Scheme) !! q = Some scheme -> sound_scheme scheme.
Proof. intros H. by rewrite lookup_empty in H. Qed.

Lemma sound_insert (marking_scheme : gmap Z Scheme) (q0 : Z) (scheme0 : Scheme) :
  sound_scheme scheme0 ->
  (forall q scheme, marking_scheme !! q = Some scheme -> sound_scheme scheme) ->
  forall q scheme, <[q0 := scheme0]> marking_scheme !! q = Some scheme -> sound_scheme scheme.
Proof.
  intros H0 Hms q scheme Hq.
  apply lookup_insert_Some in Hq as [[_ <-] | [_ Hq]]; [done | by apply (Hms q)].
Qed.

(** X21: with marks that are not negative and add up to less than 2^53, the
    total that [grade_submission] returns lies between 0 and [max_score],
    also when partial credit has made it a float: no rounding of the
    credits or of their sum takes it past the maximum. *)
Theorem X21_total_score_within_max_score
    (submission : dict pyval) (marking_scheme : gmap Z Scheme)
    (total_score : number) (max_score : Z) :
  (forall q scheme, marking_scheme !! q = Some scheme -> sound_scheme scheme) ->
  answered_marks submission marking_scheme < 2 ^ 53 ->
  GradingSpeedTest.grade_submission submission marking_scheme
  = Ok (total_score, max_score) ->
  match total_score with
  | NInt a => 0 <= a <= max_score
  | NFloat x =>
      PyFloat.le f_0_0 x = true /\ PyFloat.le x (PyFloat.of_Z max_score) = true
  end.
Proof.
  intros Hms Hsum Hgrade. unfold GradingSpeedTest.grade_submission in Hgrade.
  pose proof (grade_loop_max_score _ _ _ _ _ _ Hgrade) as Hmax.
  pose proof (answered_marks_nonneg submission marking_scheme Hms) as Hnonneg.
  assert (within total_score max_score) as Hw.
  { apply (grade_loop_within marking_scheme submission (NInt 0) 0); try done; cbn; lia. }
  destruct total_score as [a | x]; [exact Hw |]. destruct Hw as [Hn Hu].
  destruct (of_Z_normal max_score ltac:(lia)) as [Hn' Hu'].
  split.
  - apply le_units; [done | by apply (normal_from_weaken (-160)) |].
    apply units_nonneg.
  - apply le_units;
      [by apply (normal_from_weaken (-160)) | by apply (normal_from_weaken (-52)) |].
    by rewrite Hu'.
Qed.

Lemma X21_witness :
  PyFloat.le f_0_0 (PyFloat.add (PyFloat.of_Z 10)
                      (PyFloat.mul (PyFloat.of_Z 10)
                         (PyFloat.div (PyFloat.mul (PyFloat.ratio false 2 3) f_100_0)
                            f_100_0))) = true
  /\ PyFloat.le (PyFloat.add (PyFloat.of_Z 10)
                   (PyFloat.mul (PyFloat.of_Z 10)
                      (PyFloat.div (PyFloat.mul (PyFloat.ratio false 2 3) f_100_0)
                         f_100_0)))
       (PyFloat.of_Z 20) = true.
Proof.
  apply (X21_total_score_within_max_score
           [(1, PStr "paris"); (2, PStr "Red, Blue")]
           (<[1 := mkScheme None (PStr "Paris") 10 "one-word" None None None None None None]>
              (<[2 := mkScheme None (PStr "Red, Blue, Yellow") 10 "list"
                        None None None None None None]> ∅))
           (NFloat (PyFloat.add (PyFloat.of_Z 10)
                      (PyFloat.mul (PyFloat.of_Z 10)
                         (PyFloat.div (PyFloat.mul (PyFloat.ratio false 2 3) f_100_0)
                            f_100_0))))
           20).
  - apply sound_insert; [| apply sound_insert; [| apply sound_empty]];
      (split; [vm_compute; discriminate | vm_compute; reflexivity]).
  - vm_compute. reflexivity.
  - vm_compute. reflexivity.
Defined.

End RoundingBounds.
